(** * Authentication and session layer of the resume analyser

    A shallow embedding of [app/lib/db.ts] (user and session tables) and
    [api/auth.ts] (the action-routed auth endpoint), with the properties of
    the session lifecycle stated over it.

    Conventions of the embedding.
    - A JavaScript string is a Rocq [string]: the bytes of its UTF-8
      encoding, a surrogate without partner being three bytes of its own
      (see [has_lone_surrogate]).
    - An [async] function is a computation in the monad [M]: it threads the
      process state ([World]) and either returns or throws.  Side effects made
      before a throw persist, as in JavaScript.
    - The relational store is a pair of row lists; each tagged-template [sql]
      call is one atomic statement over it. *)

From Stdlib Require Import ZArith NArith Ascii String List Lia DecimalString DecimalZ.
From stdpp Require Import base tactics option list strings gmap sorting.

Local Open Scope Z_scope.

(** ** JavaScript values used by the endpoint *)

(** What a [catch (error)] clause can receive.  [JsError] covers [Error] and
    its subclasses ([TypeError], the driver's error class, ...): everything for
    which [error instanceof Error] holds.  [Thrown] is any other thrown value. *)
Inductive exn : Type :=
  | JsError (message : string)
  | Thrown.

(** [error instanceof Error ? error.message : 'Unknown error'] *)
Definition errorMessage (e : exn) : string :=
  match e with
  | JsError m => m
  | Thrown => "Unknown error"
  end.

(** JSON bodies passed to [res.json]. *)
#[warnings="-register-all"]
Inductive json : Type :=
  | JNull
  | JBool (b : bool)
  | JNum (n : Z)
  | JStr (s : string)
  | JObj (fields : list (string * json)).

(** A value of [req.query]: [string | string[]]; an absent key is [None]
    at lookup. *)
Inductive qval : Type :=
  | QStr (s : string)
  | QArr (l : list string).

(** JavaScript truthiness of [req.query.k]: [undefined] and the empty string
    are falsy, every array is truthy. *)
Definition truthy (v : option qval) : bool :=
  match v with
  | None => false
  | Some (QStr s) => negb (bool_decide (s = ""))
  | Some (QArr _) => true
  end.

(** [Array.prototype.join(',')] *)
Fixpoint join_comma (l : list string) : string :=
  match l with
  | [] => ""
  | [s] => s
  | s :: rest => s +:+ "," +:+ join_comma rest
  end.

(** [String(v)] and template interpolation of a query value. *)
Definition String_of (v : qval) : string :=
  match v with
  | QStr s => s
  | QArr l => join_comma l
  end.

(** Truthiness of an optional string ([undefined], [null] and [''] are falsy). *)
Definition nonempty (s : option string) : bool :=
  match s with
  | Some s => negb (bool_decide (s = ""))
  | None => false
  end.

(** [s || null] on an optional string. *)
Definition or_null (s : option string) : option string :=
  if nonempty s then s else None.

(** ** encodeURIComponent *)

Definition hex_digit (n : N) : ascii :=
  match n with
  | 0 => "0" | 1 => "1" | 2 => "2" | 3 => "3" | 4 => "4" | 5 => "5"
  | 6 => "6" | 7 => "7" | 8 => "8" | 9 => "9" | 10 => "A" | 11 => "B"
  | 12 => "C" | 13 => "D" | 14 => "E" | _ => "F"
  end%N%char.

(** The characters [encodeURIComponent] leaves alone:
    [A-Z a-z 0-9 - _ . ! ~ * ' ( )]. *)
Definition uri_unreserved (c : ascii) : bool :=
  let n := N_of_ascii c in
  ((65 <=? n) && (n <=? 90) || (97 <=? n) && (n <=? 122)
   || (48 <=? n) && (n <=? 57)
   || (n =? 45) || (n =? 95) || (n =? 46) || (n =? 33) || (n =? 126)
   || (n =? 42) || (n =? 39) || (n =? 40) || (n =? 41))%N.

(** Every other byte of the UTF-8 encoding becomes [%XX]. *)
Fixpoint percent_encode (s : string) : string :=
  match s with
  | EmptyString => EmptyString
  | String c rest =>
      if uri_unreserved c then String c (percent_encode rest)
      else
        let n := N_of_ascii c in
        String "%" (String (hex_digit (n / 16)) (String (hex_digit (n mod 16))
          (percent_encode rest)))
  end.

(** A JavaScript string is a sequence of UTF-16 code units, and a surrogate
    in it need not be part of a pair.  A string is held here as the bytes of
    its UTF-8 form, generalised to such strings: a surrogate without partner
    is the three bytes [ED A0..BF 80..BF], which well-formed UTF-8 never
    has, a pair being one code point of four bytes. *)
Fixpoint has_lone_surrogate (s : string) : bool :=
  match s with
  | EmptyString => false
  | String c rest =>
      match rest with
      | String d _ =>
          ((N_of_ascii c =? 237) && (160 <=? N_of_ascii d)
           && (N_of_ascii d <=? 191))%N
      | EmptyString => false
      end
      || has_lone_surrogate rest
  end.

(** [encodeURIComponent(s)]: a [URIError] for a string with a surrogate that
    has no partner, the percent-encoding of the UTF-8 form otherwise. *)
Definition encodeURIComponent (s : string) : exn + string :=
  if has_lone_surrogate s then inl (JsError "URI malformed")
  else inr (percent_encode s).

(** ** The relational store *)

(** A row of [users].  Columns that none of the embedded functions reads
    (the trial counters) are left out. *)
Record UserRow : Type := mkUserRow {
  u_id : N;
  u_uuid : string;
  u_name : string;
  u_email : option string;
  u_created_at : Z;
  u_updated_at : Z
}.

(** A row of [sessions]. *)
Record SessionRow : Type := mkSessionRow {
  s_id : N;
  s_user_id : N;
  s_session_token : string;
  s_expires_at : Z;
  s_created_at : Z
}.

(** A row of the join in [getSessionByToken]:
    [s.*, u.uuid, u.name as username, u.email]. *)
Record SessionUserRow : Type := mkSessionUserRow {
  su_session : SessionRow;
  su_uuid : string;
  su_username : string;
  su_email : option string
}.

Record Database : Type := mkDatabase {
  users : list UserRow;
  sessions : list SessionRow;
  users_seq : N;
  sessions_seq : N
}.

Global Instance UserRow_eq_dec : EqDecision UserRow.
Proof. solve_decision. Defined.
Global Instance SessionRow_eq_dec : EqDecision SessionRow.
Proof. solve_decision. Defined.

Definition set_users (us : list UserRow) (d : Database) : Database :=
  {| users := us; sessions := sessions d;
     users_seq := users_seq d; sessions_seq := sessions_seq d |}.

Definition set_sessions (ss : list SessionRow) (d : Database) : Database :=
  {| users := users d; sessions := ss;
     users_seq := users_seq d; sessions_seq := sessions_seq d |}.

Definition empty_db : Database :=
  {| users := []; sessions := []; users_seq := 1; sessions_seq := 1 |}.

(** Modelled from the spec: the table declarations are not part of the
    sources.  The data model gives: [users.uuid] is unique, a session token is
    unique, [sessions.user_id] is a foreign key to [users]; ids are taken from
    a per-table sequence. *)
Record db_ok (d : Database) : Prop := mk_db_ok {
  ok_uuid_unique : NoDup (u_uuid <$> users d);
  ok_user_id_unique : NoDup (u_id <$> users d);
  ok_user_id_seq : Forall (fun u => (u_id u < users_seq d)%N) (users d);
  ok_token_unique : NoDup (s_session_token <$> sessions d);
  ok_session_fk : Forall (fun s => s_user_id s ∈ u_id <$> users d) (sessions d)
}.

(** ** Requests, responses and the process state *)

(** [VercelRequest], as far as the endpoint reads it. *)
Record Req : Type := mkReq {
  method : option string;
  query : gmap string qval;
  cookies : gmap string string
}.

(** The [Set-Cookie] header a response carries. *)
Record SetCookie : Type := mkSetCookie {
  sc_name : string;
  sc_value : string;
  sc_http_only : bool;
  sc_max_age : Z
}.

(** [VercelResponse]: the response under construction.  [finished] is set by
    the calls that send it ([json], [redirect], [end]). *)
Record Res : Type := mkRes {
  statusCode : Z;
  headers : gmap string string;
  cookie : option SetCookie;
  body : option json;
  finished : bool
}.

Definition fresh_res : Res :=
  {| statusCode := 200; headers := ∅; cookie := None; body := None;
     finished := false |}.

(** The identity returned by the provider's user-info endpoint. *)
Record GoogleUser : Type := mkGoogleUser {
  g_id : string;
  g_name : string;
  g_email : option string
}.

Inductive outcome (A : Type) : Type :=
  | Returned (a : A)
  | Threw (e : exn).
Arguments Returned {A} a.
Arguments Threw {A} e.

(** Everything a request handler can read or change.
    - [DATABASE_URL]: [process.env.DATABASE_URL];
    - [db]: the contents of the store;
    - [clock]: the current instant, read by [CURRENT_TIMESTAMP] and
      [Date.now()];
    - [outages]: the fate of the coming statements sent to the store, one entry
      per statement: [Some m] makes the driver throw an [Error] with message
      [m] (network or server failure), [None] lets it run;
    - [google]: the provider's answer to a code exchange;
    - [rng], [draws]: the source of random session tokens;
    - [res]: the response object of the request being served. *)
Record World : Type := mkWorld {
  DATABASE_URL : option string;
  db : Database;
  clock : Z;
  outages : list (option string);
  google : string -> outcome GoogleUser;
  rng : nat -> string;
  draws : nat;
  res : Res
}.

Definition set_db (d : Database) (w : World) : World :=
  {| DATABASE_URL := DATABASE_URL w; db := d; clock := clock w;
     outages := outages w; google := google w; rng := rng w;
     draws := draws w; res := res w |}.

Definition set_clock (t : Z) (w : World) : World :=
  {| DATABASE_URL := DATABASE_URL w; db := db w; clock := t;
     outages := outages w; google := google w; rng := rng w;
     draws := draws w; res := res w |}.

Definition set_outages (o : list (option string)) (w : World) : World :=
  {| DATABASE_URL := DATABASE_URL w; db := db w; clock := clock w;
     outages := o; google := google w; rng := rng w;
     draws := draws w; res := res w |}.

Definition set_draws (n : nat) (w : World) : World :=
  {| DATABASE_URL := DATABASE_URL w; db := db w; clock := clock w;
     outages := outages w; google := google w; rng := rng w;
     draws := n; res := res w |}.

Definition set_res (r : Res) (w : World) : World :=
  {| DATABASE_URL := DATABASE_URL w; db := db w; clock := clock w;
     outages := outages w; google := google w; rng := rng w;
     draws := draws w; res := r |}.

(** ** The monad of handlers *)

Definition M (A : Type) : Type := World -> outcome A * World.

Definition ret {A} (a : A) : M A := fun w => (Returned a, w).

Definition throw {A} (e : exn) : M A := fun w => (Threw e, w).

(** A call of a function that changes nothing and may throw. *)
Definition eval {A} (r : exn + A) : M A :=
  match r with
  | inl e => throw e
  | inr a => ret a
  end.

Definition bind {A B} (c : M A) (k : A -> M B) : M B :=
  fun w =>
    match c w with
    | (Returned a, w') => k a w'
    | (Threw e, w') => (Threw e, w')
    end.

(** [try { c } catch (error) { h error }] *)
Definition try_catch {A} (c : M A) (h : exn -> M A) : M A :=
  fun w =>
    match c w with
    | (Returned a, w') => (Returned a, w')
    | (Threw e, w') => h e w'
    end.

Definition gets {A} (f : World -> A) : M A := fun w => (Returned (f w), w).

Definition modify (f : World -> World) : M unit := fun w => (Returned tt, f w).

Declare Scope js_scope.
Delimit Scope js_scope with js.
Notation "'let*' x := c 'in' k" := (bind c (fun x => k))
  (at level 10, x name, c at level 100, k at level 200) : js_scope.
Notation "c ;;; k" := (bind c (fun _ => k))
  (at level 100, k at level 200, right associativity) : js_scope.
Local Open Scope js_scope.

(** ** app/lib/db.ts *)

(** [export const sql = DATABASE_URL ? neon(DATABASE_URL) : null as any]:
    one statement sent to the store.  Without a connection string [sql] is
    [null] and the call is a [TypeError]; an outage makes the driver throw;
    otherwise the statement runs atomically at the current instant, and may
    itself be rejected (a violated constraint). *)
Definition sql {A} (stmt : Z -> Database -> exn + A * Database) : M A :=
  fun w =>
    if nonempty (DATABASE_URL w) then
      let w1 := set_outages (tail (outages w)) w in
      match outages w with
      | Some m :: _ => (Threw (JsError m), w1)
      | _ =>
          match stmt (clock w) (db w) with
          | inl e => (Threw e, w1)
          | inr (a, d) => (Returned a, set_db d w1)
          end
      end
    else (Threw (JsError "sql is not a function"), w).

Definition ensureDatabase : M unit :=
  fun w =>
    if nonempty (DATABASE_URL w) then (Returned tt, w)
    else (Threw (JsError
      "DATABASE_URL environment variable is not set. Please configure it in your Vercel environment variables."), w).

(** [SET name = .., email = .., updated_at = CURRENT_TIMESTAMP] *)
Definition conflict_update (username : string) (email : option string)
    (now : Z) (u : UserRow) : UserRow :=
  {| u_id := u_id u; u_uuid := u_uuid u; u_name := username;
     u_email := email; u_created_at := u_created_at u; u_updated_at := now |}.

(** The rows the [ON CONFLICT (uuid)] clause applies to. *)
Definition has_uuid (uuid : string) (u : UserRow) : Prop := u_uuid u = uuid.

Global Instance has_uuid_dec (uuid : string) (u : UserRow) :
  Decision (has_uuid uuid u).
Proof. unfold has_uuid. apply _. Defined.

Definition on_conflict (uuid username : string) (email : option string)
    (now : Z) (u : UserRow) : UserRow :=
  if bool_decide (has_uuid uuid u) then conflict_update username email now u
  else u.

(** [INSERT INTO users (uuid, name, email) VALUES (..)
     ON CONFLICT (uuid) DO UPDATE SET .. RETURNING *]: the statement together
    with the [result[0]] of its caller, the one row [RETURNING *] gives back. *)
Definition upsert_user (uuid username : string) (email : option string)
    (now : Z) (d : Database) : exn + UserRow * Database :=
  match find (fun u => bool_decide (has_uuid uuid u)) (users d) with
  | Some old =>
      inr (conflict_update username email now old,
           set_users (on_conflict uuid username email now <$> users d) d)
  | None =>
      let row := {| u_id := users_seq d; u_uuid := uuid; u_name := username;
                    u_email := email; u_created_at := now;
                    u_updated_at := now |} in
      inr (row,
           {| users := users d ++ [row]; sessions := sessions d;
              users_seq := users_seq d + 1; sessions_seq := sessions_seq d |})
  end.

Definition createUser (uuid username : string) (email : option string)
    : M UserRow :=
  ensureDatabase ;;;
  sql (upsert_user uuid username (or_null email)).

Definition getUserByUuid (uuid : string) : M (option UserRow) :=
  let* result :=
    sql (fun _ d =>
      inr (take 1 (filter (fun u => u_uuid u = uuid) (users d)), d)) in
  ret (head result).

Definition getUserById (id : N) : M (option UserRow) :=
  let* result :=
    sql (fun _ d =>
      inr (take 1 (filter (fun u => u_id u = id) (users d)), d)) in
  ret (head result).

(** [INSERT INTO sessions (user_id, session_token, expires_at)
     VALUES (..) RETURNING *] with the [result[0]] of its caller; the store
    rejects it when the user does not exist or the token is taken (the
    foreign key and the unique token of [db_ok]). *)
Definition insert_session (userId : N) (sessionToken : string) (expiresAt : Z)
    (now : Z) (d : Database) : exn + SessionRow * Database :=
  if negb (bool_decide (userId ∈ u_id <$> users d)) then
    inl (JsError "insert or update on table sessions violates foreign key constraint")
  else if bool_decide (sessionToken ∈ s_session_token <$> sessions d) then
    inl (JsError "duplicate key value violates unique constraint")
  else
    let row := {| s_id := sessions_seq d; s_user_id := userId;
                  s_session_token := sessionToken; s_expires_at := expiresAt;
                  s_created_at := now |} in
    inr (row,
         {| users := users d; sessions := sessions d ++ [row];
            users_seq := users_seq d; sessions_seq := sessions_seq d + 1 |}).

Definition createSession (userId : N) (sessionToken : string) (expiresAt : Z)
    : M SessionRow :=
  sql (insert_session userId sessionToken expiresAt).

Definition join_row (s : SessionRow) (u : UserRow) : SessionUserRow :=
  {| su_session := s; su_uuid := u_uuid u; su_username := u_name u;
     su_email := u_email u |}.

(** [SELECT s.*, u.uuid, u.name as username, u.email
     FROM sessions s JOIN users u ON s.user_id = u.id
     WHERE s.session_token = .. AND s.expires_at > CURRENT_TIMESTAMP LIMIT 1],
    evaluated as a nested loop. *)
Definition select_session (sessionToken : string) (now : Z) (d : Database)
    : list SessionUserRow :=
  take 1
    (s ← sessions d;
     u ← users d;
     if bool_decide (s_user_id s = u_id u)
        && bool_decide (s_session_token s = sessionToken)
        && bool_decide (now < s_expires_at s)
     then [join_row s u] else []).

(** [return result[0] || null] *)
Definition getSessionByToken (sessionToken : string)
    : M (option SessionUserRow) :=
  let* result := sql (fun now d => inr (select_session sessionToken now d, d)) in
  ret (head result).

(** [DELETE FROM sessions WHERE session_token = ..] *)
Definition deleteSession (sessionToken : string) : M unit :=
  sql (fun _ d =>
    inr (tt, set_sessions
               (filter (fun s => s_session_token s ≠ sessionToken) (sessions d))
               d)).

(** [DELETE FROM sessions WHERE expires_at < CURRENT_TIMESTAMP] *)
Definition cleanupExpiredSessions : M unit :=
  sql (fun now d =>
    inr (tt, set_sessions
               (filter (fun s => ¬ (s_expires_at s < now)) (sessions d)) d)).

(** ** The response API of the platform *)

(** Node rejects a header value with a character outside
    [\t\x20-\x7e\x80-\xff].  On the bytes of the UTF-8 form these are the
    control bytes, DEL, and the lead bytes of the code points above U+00FF,
    a surrogate among them. *)
Definition header_char_ok (c : ascii) : bool :=
  let n := N_of_ascii c in
  ((n =? 9) || (32 <=? n) && (n <=? 126) || (128 <=? n) && (n <=? 195))%N.

Fixpoint header_value_ok (s : string) : bool :=
  match s with
  | EmptyString => true
  | String c rest => header_char_ok c && header_value_ok rest
  end.

(** [ERR_INVALID_CHAR]: the message names the header between double quotes
    (the character 34) inside square brackets. *)
Definition invalid_header (name : string) : exn :=
  JsError ("Invalid character in header content ["
           +:+ String "034" (name +:+ String "034" "]")).

Definition with_header (name value : string) (r : Res) : Res :=
  {| statusCode := statusCode r; headers := <[name := value]> (headers r);
     cookie := cookie r; body := body r; finished := finished r |}.

(** [res.setHeader(name, value)] *)
Definition setHeader (name value : string) : M unit :=
  fun w =>
    if header_value_ok value
    then (Returned tt, set_res (with_header name value (res w)) w)
    else (Threw (invalid_header name), w).

Definition json_sent (code : Z) (value : json) (r : Res) : Res :=
  {| statusCode := code;
     headers := <["Content-Type" := "application/json; charset=utf-8"]> (headers r);
     cookie := cookie r; body := Some value; finished := true |}.

(** [res.status(code).json(value)] *)
Definition status_json (code : Z) (value : json) : M unit :=
  modify (fun w => set_res (json_sent code value (res w)) w).

Definition ended (code : Z) (r : Res) : Res :=
  {| statusCode := code; headers := headers r; cookie := cookie r;
     body := body r; finished := true |}.

(** [res.status(code).end()] *)
Definition status_end (code : Z) : M unit :=
  modify (fun w => set_res (ended code (res w)) w).

Definition redirected (code : Z) (url : string) (r : Res) : Res :=
  {| statusCode := code; headers := <["Location" := url]> (headers r);
     cookie := cookie r; body := body r; finished := true |}.

(** [res.redirect(code, url)]: [writeHead(code, { Location: url }).end()] *)
Definition redirect (code : Z) (url : string) : M unit :=
  fun w =>
    if header_value_ok url then (Returned tt, set_res (redirected code url (res w)) w)
    else (Threw (invalid_header "Location"), w).

(** ** The interface of app/lib/auth *)

(** The functions [api/auth.ts] imports from [../app/lib/auth].  The endpoint
    is embedded over any implementation of them.  The casts of the source
    ([req.query.next as string], [state as string]) do not change the value at
    run time, so the two state-token functions receive the query value as it
    is. *)
Class AuthLib : Type := mkAuthLib {
  getGoogleAuthUrl : string -> M string;
  generateStateToken : qval -> M string;
  getSessionToken : Req -> M (option string);
  destroySession : string -> M unit;
  clearSessionCookie : M unit;
  getAuthenticatedUser : Req -> M (option SessionUserRow);
  getGoogleUserInfo : string -> M GoogleUser;
  createUserSession : string -> string -> option string -> M string;
  setSessionCookie : string -> M unit;
  verifyStateToken : option qval -> M (option string)
}.

(** ** api/auth.ts *)

Section Endpoint.

Context {lib : AuthLib}.

Definition internal_error (error : exn) : json :=
  JObj [("error", JStr "Internal server error");
        ("message", JStr (errorMessage error))].

Definition method_not_allowed : json :=
  JObj [("error", JStr "Method not allowed")].

Definition handleSignIn (req : Req) : M unit :=
  try_catch
    (let next := if truthy (query req !! "next")
                 then default (QStr "/") (query req !! "next")
                 else QStr "/" in
     let* state := generateStateToken next in
     let* authUrl := getGoogleAuthUrl state in
     redirect 302 authUrl)
    (fun error => status_json 500 (internal_error error)).

Definition handleSignOut (req : Req) : M unit :=
  try_catch
    (let* sessionToken := getSessionToken req in
     match sessionToken with
     | Some token => if bool_decide (token = "") then ret tt
                     else destroySession token
     | None => ret tt
     end ;;;
     clearSessionCookie ;;;
     status_json 200
       (JObj [("success", JBool true);
              ("message", JStr "Signed out successfully")]))
    (fun error =>
       clearSessionCookie ;;;
       status_json 500 (internal_error error)).

Definition json_of_nullable (s : option string) : json :=
  match s with
  | Some s => JStr s
  | None => JNull
  end.

Definition handleStatus (req : Req) : M unit :=
  try_catch
    (let* url := gets DATABASE_URL in
     if negb (nonempty url) then
       status_json 200
         (JObj [("isAuthenticated", JBool false); ("user", JNull);
                ("error", JStr "Database not configured")])
     else
       let* user := getAuthenticatedUser req in
       match user with
       | None =>
           status_json 200
             (JObj [("isAuthenticated", JBool false); ("user", JNull)])
       | Some user =>
           status_json 200
             (JObj [("isAuthenticated", JBool true);
                    ("user", JObj [("uuid", JStr (su_uuid user));
                                   ("username", JStr (su_username user));
                                   ("email", json_of_nullable (su_email user))]);
                    ("trial", JObj [("used", JNum 0); ("remaining", JNum 999);
                                    ("max", JNum 999)]);
                    ("plan_type", JStr "unlimited")])
       end)
    (fun error =>
       status_json 200
         (JObj [("isAuthenticated", JBool false); ("user", JNull);
                ("error", JStr (errorMessage error))])).

(** [stateData?.redirectTo || '/upload'] *)
Definition redirect_target (stateData : option string) : string :=
  match stateData with
  | Some redirectTo => if bool_decide (redirectTo = "") then "/upload" else redirectTo
  | None => "/upload"
  end.

(** The [try] block of [handleCallback]. *)
Definition callback_body (req : Req) : M unit :=
  let code := query req !! "code" in
  let state := query req !! "state" in
  let oauthError := query req !! "error" in
  if truthy oauthError then
    let* reason :=
      eval (encodeURIComponent (String_of (default (QStr "") oauthError))) in
    redirect 302 ("/?error=" +:+ reason)
  else
    match code with
    | Some (QStr code) =>
        if bool_decide (code = "") then redirect 302 "/?error=missing_code"
        else
          let* googleUser := getGoogleUserInfo code in
          if negb (nonempty (g_email googleUser)) then
            redirect 302 "/?error=no_email"
          else
            let* sessionToken :=
              createUserSession (g_id googleUser) (g_name googleUser)
                (g_email googleUser) in
            setSessionCookie sessionToken ;;;
            let* stateData := verifyStateToken state in
            redirect 302 (redirect_target stateData)
    | _ => redirect 302 "/?error=missing_code"
    end.

Definition handleCallback (req : Req) : M unit :=
  try_catch (callback_body req)
    (fun error =>
       let* reason := eval (encodeURIComponent (errorMessage error)) in
       redirect 302 ("/?error=" +:+ reason)).

(** [(req.query.action as string) || 'status'] *)
Definition action_of (req : Req) : qval :=
  if truthy (query req !! "action")
  then default (QStr "status") (query req !! "action")
  else QStr "status".

Definition unknown_action (action : qval) : M (M unit) :=
  status_json 400
    (JObj [("error", JStr ("Unknown action: " +:+ String_of action))]) ;;;
  ret (ret tt).

(** One [case] of the [switch]: the method guard, then the action's handler. *)
Definition guarded (req : Req) (m : string) (h : Req -> M unit) : M (M unit) :=
  if bool_decide (method req = Some m) then ret (h req)
  else status_json 405 method_not_allowed ;;; ret (ret tt).

(** The [switch] of [handler].  Its value is what the selected branch
    returns: the promise of the action's handler, or nothing more to do once
    an error response has been sent.  A [case] label matches by [===], so an
    array never matches. *)
Definition route (req : Req) : M (M unit) :=
  let action := action_of req in
  match action with
  | QStr a =>
      if bool_decide (a = "signin") then guarded req "GET" handleSignIn
      else if bool_decide (a = "signout") then guarded req "POST" handleSignOut
      else if bool_decide (a = "status") then guarded req "GET" handleStatus
      else if bool_decide (a = "callback") then guarded req "GET" handleCallback
      else unknown_action action
  | QArr _ => unknown_action action
  end.

(** The default export.  The action handlers are returned without [await],
    so the [catch] of [handler] covers the routing only: a rejection of the
    returned promise is not caught here. *)
Definition handler (req : Req) : M unit :=
  setHeader "Access-Control-Allow-Credentials" "true" ;;;
  setHeader "Access-Control-Allow-Origin" "*" ;;;
  setHeader "Access-Control-Allow-Methods" "GET, POST, OPTIONS" ;;;
  setHeader "Access-Control-Allow-Headers" "Content-Type, Authorization" ;;;
  if bool_decide (method req = Some "OPTIONS") then status_end 200
  else
    let* promise :=
      try_catch (route req)
        (fun error =>
           status_json 500 (internal_error error) ;;; ret (ret tt)) in
    promise.

End Endpoint.

(** ** The state token *)

Module StateToken.

(** Modelled from the spec: the codec of the OAuth [state] parameter lives in
    [app/lib/auth], which is not part of the sources.  The spec fixes its
    shape only: the redirect path and an issuance timestamp are embedded into
    an encoded string, which is signed with a secret; the encoding and the
    signature scheme are left open, and are the parameters [encodePayload],
    [decodePayload] and [sign] here. *)
Record Kit : Type := mkKit {
  secret : string;
  sign : string -> string -> string;
  encodePayload : string -> Z -> string;
  decodePayload : string -> option (string * Z);
  maxAge : Z
}.

(** [split_on sep s]: the parts of [s] before and after the first [sep]. *)
Fixpoint split_on (sep : ascii) (s : string) : option (string * string) :=
  match s with
  | EmptyString => None
  | String c rest =>
      if bool_decide (c = sep) then Some (EmptyString, rest)
      else
        match split_on sep rest with
        | Some (a, b) => Some (String c a, b)
        | None => None
        end
  end.

Fixpoint occurs (c : ascii) (s : string) : bool :=
  match s with
  | EmptyString => false
  | String c' rest => bool_decide (c' = c) || occurs c rest
  end.

(** Modelled from the spec: generate(redirectPath) embeds the path and the
    issuance timestamp into a signed, encoded string: the encoded payload,
    a dot, and the signature of the encoded payload. *)
Definition generate (k : Kit) (redirectPath : string) (now : Z) : string :=
  let payload := encodePayload k redirectPath now in
  payload +:+ "." +:+ sign k (secret k) payload.

(** Modelled from the spec: verify(token) decodes and checks signature and
    freshness, and yields the redirect path only if all of it succeeds; a
    malformed token, a bad signature and an expired token all give null. *)
Definition verify (k : Kit) (token : string) (now : Z) : option string :=
  match split_on "." token with
  | None => None
  | Some (payload, tag) =>
      if bool_decide (tag = sign k (secret k) payload) then
        match decodePayload k payload with
        | Some (redirectTo, issuedAt) =>
            if bool_decide (now < issuedAt + maxAge k) then Some redirectTo
            else None
        | None => None
        end
      else None
  end.

(** What the spec asks of the encoding: decoding inverts it, and the token
    has one separator. *)
Record codec_ok (k : Kit) : Prop := mk_codec_ok {
  decode_encode : forall p t, decodePayload k (encodePayload k p t) = Some (p, t);
  encode_no_dot : forall p t, occurs "." (encodePayload k p t) = false;
  sign_no_dot : forall m, occurs "." (sign k (secret k) m) = false
}.

(** [t'] is [t] with one character changed. *)
Definition flipped (t t' : string) : Prop :=
  exists pre c c' post,
    t = pre +:+ String c post /\ t' = pre +:+ String c' post /\ c <> c'.

(** The signature tells a message from every message that differs from it in
    one character.  A signature of fixed length can do so, although it cannot
    tell all messages apart. *)
Definition detects_flips (k : Kit) : Prop :=
  forall m m', flipped m m' -> sign k (secret k) m <> sign k (secret k) m'.

(** *** A reference instance *)

Fixpoint hexs (s : string) : string :=
  match s with
  | EmptyString => EmptyString
  | String c rest =>
      let n := N_of_ascii c in
      String (hex_digit (n / 16)) (String (hex_digit (n mod 16)) (hexs rest))
  end.

Definition unhex_digit (c : ascii) : option N :=
  let n := N_of_ascii c in
  if ((48 <=? n) && (n <=? 57))%N then Some (n - 48)%N
  else if ((65 <=? n) && (n <=? 70))%N then Some (n - 55)%N
  else None.

Fixpoint unhexs (s : string) : option string :=
  match s with
  | EmptyString => Some EmptyString
  | String a (String b rest) =>
      match unhex_digit a, unhex_digit b, unhexs rest with
      | Some h, Some l, Some r => Some (String (ascii_of_N (16 * h + l)) r)
      | _, _, _ => None
      end
  | String _ EmptyString => None
  end.

Definition decimal (t : Z) : string := NilEmpty.string_of_int (Z.to_int t).

Definition undecimal (s : string) : option Z :=
  match NilEmpty.int_of_string s with
  | Some d => Some (Z.of_int d)
  | None => None
  end.

(** The sum of the bytes of a string. *)
Fixpoint checksum (s : string) : N :=
  match s with
  | EmptyString => 0%N
  | String c rest => (N_of_ascii c + checksum rest)%N
  end.

(** Hex of the path, a colon, hex of the decimal timestamp; the signature is
    two hex digits, the checksum of secret and payload modulo 256. *)
Definition reference_kit (secret : string) (maxAge : Z) : Kit :=
  {| secret := secret;
     sign := fun key m =>
       hexs (String (ascii_of_N (checksum (key +:+ m) mod 256)) EmptyString);
     encodePayload := fun p t => hexs p +:+ ":" +:+ hexs (decimal t);
     decodePayload := fun s =>
       match split_on ":" s with
       | Some (a, b) =>
           match unhexs a, unhexs b with
           | Some p, Some d =>
               match undecimal d with
               | Some t => Some (p, t)
               | None => None
               end
           | _, _ => None
           end
       | None => None
       end;
     maxAge := maxAge |}.

End StateToken.

(** ** app/lib/auth, from the spec *)

Record AuthConfig : Type := mkAuthConfig {
  cookieName : string;
  sessionTtl : Z;
  authEndpoint : string;
  stateKit : StateToken.Kit
}.

Section SpecLib.

Variable cfg : AuthConfig.

(** Modelled from the spec: the session token is read from the session
    cookie, if present. *)
Definition spec_getSessionToken (req : Req) : M (option string) :=
  ret (cookies req !! cookieName cfg).

(** Modelled from the spec: destroying a session server-side is
    [deleteSession] of the store. *)
Definition spec_destroySession (sessionToken : string) : M unit :=
  deleteSession sessionToken.

Definition with_cookie (c : SetCookie) (w : World) : World :=
  set_res {| statusCode := statusCode (res w); headers := headers (res w);
             cookie := Some c; body := body (res w);
             finished := finished (res w) |} w.

(** Modelled from the spec: one HTTP-only session cookie carries the opaque
    session token. *)
Definition spec_setSessionCookie (sessionToken : string) : M unit :=
  modify (with_cookie {| sc_name := cookieName cfg; sc_value := sessionToken;
                         sc_http_only := true; sc_max_age := sessionTtl cfg |}).

(** Modelled from the spec: the cookie is cleared by setting an expired,
    empty value. *)
Definition cleared_cookie : SetCookie :=
  {| sc_name := cookieName cfg; sc_value := ""; sc_http_only := true;
     sc_max_age := 0 |}.

Definition spec_clearSessionCookie : M unit :=
  modify (with_cookie cleared_cookie).

(** Modelled from the spec: look up the session from the cookie; absent
    cookie or absent session is not-authenticated. *)
Definition spec_getAuthenticatedUser (req : Req) : M (option SessionUserRow) :=
  let* sessionToken := spec_getSessionToken req in
  match sessionToken with
  | Some token => if bool_decide (token = "") then ret None
                  else getSessionByToken token
  | None => ret None
  end.

(** Modelled from the spec: the code exchange and the identity fetch are
    calls to the provider; their outcome is the provider's, and the store
    takes no part in them. *)
Definition spec_getGoogleUserInfo (code : string) : M GoogleUser :=
  fun w => (google w code, w).

(** A fresh random token. *)
Definition randomToken : M string :=
  fun w => (Returned (rng w (draws w)), set_draws (S (draws w)) w).

(** Modelled from the spec: upsert the user, then create a session with a
    fresh random token and the fixed TTL. *)
Definition spec_createUserSession (googleId name : string)
    (email : option string) : M string :=
  let* user := createUser googleId name email in
  let* sessionToken := randomToken in
  let* now := gets clock in
  createSession (u_id user) sessionToken (now + sessionTtl cfg) ;;;
  ret sessionToken.

(** Modelled from the spec: the authorization URL carries the opaque state
    value. *)
Definition spec_getGoogleAuthUrl (state : string) : M string :=
  let* encoded := eval (encodeURIComponent state) in
  ret (authEndpoint cfg +:+ "&state=" +:+ encoded).

Definition spec_generateStateToken (redirectTo : qval) : M string :=
  let* now := gets clock in
  ret (StateToken.generate (stateKit cfg) (String_of redirectTo) now).

(** A state that is not a string is malformed input. *)
Definition spec_verifyStateToken (state : option qval) : M (option string) :=
  match state with
  | Some (QStr token) =>
      let* now := gets clock in
      ret (StateToken.verify (stateKit cfg) token now)
  | _ => ret None
  end.

Definition spec_lib : AuthLib :=
  {| getGoogleAuthUrl := spec_getGoogleAuthUrl;
     generateStateToken := spec_generateStateToken;
     getSessionToken := spec_getSessionToken;
     destroySession := spec_destroySession;
     clearSessionCookie := spec_clearSessionCookie;
     getAuthenticatedUser := spec_getAuthenticatedUser;
     getGoogleUserInfo := spec_getGoogleUserInfo;
     createUserSession := spec_createUserSession;
     setSessionCookie := spec_setSessionCookie;
     verifyStateToken := spec_verifyStateToken |}.

End SpecLib.

(** ** Vocabulary of the statements *)

(** The next statement reaches the store: a connection string is configured
    and no outage is due. *)
Definition store_up (w : World) : bool :=
  nonempty (DATABASE_URL w)
  && match outages w with
     | Some _ :: _ => false
     | _ => true
     end.

(** The state once a statement has been sent. *)
Definition sent (w : World) : World := set_outages (tail (outages w)) w.

(** The response once [handler] has set its four CORS headers. *)
Definition cors (r : Res) : Res :=
  with_header "Access-Control-Allow-Headers" "Content-Type, Authorization"
    (with_header "Access-Control-Allow-Methods" "GET, POST, OPTIONS"
       (with_header "Access-Control-Allow-Origin" "*"
          (with_header "Access-Control-Allow-Credentials" "true" r))).

(** The method each [case] of the [switch] lets through; [None] for a value
    that has no [case]. *)
Definition required_method (action : string) : option string :=
  if bool_decide (action = "signin") then Some "GET"
  else if bool_decide (action = "signout") then Some "POST"
  else if bool_decide (action = "status") then Some "GET"
  else if bool_decide (action = "callback") then Some "GET"
  else None.

(** The response a request gets: [handler] run on a response object. *)
Definition response {lib : AuthLib} (req : Req) (w : World) : Res :=
  res (snd (handler req w)).

(** The body of a successful sign-out. *)
Definition signed_out : json :=
  JObj [("success", JBool true); ("message", JStr "Signed out successfully")].

(** The root error page carrying an encoded reason. *)
Definition error_page (reason : string) : string :=
  "/?error=" +:+ percent_encode reason.

(** The body of a not-authenticated status response, with or without an
    error hint. *)
Definition unauthenticated (hint : option string) : json :=
  JObj ([("isAuthenticated", JBool false); ("user", JNull)]
        ++ match hint with
           | Some m => [("error", JStr m)]
           | None => []
           end).

(** The request without its [error] parameter. *)
Definition without_error (req : Req) : Req :=
  {| method := method req; query := delete "error" (query req);
     cookies := cookies req |}.

(** A user row without its update timestamp. *)
Definition row_data (u : UserRow) : N * string * string * option string * Z :=
  (u_id u, u_uuid u, u_name u, u_email u, u_created_at u).

(** ** Sample configuration, requests and states *)

Definition demo_cfg : AuthConfig :=
  {| cookieName := "session";
     sessionTtl := 604800000;
     authEndpoint := "https://accounts.google.com/o/oauth2/v2/auth?response_type=code";
     stateKit := StateToken.reference_kit "s3cret" 600000 |}.

Definition demo_lib : AuthLib := spec_lib demo_cfg.

Definition decimal_nat (n : nat) : string :=
  NilEmpty.string_of_uint (Nat.to_uint n).

(** A provider that knows two codes: one of an identity with an email, one
    of an identity without. *)
Definition demo_google (code : string) : outcome GoogleUser :=
  if bool_decide (code = "good") then
    Returned {| g_id := "g-1"; g_name := "Ann"; g_email := Some "ann@example.org" |}
  else if bool_decide (code = "noemail") then
    Returned {| g_id := "g-2"; g_name := "Bob"; g_email := None |}
  else Threw (JsError "invalid_grant").

Definition demo_world : World :=
  {| DATABASE_URL := Some "postgres://db.example/app";
     db := {| users := [{| u_id := 1; u_uuid := "g-0"; u_name := "Zoe";
                           u_email := None; u_created_at := 5;
                           u_updated_at := 5 |}];
              sessions := []; users_seq := 2; sessions_seq := 1 |};
     clock := 1000;
     outages := [];
     google := demo_google;
     rng := fun n => "tok-" +:+ decimal_nat n;
     draws := 0;
     res := fresh_res |}.

Definition demo_req (m : string) (q : list (string * qval))
    (c : list (string * string)) : Req :=
  {| method := Some m; query := list_to_map q; cookies := list_to_map c |}.

(** The session [createSession] makes for the user of [demo_world], and the
    state it leaves. *)
Definition demo_session : SessionRow :=
  {| s_id := 1; s_user_id := 1; s_session_token := "tok-0";
     s_expires_at := 2000; s_created_at := 1000 |}.

Definition demo_session_world : World :=
  snd (createSession 1 "tok-0" 2000 demo_world).

(** The store fails on the next statement. *)
Definition demo_outage_world : World :=
  set_outages [Some "Connection terminated unexpectedly"] demo_world.

Definition demo_state : string :=
  StateToken.generate (stateKit demo_cfg) "/upload" 1000.

(** The code unit U+D800 on its own. *)
Definition lone_surrogate : string :=
  String "237" (String "160" (String "128" EmptyString)).

(** The exchange fails with an error whose message holds a surrogate without
    partner. *)
Definition demo_surrogate_world : World :=
  {| DATABASE_URL := DATABASE_URL demo_world; db := db demo_world;
     clock := clock demo_world; outages := outages demo_world;
     google := fun _ => Threw (JsError ("invalid_grant: " +:+ lone_surrogate));
     rng := rng demo_world; draws := draws demo_world; res := res demo_world |}.

(** ** Vocabulary of the further statements *)

(** What [getSessionByToken] looks for, as two point lookups: the session of
    the token, then the user who owns it. *)
Definition lookup_session (sessionToken : string) (now : Z) (d : Database)
    : option SessionUserRow :=
  match find (fun s => bool_decide (s_session_token s = sessionToken)) (sessions d) with
  | Some s =>
      if bool_decide (now < s_expires_at s) then
        join_row s <$> find (fun u => bool_decide (u_id u = s_user_id s)) (users d)
      else None
  | None => None
  end.

(** [(req.query.next as string) || '/'] *)
Definition next_path (req : Req) : qval :=
  if truthy (query req !! "next")
  then default (QStr "/") (query req !! "next")
  else QStr "/".

(** ** The other tables of app/lib/db.ts *)

(** A row of [kv_store], with the columns the functions read or compare.  The
    owner is the string the caller passed, or NULL. *)
Record KvRow : Type := mkKvRow {
  kv_key : string;
  kv_value : string;
  kv_user_id : option string
}.

(** A row of [resumes], with the columns the statements of db.ts name.  The
    declaration of the table is not part of the sources; the model takes what
    the statements need and nothing more: [id] and [created_at] are filled in
    by the table, since [createResume] gives neither, the other columns that
    [createResume] may leave out can be NULL, and no constraint ties a resume
    to a row of [users].  [r_analysis_data] holds what
    [JSON.stringify(analysisData)] serialises, kept as the value itself. *)
Record ResumeRow : Type := mkResumeRow {
  r_id : N;
  r_user_id : string;
  r_file_name : string;
  r_file_path : string;
  r_file_size : option Z;
  r_mime_type : option string;
  r_gcs_url : option string;
  r_analysis_data : option json;
  r_ats_score : option Z;
  r_created_at : Z
}.

(** The tables beside [users] and [sessions], and the two trial counters of
    a [users] row, by the id of the row: integer columns that can be NULL. *)
Record Tables : Type := mkTables {
  kv_store : list KvRow;
  resumes : list ResumeRow;
  resumes_seq : N;
  trial_uses : N -> option Z;
  max_trial_uses : N -> option Z
}.

Definition set_kv_store (k : list KvRow) (t : Tables) : Tables :=
  {| kv_store := k; resumes := resumes t; resumes_seq := resumes_seq t;
     trial_uses := trial_uses t; max_trial_uses := max_trial_uses t |}.

Definition set_resumes (r : list ResumeRow) (t : Tables) : Tables :=
  {| kv_store := kv_store t; resumes := r; resumes_seq := resumes_seq t;
     trial_uses := trial_uses t; max_trial_uses := max_trial_uses t |}.

(** The whole store behind [sql]: the process state of the handlers and the
    further tables. *)
Record Store : Type := mkStore {
  world : World;
  tables : Tables
}.

Definition MS (A : Type) : Type := Store -> outcome A * Store.

Definition retS {A} (a : A) : MS A := fun s => (Returned a, s).

Definition bindS {A B} (c : MS A) (k : A -> MS B) : MS B :=
  fun s =>
    match c s with
    | (Returned a, s') => k a s'
    | (Threw e, s') => (Threw e, s')
    end.

Definition try_catchS {A} (c : MS A) (h : exn -> MS A) : MS A :=
  fun s =>
    match c s with
    | (Returned a, s') => (Returned a, s')
    | (Threw e, s') => h e s'
    end.

Notation "'let+' x := c 'in' k" := (bindS c (fun x => k))
  (at level 10, x name, c at level 100, k at level 200) : js_scope.
Notation "c ;;+ k" := (bindS c (fun _ => k))
  (at level 100, k at level 200, right associativity) : js_scope.

(** The functions on users and sessions, run on the whole store. *)
Definition onWorld {A} (c : M A) : MS A :=
  fun s =>
    let (o, w) := c (world s) in (o, {| world := w; tables := tables s |}).

(** One statement sent through a connection, over all the tables: an outage
    makes the driver throw, otherwise the statement runs atomically. *)
Definition run_statement {A}
    (stmt : Z -> Database * Tables -> exn + A * (Database * Tables)) : MS A :=
  fun s =>
    let w := world s in
    let w1 := set_outages (tail (outages w)) w in
    match outages w with
    | Some m :: _ => (Threw (JsError m), {| world := w1; tables := tables s |})
    | _ =>
        match stmt (clock w) (db w, tables s) with
        | inl e => (Threw e, {| world := w1; tables := tables s |})
        | inr (a, (d, t)) => (Returned a, {| world := set_db d w1; tables := t |})
        end
    end.

(** [sql] on all the tables: [null] without a connection string. *)
Definition sqlS {A}
    (stmt : Z -> Database * Tables -> exn + A * (Database * Tables)) : MS A :=
  fun s =>
    if nonempty (DATABASE_URL (world s)) then run_statement stmt s
    else (Threw (JsError "sql is not a function"), s).

(** [const freshSql = neon(DATABASE_URL!)]: the driver refuses a missing or
    empty connection string. *)
Definition neon : MS unit :=
  fun s =>
    if nonempty (DATABASE_URL (world s)) then (Returned tt, s)
    else (Threw (JsError "No database connection string was provided to neon()"), s).

(** *** Trial tracking *)

Record TrialUsage : Type := mkTrialUsage {
  tu_used : Z;
  tu_remaining : Z;
  tu_max : Z
}.

Record TrialStep : Type := mkTrialStep {
  ts_success : bool;
  ts_used : Z;
  ts_remaining : Z;
  ts_max : Z
}.

(** [parseInt(v) || d] on an integer column: NULL parses to [NaN], and [NaN]
    and 0 are falsy. *)
Definition parseInt_or (v : option Z) (d : Z) : Z :=
  match v with
  | Some n => if bool_decide (n = 0) then d else n
  | None => d
  end.

(** [SELECT id, trial_uses, max_trial_uses FROM users WHERE id = .. LIMIT 1] *)
Definition select_trial (userId : N) (now : Z) (dt : Database * Tables)
    : exn + list (N * option Z * option Z) * (Database * Tables) :=
  inr (take 1 ((fun u => (u_id u, trial_uses (snd dt) (u_id u),
                          max_trial_uses (snd dt) (u_id u)))
               <$> filter (fun u => u_id u = userId) (users (fst dt))),
       dt).

Definition trial_defaults : TrialUsage :=
  {| tu_used := 0; tu_remaining := 3; tu_max := 3 |}.

(** What [getTrialUsage] makes of the two counters of a row. *)
Definition usage_of_row (row_trial_uses row_max_trial_uses : option Z)
    : TrialUsage :=
  let used := parseInt_or row_trial_uses 0 in
  let max := parseInt_or row_max_trial_uses 3 in
  {| tu_used := used; tu_remaining := Z.max 0 (max - used); tu_max := max |}.

Definition getTrialUsage (userId : N) : MS TrialUsage :=
  try_catchS
    (neon ;;+
     let+ result := run_statement (select_trial userId) in
     match result with
     | [] => retS trial_defaults
     | (_, row_trial_uses, row_max_trial_uses) :: _ =>
         retS (usage_of_row row_trial_uses row_max_trial_uses)
     end)
    (fun error => retS trial_defaults).

Section TrialColumn.

(** The declaration of [users] is not part of the sources: the largest value
    its column [trial_uses] holds is a parameter (2147483647 for an INTEGER
    column).  The store rejects a statement that would write a greater one. *)
Variable trial_uses_max : Z.

(** [UPDATE users SET trial_uses = .., updated_at = CURRENT_TIMESTAMP
     WHERE id = ..] *)
Definition update_trial (userId : N) (newTrialUses : Z) (now : Z)
    (dt : Database * Tables) : exn + unit * (Database * Tables) :=
  let (d, t) := dt in
  if bool_decide (trial_uses_max < newTrialUses) then
    inl (JsError "integer out of range")
  else if bool_decide (userId ∈ u_id <$> users d) then
    inr (tt,
         (set_users
            ((fun u => if bool_decide (u_id u = userId)
                       then {| u_id := u_id u; u_uuid := u_uuid u;
                               u_name := u_name u; u_email := u_email u;
                               u_created_at := u_created_at u;
                               u_updated_at := now |}
                       else u) <$> users d) d,
          {| kv_store := kv_store t; resumes := resumes t;
             resumes_seq := resumes_seq t;
             trial_uses := fun i => if bool_decide (i = userId)
                                    then Some newTrialUses else trial_uses t i;
             max_trial_uses := max_trial_uses t |}))
  else inr (tt, dt).

Definition trial_failure : TrialStep :=
  {| ts_success := false; ts_used := 0; ts_remaining := 0; ts_max := 3 |}.

Definition incrementTrialUsage (userId : N) : MS TrialStep :=
  try_catchS
    (neon ;;+
     let+ current := run_statement (select_trial userId) in
     match current with
     | [] => retS trial_failure
     | (_, row_trial_uses, row_max_trial_uses) :: _ =>
         let currentTrialUses := parseInt_or row_trial_uses 0 in
         let newTrialUses := currentTrialUses + 1 in
         let max := parseInt_or row_max_trial_uses 3 in
         run_statement (update_trial userId newTrialUses) ;;+
         retS {| ts_success := true; ts_used := newTrialUses;
                 ts_remaining := Z.max 0 (max - newTrialUses); ts_max := max |}
     end)
    (fun error => retS trial_failure).

End TrialColumn.

Definition canUseFreeTrial (userId : N) : MS bool :=
  let+ usage := getTrialUsage userId in
  retS (bool_decide (0 < tu_remaining usage)).

(** *** The key-value store *)

(** [user_id = ${userId}] when a user id is given, [user_id IS NULL]
    otherwise; an empty string counts as not given. *)
Definition owned_by (userId : option string) (r : KvRow) : Prop :=
  if nonempty userId then kv_user_id r = userId else kv_user_id r = None.

Global Instance owned_by_dec (userId : option string) (r : KvRow) :
  Decision (owned_by userId r).
Proof. unfold owned_by. destruct (nonempty userId); apply _. Defined.

Definition kvGet (key : string) (userId : option string) : MS (option string) :=
  let+ result :=
    sqlS (fun _ dt =>
      inr (take 1 (kv_value <$>
                   filter (fun r => kv_key r = key /\ owned_by userId r)
                     (kv_store (snd dt))), dt)) in
  retS (or_null (head result)).

(** [INSERT INTO kv_store (key, value, user_id) VALUES (..)
     ON CONFLICT (key) DO UPDATE SET value = .., updated_at = ..] *)
Definition upsert_kv (key value : string) (userId : option string)
    (t : Tables) : Tables :=
  match find (fun r => bool_decide (kv_key r = key)) (kv_store t) with
  | Some _ =>
      set_kv_store
        ((fun r => if bool_decide (kv_key r = key)
                   then {| kv_key := kv_key r; kv_value := value;
                           kv_user_id := kv_user_id r |}
                   else r) <$> kv_store t) t
  | None =>
      set_kv_store
        (kv_store t ++ [{| kv_key := key; kv_value := value;
                           kv_user_id := or_null userId |}]) t
  end.

Definition kvSet (key value : string) (userId : option string) : MS bool :=
  sqlS (fun _ dt => inr (tt, (fst dt, upsert_kv key value userId (snd dt)))) ;;+
  retS true.

Definition kvDelete (key : string) (userId : option string) : MS bool :=
  sqlS (fun _ dt =>
    inr (tt, (fst dt,
              set_kv_store
                (filter (fun r => ¬ (kv_key r = key /\ owned_by userId r))
                   (kv_store (snd dt))) (snd dt)))) ;;+
  retS true.

Definition kvFlush (userId : option string) : MS bool :=
  sqlS (fun _ dt =>
    inr (tt, (fst dt,
              set_kv_store
                (filter (fun r => ¬ owned_by userId r) (kv_store (snd dt)))
                (snd dt)))) ;;+
  retS true.

(** [ON CONFLICT (key)] needs [key] to be unique in [kv_store]. *)
Definition kv_ok (t : Tables) : Prop := NoDup (kv_key <$> kv_store t).

(** ** Vocabulary of the statements on the whole store *)

(** The whole store once a statement has been sent. *)
Definition sentS (s : Store) : Store :=
  {| world := sent (world s); tables := tables s |}.

(** A store with one user, whose counters say two uses out of three. *)
Definition demo_store : Store :=
  {| world := demo_world;
     tables := {| kv_store := [{| kv_key := "theme"; kv_value := "dark";
                                  kv_user_id := Some "u-1" |}];
                  resumes := []; resumes_seq := 1;
                  trial_uses := fun _ => Some 2;
                  max_trial_uses := fun _ => Some 3 |} |}.

(** *** Resumes *)

(** The argument of [createResume]. *)
Record ResumeData : Type := mkResumeData {
  userId : string;
  fileName : string;
  filePath : string;
  fileSize : option Z;
  mimeType : option string;
  gcsUrl : option string
}.

(** [n || null] on an optional number: [undefined] and 0 are falsy. *)
Definition num_or_null (n : option Z) : option Z :=
  match n with
  | Some n => if bool_decide (n = 0) then None else Some n
  | None => None
  end.

(** [INSERT INTO resumes (user_id, file_name, file_path, file_size,
     mime_type, gcs_url) VALUES (..) RETURNING *] with the [result[0]] of its
    caller.  The columns the statement does not name take their defaults:
    the next id, NULL, and the instant of the insertion. *)
Definition insert_resume (data : ResumeData) (now : Z) (dt : Database * Tables)
    : exn + ResumeRow * (Database * Tables) :=
  let t := snd dt in
  let row := {| r_id := resumes_seq t; r_user_id := userId data;
                r_file_name := fileName data; r_file_path := filePath data;
                r_file_size := num_or_null (fileSize data);
                r_mime_type := or_null (mimeType data);
                r_gcs_url := or_null (gcsUrl data);
                r_analysis_data := None; r_ats_score := None;
                r_created_at := now |} in
  inr (row,
       (fst dt,
        {| kv_store := kv_store t; resumes := resumes t ++ [row];
           resumes_seq := resumes_seq t + 1; trial_uses := trial_uses t;
           max_trial_uses := max_trial_uses t |})).

Definition createResume (data : ResumeData) : MS ResumeRow :=
  sqlS (insert_resume data).

Definition getResumeById (id : N) : MS (option ResumeRow) :=
  let+ result :=
    sqlS (fun _ dt =>
      inr (take 1 (filter (fun r => r_id r = id) (resumes (snd dt))), dt)) in
  retS (head result).

(** [ORDER BY created_at DESC]: [a] may come before [b]. *)
Definition newer_first (a b : ResumeRow) : Prop := r_created_at b <= r_created_at a.

Global Instance newer_first_dec (a b : ResumeRow) : Decision (newer_first a b).
Proof. unfold newer_first. apply _. Defined.

(** [SELECT * FROM resumes WHERE user_id = .. ORDER BY created_at DESC
     LIMIT ..]; the store refuses a negative limit.  Rows of one instant come
    in the order the sort leaves them. *)
Definition select_resumes (owner : string) (limit : Z) (now : Z)
    (dt : Database * Tables) : exn + list ResumeRow * (Database * Tables) :=
  if bool_decide (limit < 0) then inl (JsError "LIMIT must not be negative")
  else
    inr (take (Z.to_nat limit)
           (merge_sort newer_first
              (filter (fun r => r_user_id r = owner) (resumes (snd dt)))), dt).

(** [getResumesByUserId(userId, limit = 50)] *)
Definition getResumesByUserId (owner : string) (limit : option Z)
    : MS (list ResumeRow) :=
  sqlS (select_resumes owner (default 50 limit)).

Definition analysed (analysisData : json) (atsScore : option Z) (r : ResumeRow)
    : ResumeRow :=
  {| r_id := r_id r; r_user_id := r_user_id r; r_file_name := r_file_name r;
     r_file_path := r_file_path r; r_file_size := r_file_size r;
     r_mime_type := r_mime_type r; r_gcs_url := r_gcs_url r;
     r_analysis_data := Some analysisData;
     r_ats_score := num_or_null atsScore; r_created_at := r_created_at r |}.

(** [UPDATE resumes SET analysis_data = .., ats_score = .. WHERE id = ..
     RETURNING *] *)
Definition update_resume (id : N) (analysisData : json) (atsScore : option Z)
    (now : Z) (dt : Database * Tables)
    : exn + list ResumeRow * (Database * Tables) :=
  let t := snd dt in
  inr (analysed analysisData atsScore <$> filter (fun r => r_id r = id) (resumes t),
       (fst dt,
        set_resumes
          ((fun r => if bool_decide (r_id r = id)
                     then analysed analysisData atsScore r else r)
             <$> resumes t) t)).

(** [return result[0]]: [undefined] when no row has the id. *)
Definition updateResumeAnalysis (id : N) (analysisData : json)
    (atsScore : option Z) : MS (option ResumeRow) :=
  let+ result := sqlS (update_resume id analysisData atsScore) in
  retS (head result).

Definition deleteResume (id : N) : MS unit :=
  sqlS (fun _ dt =>
    inr (tt, (fst dt,
              set_resumes (filter (fun r => r_id r ≠ id) (resumes (snd dt)))
                (snd dt)))).

(** Ids of resumes come from the sequence of the table. *)
Definition resumes_ok (t : Tables) : Prop :=
  NoDup (r_id <$> resumes t) /\
  Forall (fun r => (r_id r < resumes_seq t)%N) (resumes t).

(** [await sql`SELECT 1`]: [true], or the error of the store, thrown again. *)
Definition initializeDatabase : MS bool :=
  try_catchS
    (sqlS (fun (_ : Z) dt => inr (tt, dt)) ;;+ retS true)
    (fun error => fun s => (Threw error, s)).

(** ** The monad: running a statement *)

Lemma sql_up {A} (stmt : Z -> Database -> exn + A * Database) (w : World) :
  store_up w = true ->
  sql stmt w =
    match stmt (clock w) (db w) with
    | inl e => (Threw e, sent w)
    | inr (a, d) => (Returned a, set_db d (sent w))
    end.
Proof.
  unfold store_up, sql, sent. intros [Hurl Hout]%andb_true_iff.
  rewrite Hurl. destruct (outages w) as [|[m|] rest]; try discriminate; reflexivity.
Qed.

Lemma sql_returned {A} (stmt : Z -> Database -> exn + A * Database)
    (w w' : World) (a : A) :
  sql stmt w = (Returned a, w') ->
  nonempty (DATABASE_URL w) = true /\
  stmt (clock w) (db w) = inr (a, db w') /\
  w' = set_db (db w') (sent w).
Proof.
  unfold sql, sent. destruct (nonempty (DATABASE_URL w)); [|discriminate].
  destruct (outages w) as [|[m|] rest]; try discriminate;
    destruct (stmt (clock w) (db w)) as [e|[a' d]]; try discriminate;
    intros [= <- <-]; auto.
Qed.

Lemma set_db_same (w : World) : set_db (db w) w = w.
Proof. destruct w; reflexivity. Qed.

(** ** Sessions *)

Lemma createSession_returned (userId : N) (tok : string) (expiresAt : Z)
    (w w1 : World) (row : SessionRow) :
  createSession userId tok expiresAt w = (Returned row, w1) ->
  nonempty (DATABASE_URL w1) = true /\
  userId ∈ u_id <$> users (db w) /\
  (tok ∉ s_session_token <$> sessions (db w)) /\
  row = {| s_id := sessions_seq (db w); s_user_id := userId;
           s_session_token := tok; s_expires_at := expiresAt;
           s_created_at := clock w |} /\
  users (db w1) = users (db w) /\
  sessions (db w1) = sessions (db w) ++ [row] /\
  users_seq (db w1) = users_seq (db w).
Proof.
  unfold createSession. intros (Hurl & Hstmt & Hw')%sql_returned.
  unfold insert_session in Hstmt.
  destruct (bool_decide (userId ∈ _)) eqn:Hfk; simpl in Hstmt; [|discriminate].
  destruct (bool_decide (tok ∈ _)) eqn:Htok; simpl in Hstmt; [discriminate|].
  apply bool_decide_eq_true in Hfk. apply bool_decide_eq_false in Htok.
  injection Hstmt as <- Hdb.
  rewrite <- Hdb, Hw'. simpl. repeat split; assumption || reflexivity.
Qed.

(** The constraints of the store hold at the start and are kept by the
    session statements. *)
Lemma empty_db_ok : db_ok empty_db.
Proof.
  constructor; simpl;
    [apply NoDup_nil_2 | apply NoDup_nil_2 | apply Forall_nil_2
    | apply NoDup_nil_2 | apply Forall_nil_2].
Qed.

Lemma createSession_ok (userId : N) (tok : string) (expiresAt : Z)
    (w w1 : World) (row : SessionRow) :
  db_ok (db w) ->
  createSession userId tok expiresAt w = (Returned row, w1) ->
  db_ok (db w1).
Proof.
  intros [Huu Hid Hseq Htok Hfk]
    (Hurl & Hin & Hfresh & Hrow & Hus & Hss & Hsq)%createSession_returned.
  constructor; rewrite ?Hus, ?Hss, ?Hsq; try assumption.
  - rewrite fmap_app. apply NoDup_app. split; [exact Htok|].
    split; [|apply NoDup_singleton].
    intros x Hx Hx'%list_elem_of_singleton. subst x row. exact (Hfresh Hx).
  - apply Forall_app. split; [exact Hfk|].
    apply Forall_singleton. rewrite Hrow. exact Hin.
Qed.

Lemma deleteSession_ok (tok : string) (w w1 : World) :
  db_ok (db w) -> deleteSession tok w = (Returned tt, w1) -> db_ok (db w1).
Proof.
  intros [Huu Hid Hseq Htok Hfk] (_ & Hstmt & _)%sql_returned.
  injection Hstmt as <-. constructor; simpl; try assumption.
  - apply (sublist_NoDup _ (s_session_token <$> sessions (db w)));
      [exact Htok|].
    apply fmap_sublist, sublist_filter.

  - apply Forall_forall. intros s [_ Hs]%list_elem_of_filter.
    rewrite Forall_forall in Hfk. exact (Hfk s Hs).
Qed.

Lemma join_unmatched (tok : string) (now : Z) (us : list UserRow)
    (ss : list SessionRow) :
  tok ∉ s_session_token <$> ss ->
  (s ← ss; u ← us;
   if bool_decide (s_user_id s = u_id u)
      && bool_decide (s_session_token s = tok)
      && bool_decide (now < s_expires_at s)
   then [join_row s u] else []) = [].
Proof.
  induction ss as [|s ss IH]; [reflexivity|].
  rewrite fmap_cons, not_elem_of_cons. intros [Hs Hss].
  rewrite bind_cons, (IH Hss), app_nil_r. clear IH Hss.
  assert (Hs' : s_session_token s ≠ tok) by congruence.
  induction us as [|u us IHu]; [reflexivity|].
  rewrite bind_cons, IHu, (bool_decide_eq_false_2 _ Hs'), andb_false_r.
  reflexivity.
Qed.

Lemma join_owner {B} (userId : N) (g : UserRow -> B) (us : list UserRow) :
  userId ∈ u_id <$> us ->
  exists owner, owner ∈ us /\ u_id owner = userId /\
    forall b : bool,
      take 1 (u ← us; if bool_decide (userId = u_id u) && b then [g u] else [])
      = if b then [g owner] else [].
Proof.
  induction us as [|u us IH]; [intros H; inversion H|].
  rewrite fmap_cons, elem_of_cons.
  destruct (decide (userId = u_id u)) as [Heq|Hne].
  - intros _. exists u. split; [left|split; [auto|]].
    intros [|]; rewrite bind_cons, (bool_decide_eq_true_2 _ Heq); simpl; [reflexivity|].
    clear. induction us as [|u' us IH]; [reflexivity|].
    rewrite bind_cons, andb_false_r. exact IH.
  - intros [H|H]; [contradiction|].
    destruct (IH H) as (owner & Hin & Hid & Hsel).
    exists owner. split; [right; exact Hin|split; [exact Hid|]].
    intros b. rewrite bind_cons, (bool_decide_eq_false_2 _ Hne). exact (Hsel b).
Qed.

Lemma db_sent (w : World) : db (sent w) = db w.
Proof. reflexivity. Qed.

Lemma getSessionByToken_up (tok : string) (w : World) :
  store_up w = true ->
  getSessionByToken tok w =
    (Returned (head (select_session tok (clock w) (db w))), sent w).
Proof.
  intros Hup. unfold getSessionByToken, bind. rewrite (sql_up _ _ Hup).
  rewrite <- (db_sent w) at 2. rewrite set_db_same. reflexivity.
Qed.

(** ** Users *)

Section Upsert.

Variables (ext username : string) (email : option string) (now : Z).

Local Abbreviation same_uuid := (has_uuid ext).
Local Abbreviation refresh := (on_conflict ext username email now).

Lemma find_uuid_filter (l : list UserRow) :
  find (fun u => bool_decide (same_uuid u)) l = head (filter same_uuid l).
Proof.
  induction l as [|u l IH]; [reflexivity|].
  simpl. rewrite filter_cons.
  destruct (decide (same_uuid u)) as [H|H].
  - rewrite (bool_decide_eq_true_2 _ H). reflexivity.
  - rewrite (bool_decide_eq_false_2 _ H). exact IH.
Qed.

Lemma filter_uuid_absent (l : list UserRow) :
  ext ∉ u_uuid <$> l -> filter same_uuid l = [].
Proof.
  induction l as [|u l IH]; [reflexivity|].
  rewrite fmap_cons, not_elem_of_cons. intros [Hu Hl].
  rewrite filter_cons, decide_False by (unfold has_uuid; congruence). auto.
Qed.

Lemma filter_uuid_unique (l : list UserRow) :
  NoDup (u_uuid <$> l) ->
  filter same_uuid l = [] \/ exists old, filter same_uuid l = [old].
Proof.
  induction l as [|u l IH]; [left; reflexivity|].
  rewrite fmap_cons, NoDup_cons. intros [Hu Hl].
  rewrite filter_cons. destruct (decide (same_uuid u)) as [H|H].
  - right. exists u. unfold has_uuid in H. rewrite H in Hu.
    rewrite (filter_uuid_absent _ Hu). reflexivity.
  - exact (IH Hl).
Qed.

Lemma refresh_uuid (l : list UserRow) : u_uuid <$> (refresh <$> l) = u_uuid <$> l.
Proof.
  rewrite <- list_fmap_compose. apply list_fmap_ext. intros i u _.
  unfold on_conflict. simpl. destruct (bool_decide _); reflexivity.
Qed.

Lemma refresh_id (l : list UserRow) : u_id <$> (refresh <$> l) = u_id <$> l.
Proof.
  rewrite <- list_fmap_compose. apply list_fmap_ext. intros i u _.
  unfold on_conflict. simpl. destruct (bool_decide _); reflexivity.
Qed.

Lemma refresh_same (u : UserRow) :
  same_uuid u -> refresh u = conflict_update username email now u.
Proof.
  intros H. unfold on_conflict. rewrite (bool_decide_eq_true_2 _ H). reflexivity.
Qed.

Lemma refresh_other (u : UserRow) : ¬ same_uuid u -> refresh u = u.
Proof.
  intros H. unfold on_conflict. rewrite (bool_decide_eq_false_2 _ H). reflexivity.
Qed.

Lemma filter_refresh (l : list UserRow) :
  filter same_uuid (refresh <$> l)
  = conflict_update username email now <$> filter same_uuid l.
Proof.
  induction l as [|u l IH]; [reflexivity|].
  rewrite fmap_cons, !filter_cons.
  destruct (decide (same_uuid u)) as [H|H].
  - rewrite (refresh_same _ H), !decide_True by exact H.
    rewrite fmap_cons, IH. reflexivity.
  - rewrite (refresh_other _ H), !decide_False by exact H. exact IH.
Qed.

Lemma filter_others_refresh (l : list UserRow) :
  filter (fun u => ¬ same_uuid u) (refresh <$> l)
  = filter (fun u => ¬ same_uuid u) l.
Proof.
  induction l as [|u l IH]; [reflexivity|].
  rewrite fmap_cons, !filter_cons.
  destruct (decide (same_uuid u)) as [H|H].
  - rewrite (refresh_same _ H), !decide_False by (intros Hn; exact (Hn H)).
    exact IH.
  - rewrite (refresh_other _ H), !decide_True by exact H. rewrite IH. reflexivity.
Qed.

(** The statement on a row that is already there: the row is updated in
    place. *)
Lemma upsert_user_conflict (d : Database) (old : UserRow) :
  filter same_uuid (users d) = [old] ->
  upsert_user ext username email now d
  = inr (conflict_update username email now old,
         set_users (refresh <$> users d) d).
Proof.
  intros Hf. unfold upsert_user. rewrite find_uuid_filter, Hf. reflexivity.
Qed.

(** The statement on a new external id: a row is appended. *)
Lemma upsert_user_insert (d : Database) :
  filter same_uuid (users d) = [] ->
  upsert_user ext username email now d
  = let row := {| u_id := users_seq d; u_uuid := ext; u_name := username;
                  u_email := email; u_created_at := now; u_updated_at := now |} in
    inr (row,
         {| users := users d ++ [row]; sessions := sessions d;
            users_seq := users_seq d + 1; sessions_seq := sessions_seq d |}).
Proof.
  intros Hf. unfold upsert_user. rewrite find_uuid_filter, Hf. reflexivity.
Qed.

(** Either way one row comes back, it is the only row of its external id,
    and the constraints of the store are kept. *)
Lemma upsert_user_one_row (d : Database) :
  db_ok d ->
  exists r d',
    upsert_user ext username email now d = inr (r, d') /\
    filter same_uuid (users d') = [r] /\
    u_uuid r = ext /\ u_name r = username /\ u_email r = email /\
    db_ok d'.
Proof.
  intros [Huu Hid Hseq Htok Hfk].
  destruct (filter_uuid_unique _ Huu) as [Hnone|[old Hold]].
  - eexists _, _. split; [exact (upsert_user_insert d Hnone)|]. simpl.
    split; [|split; [reflexivity|split; [reflexivity|split; [reflexivity|]]]].
    + rewrite filter_app, Hnone, filter_cons.
      rewrite decide_True by reflexivity. reflexivity.
    + assert (Hext : ext ∉ u_uuid <$> users d).
      { intros (u & Hu & Hin)%list_elem_of_fmap.
        assert (Hm : u ∈ filter same_uuid (users d))
          by (apply list_elem_of_filter; split; [symmetry; exact Hu|exact Hin]).
        rewrite Hnone in Hm. inversion Hm. }
      constructor; simpl.
      * rewrite fmap_app. apply NoDup_app. split; [exact Huu|].
        split; [|apply NoDup_singleton].
        intros x Hx ->%list_elem_of_singleton. exact (Hext Hx).
      * rewrite fmap_app. apply NoDup_app. split; [exact Hid|].
        split; [|apply NoDup_singleton].
        intros x (u & -> & Hin)%list_elem_of_fmap Hx%list_elem_of_singleton.
        rewrite Forall_forall in Hseq. specialize (Hseq u Hin). simpl in Hx. lia.
      * apply Forall_app. split.
        -- eapply Forall_impl; [exact Hseq|]. simpl. intros; lia.
        -- apply Forall_singleton. simpl. lia.
      * exact Htok.
      * eapply Forall_impl; [exact Hfk|]. simpl. intros s Hs.
        rewrite fmap_app. apply elem_of_app. left. exact Hs.
  - eexists _, _. split; [exact (upsert_user_conflict d old Hold)|]. simpl.
    assert (Hin : same_uuid old).
    { assert (Hm : old ∈ filter same_uuid (users d)) by (rewrite Hold; left).
      apply list_elem_of_filter in Hm. tauto. }
    split; [rewrite filter_refresh, Hold; reflexivity|].
    split; [exact Hin|split; [reflexivity|split; [reflexivity|]]].
    constructor; simpl.
    + rewrite refresh_uuid. exact Huu.
    + rewrite refresh_id. exact Hid.
    + apply Forall_fmap. eapply Forall_impl; [exact Hseq|].
      intros u Hu. unfold on_conflict. simpl. destruct (bool_decide _); exact Hu.
    + exact Htok.
    + rewrite refresh_id. exact Hfk.
Qed.

End Upsert.

Lemma createUser_up (uuid username : string) (email : option string) (w : World) :
  store_up w = true ->
  createUser uuid username email w =
    match upsert_user uuid username (or_null email) (clock w) (db w) with
    | inl e => (Threw e, sent w)
    | inr (row, d) => (Returned row, set_db d (sent w))
    end.
Proof.
  intros Hup. unfold createUser, bind, ensureDatabase.
  pose proof Hup as [Hurl _]%andb_true_iff. rewrite Hurl.
  apply (sql_up _ _ Hup).
Qed.

(** C2.  On a store that satisfies its constraints and is reachable,
    [createUser] returns a row, and a second [createUser] with the same
    external id - at any later instant, with any name and email - returns a
    row too, after which exactly one row carries that external id: the row of
    the first call (same internal id), now with the name and the email of the
    second call (an empty email is stored as null, as [email || null] says).
    The second call adds no row and leaves the other rows as they were; with
    the arguments of the first call it changes nothing but the update
    timestamp. *)
Theorem C2_createUser_upsert_idempotent (ext name1 name2 : string)
    (email1 email2 : option string) (w : World) :
  db_ok (db w) -> store_up w = true ->
  exists r1 w1,
    createUser ext name1 email1 w = (Returned r1, w1) /\
    forall w1', db w1' = db w1 -> store_up w1' = true ->
    exists r2 w2,
      createUser ext name2 email2 w1' = (Returned r2, w2) /\
      filter (has_uuid ext) (users (db w2)) = [r2] /\
      u_id r2 = u_id r1 /\
      u_name r2 = name2 /\
      u_email r2 = or_null email2 /\
      length (users (db w2)) = length (users (db w1)) /\
      filter (fun u => ¬ has_uuid ext u) (users (db w2))
        = filter (fun u => ¬ has_uuid ext u) (users (db w1)) /\
      (name2 = name1 -> or_null email2 = or_null email1 ->
       row_data <$> users (db w2) = row_data <$> users (db w1)) /\
      db_ok (db w2).
Proof.
  intros Hok Hup.
  destruct (upsert_user_one_row ext name1 (or_null email1) (clock w) (db w) Hok)
    as (r1 & d1 & H1 & Hf1 & Hu1 & Hn1 & He1 & Hok1).
  exists r1, (set_db d1 (sent w)).
  split; [rewrite (createUser_up _ _ _ _ Hup), H1; reflexivity|].
  intros w1' Hdb Hup'. simpl in Hdb.
  pose proof (upsert_user_conflict ext name2 (or_null email2) (clock w1') (db w1') r1)
    as H2.
  rewrite Hdb in H2. specialize (H2 Hf1).
  eexists _, _.
  split; [rewrite (createUser_up _ _ _ _ Hup'), Hdb, H2; reflexivity|].
  simpl.
  split; [rewrite filter_refresh, Hf1; reflexivity|].
  split; [reflexivity|]. split; [reflexivity|]. split; [reflexivity|].
  split; [apply length_fmap|].
  split; [apply filter_others_refresh|].
  split.
  - intros -> He. rewrite <- list_fmap_compose. apply list_fmap_ext.
    intros i u Hu%list_elem_of_lookup_2. simpl. unfold on_conflict.
    destruct (decide (has_uuid ext u)) as [H|H].
    + rewrite (bool_decide_eq_true_2 _ H).
      assert (Hm : u ∈ filter (has_uuid ext) (users d1))
        by (apply list_elem_of_filter; split; assumption).
      rewrite Hf1 in Hm. apply list_elem_of_singleton in Hm. subst u.
      unfold row_data. simpl. rewrite Hn1, He1, He. reflexivity.
    + rewrite (bool_decide_eq_false_2 _ H). reflexivity.
  - destruct (upsert_user_one_row ext name2 (or_null email2) (clock w1') d1 Hok1)
      as (r2 & d2 & H2' & _ & _ & _ & _ & Hok2).
    rewrite H2 in H2'. injection H2' as _ <-. exact Hok2.
Qed.

(** ** Routing *)

Section Routing.

Context {lib : AuthLib}.

Lemma handler_run (req : Req) (w : World) :
  handler req w =
    if bool_decide (method req = Some "OPTIONS")
    then (Returned tt, set_res (ended 200 (cors (res w))) w)
    else
      match route req (set_res (cors (res w)) w) with
      | (Returned promise, w') => promise w'
      | (Threw e, w') => status_json 500 (internal_error e) w'
      end.
Proof.
  unfold handler, bind, setHeader, try_catch. simpl.
  destruct (bool_decide (method req = Some "OPTIONS")); [reflexivity|].
  destruct (route req _) as [[k|e] w']; reflexivity.
Qed.

Lemma guarded_run (req : Req) (m : string) (h : Req -> M unit) (w : World) :
  guarded req m h w =
    if bool_decide (method req = Some m) then (Returned (h req), w)
    else (Returned (ret tt), set_res (json_sent 405 method_not_allowed (res w)) w).
Proof. unfold guarded. destruct (bool_decide _); reflexivity. Qed.

Lemma route_known (req : Req) (a m : string) (w : World) :
  action_of req = QStr a -> required_method a = Some m ->
  exists h, route req w = guarded req m h w /\
            (a = "status" -> h = handleStatus).
Proof.
  unfold route, required_method. intros -> Hm.
  repeat case_bool_decide; simplify_eq; eexists; (split; [reflexivity|]);
    intros; simplify_eq; reflexivity.
Qed.

Lemma route_unknown (req : Req) (v : qval) (w : World) :
  query req !! "action" = Some v -> v ≠ QStr "" ->
  v ≠ QStr "signin" -> v ≠ QStr "signout" ->
  v ≠ QStr "status" -> v ≠ QStr "callback" ->
  route req w = unknown_action v w.
Proof.
  intros Hq He H1 H2 H3 H4. unfold route, action_of. rewrite Hq.
  destruct v as [a|l]; simpl; [|reflexivity].
  rewrite (bool_decide_eq_false_2 (a = "")) by congruence. simpl.
  repeat case_bool_decide; congruence.
Qed.

Lemma action_of_missing (req : Req) :
  query req !! "action" = None \/ query req !! "action" = Some (QStr "") ->
  action_of req = QStr "status".
Proof. unfold action_of. intros [-> | ->]; reflexivity. Qed.

Lemma handleStatus_200 (req : Req) (w : World) :
  exists (w1 : World) (v : json),
    handleStatus req w = (Returned tt, set_res (json_sent 200 v (res w1)) w1).
Proof.
  unfold handleStatus, try_catch, bind, gets.
  destruct (nonempty (DATABASE_URL w)); simpl; [|eexists _, _; reflexivity].
  destruct (getAuthenticatedUser req w) as [[[u|]|e] w1];
    eexists _, _; reflexivity.
Qed.

(** C9.  A request whose method is not [OPTIONS] and whose [action] value is
    present, not the empty string and none of [signin], [signout], [status],
    [callback] (an array is none of them) is answered with 400 and the
    unknown-action body; a request whose method is neither [OPTIONS] nor the
    one its action requires is answered with 405.  In both cases nothing but
    the response changes.  An [OPTIONS] request is answered 200 with the CORS
    headers, whatever its action. *)
Theorem C9_unknown_action_400_wrong_method_405 (req : Req) (w : World) :
  (method req = Some "OPTIONS" ->
   handler req w = (Returned tt, set_res (ended 200 (cors (res w))) w)) /\
  (method req ≠ Some "OPTIONS" ->
   forall v, query req !! "action" = Some v -> v ≠ QStr "" ->
     v ≠ QStr "signin" -> v ≠ QStr "signout" ->
     v ≠ QStr "status" -> v ≠ QStr "callback" ->
     handler req w =
       (Returned tt,
        set_res (json_sent 400
                   (JObj [("error", JStr ("Unknown action: " +:+ String_of v))])
                   (cors (res w))) w)) /\
  (method req ≠ Some "OPTIONS" ->
   forall a m, action_of req = QStr a -> required_method a = Some m ->
     method req ≠ Some m ->
     handler req w =
       (Returned tt, set_res (json_sent 405 method_not_allowed (cors (res w))) w)).
Proof.
  split; [|split].
  - intros Hopt. rewrite handler_run, (bool_decide_eq_true_2 _ Hopt).
    reflexivity.
  - intros Hopt v Hq He H1 H2 H3 H4.
    rewrite handler_run, (bool_decide_eq_false_2 _ Hopt).
    rewrite (route_unknown req v _ Hq He H1 H2 H3 H4). reflexivity.
  - intros Hopt a m Ha Hm Hne.
    rewrite handler_run, (bool_decide_eq_false_2 _ Hopt).
    destruct (route_known req a m (set_res (cors (res w)) w) Ha Hm) as (h & -> & _).
    rewrite guarded_run, (bool_decide_eq_false_2 _ Hne). reflexivity.
Qed.

(** C10.  A request whose method is not [OPTIONS] and that has no [action]
    parameter, or an empty one, is routed as [status]: it gets what
    [handleStatus] answers when the method is [GET] and 405 otherwise, and in
    no case 400. *)
Theorem C10_missing_action_is_status (req : Req) (w : World) :
  method req ≠ Some "OPTIONS" ->
  query req !! "action" = None \/ query req !! "action" = Some (QStr "") ->
  action_of req = QStr "status" /\
  handler req w =
    (if bool_decide (method req = Some "GET") then handleStatus req
     else status_json 405 method_not_allowed) (set_res (cors (res w)) w) /\
  statusCode (response req w) ≠ 400.
Proof.
  intros Hopt Hq. pose proof (action_of_missing req Hq) as Ha.
  split; [exact Ha|].
  assert (Hrun : handler req w =
    (if bool_decide (method req = Some "GET") then handleStatus req
     else status_json 405 method_not_allowed) (set_res (cors (res w)) w)).
  { rewrite handler_run, (bool_decide_eq_false_2 _ Hopt).
    destruct (route_known req "status" "GET" (set_res (cors (res w)) w) Ha eq_refl)
      as (h & -> & Hh).
    rewrite (Hh eq_refl), guarded_run.
    destruct (bool_decide (method req = Some "GET")); reflexivity. }
  split; [exact Hrun|].
  unfold response. rewrite Hrun.
  destruct (bool_decide (method req = Some "GET")).
  - destruct (handleStatus_200 req (set_res (cors (res w)) w)) as (w1 & v & ->).
    simpl. discriminate.
  - simpl. discriminate.
Qed.

End Routing.

(** ** The callback *)

Lemma hex_digit_header_ok (n : N) : header_char_ok (hex_digit n) = true.
Proof.
  destruct n as [|p]; [reflexivity|].
  repeat (destruct p as [p|p|]; try reflexivity).
Qed.

Lemma uri_unreserved_header_ok (c : ascii) :
  uri_unreserved c = true -> header_char_ok c = true.
Proof. destruct c as [[] [] [] [] [] [] [] []]; vm_compute; congruence. Qed.

Lemma percent_encode_header_ok (s : string) :
  header_value_ok (percent_encode s) = true.
Proof.
  induction s as [|c s IH]; [reflexivity|]. simpl.
  destruct (uri_unreserved c) eqn:Hc; simpl.
  - rewrite (uri_unreserved_header_ok _ Hc), IH. reflexivity.
  - rewrite !hex_digit_header_ok, IH. reflexivity.
Qed.

Lemma redirect_error_page (reason : string) (w : World) :
  redirect 302 (error_page reason) w
  = (Returned tt, set_res (redirected 302 (error_page reason) (res w)) w).
Proof.
  unfold redirect, error_page. simpl.
  change ("" +:+ percent_encode reason) with (percent_encode reason).
  rewrite percent_encode_header_ok. reflexivity.
Qed.

(** The message Node gives for a [Location] it refuses is plain text, and the
    error page for it. *)
Lemma invalid_location_message :
  errorMessage (invalid_header "Location")
  = "Invalid character in header content ["
    +:+ String "034" ("Location" +:+ String "034" "]") /\
  has_lone_surrogate (errorMessage (invalid_header "Location")) = false /\
  error_page (errorMessage (invalid_header "Location"))
  = "/?error=Invalid%20character%20in%20header%20content%20%5B%22Location%22%5D".
Proof. split; [reflexivity|]. split; vm_compute; reflexivity. Qed.

(** The redirect to the error page, as both the [try] block and the [catch]
    of [handleCallback] write it. *)
Lemma redirect_encoded (reason : string) (w : World) :
  (let* encoded := eval (encodeURIComponent reason) in
   redirect 302 ("/?error=" +:+ encoded)) w
  = if has_lone_surrogate reason then (Threw (JsError "URI malformed"), w)
    else (Returned tt, set_res (redirected 302 (error_page reason) (res w)) w).
Proof.
  unfold bind, eval, encodeURIComponent.
  destruct (has_lone_surrogate reason); [reflexivity|].
  apply redirect_error_page.
Qed.

Section Callback.

Context {lib : AuthLib}.

Lemma handleCallback_caught (req : Req) (w w1 : World) (e : exn) :
  callback_body req w = (Threw e, w1) ->
  handleCallback req w
  = if has_lone_surrogate (errorMessage e)
    then (Threw (JsError "URI malformed"), w1)
    else (Returned tt,
          set_res (redirected 302 (error_page (errorMessage e)) (res w1)) w1).
Proof.
  intros H. unfold handleCallback, try_catch. rewrite H.
  apply redirect_encoded.
Qed.

Lemma truthy_nonempty (v : qval) : v ≠ QStr "" -> truthy (Some v) = true.
Proof.
  intros Hv. destruct v as [e|l]; [|reflexivity]. simpl.
  rewrite bool_decide_eq_false_2 by congruence. reflexivity.
Qed.

(** C4.  When the [error] parameter of a callback request is present and not
    the empty string, the handler answers with a 302 redirect to the root
    error page carrying the encoded parameter - for a parameter that
    [encodeURIComponent] refuses, the encoded message of that refusal - and
    nothing else happens: the outcome is the same for every implementation of
    the library, whose code exchange, user upsert and session creation are
    not run.  When the parameter is present but empty, the request is handled
    as the same request without the parameter. *)
Theorem C4_provider_error_short_circuits (req : Req) (w : World) :
  (forall v, query req !! "error" = Some v -> v ≠ QStr "" ->
     handleCallback req w
     = (Returned tt,
        set_res (redirected 302
                   (error_page (if has_lone_surrogate (String_of v)
                                then "URI malformed" else String_of v))
                   (res w)) w)) /\
  (query req !! "error" = Some (QStr "") ->
   handleCallback req w = handleCallback (without_error req) w).
Proof.
  split.
  - intros v Hq Hv. unfold handleCallback, try_catch, callback_body.
    rewrite Hq, (truthy_nonempty v Hv). simpl default.
    rewrite redirect_encoded.
    destruct (has_lone_surrogate (String_of v)); [|reflexivity].
    apply (redirect_encoded "URI malformed").
  - intros Hq. unfold handleCallback, callback_body, without_error. simpl query.
    rewrite Hq, lookup_delete_eq, !lookup_delete_ne by discriminate.
    reflexivity.
Qed.

(** The handler adds nothing to what the exchange did when the identity has
    no email. *)
Lemma handleCallback_no_email (req : Req) (w w1 : World) (code : string)
    (googleUser : GoogleUser) :
  truthy (query req !! "error") = false ->
  query req !! "code" = Some (QStr code) -> code ≠ "" ->
  getGoogleUserInfo code w = (Returned googleUser, w1) ->
  nonempty (g_email googleUser) = false ->
  handleCallback req w
  = (Returned tt, set_res (redirected 302 "/?error=no_email" (res w1)) w1).
Proof.
  intros He Hc Hne Hg Hmail.
  unfold handleCallback, try_catch, callback_body. rewrite He, Hc.
  rewrite (bool_decide_eq_false_2 _ Hne). unfold bind. rewrite Hg, Hmail.
  reflexivity.
Qed.

(** What a run of the [try] block that returns has sent: a 302 to the root
    error page, or - every step of the sign-in having gone through - to the
    target of the state. *)
Lemma callback_body_returned (req : Req) (w w' : World) :
  callback_body req w = (Returned tt, w') ->
  statusCode (res w') = 302 /\
  exists loc, headers (res w') !! "Location" = Some loc /\
    ((exists reason, loc = error_page reason) \/
     (exists code googleUser w1 sessionToken w2 w3 stateData w4,
        query req !! "code" = Some (QStr code) /\
        getGoogleUserInfo code w = (Returned googleUser, w1) /\
        createUserSession (g_id googleUser) (g_name googleUser)
          (g_email googleUser) w1 = (Returned sessionToken, w2) /\
        setSessionCookie sessionToken w2 = (Returned tt, w3) /\
        verifyStateToken (query req !! "state") w3 = (Returned stateData, w4) /\
        loc = redirect_target stateData)).
Proof.
  assert (Herr : forall reason w1,
    (Returned tt, set_res (redirected 302 (error_page reason) (res w1)) w1)
      = (Returned tt, w') ->
    statusCode (res w') = 302 /\
    exists loc, headers (res w') !! "Location" = Some loc /\
      ((exists reason, loc = error_page reason) \/
       (exists code googleUser w1 sessionToken w2 w3 stateData w4,
         query req !! "code" = Some (QStr code) /\
         getGoogleUserInfo code w = (Returned googleUser, w1) /\
         createUserSession (g_id googleUser) (g_name googleUser)
           (g_email googleUser) w1 = (Returned sessionToken, w2) /\
         setSessionCookie sessionToken w2 = (Returned tt, w3) /\
         verifyStateToken (query req !! "state") w3 = (Returned stateData, w4) /\
         loc = redirect_target stateData))).
  { intros reason w1 [= <-]. simpl. split; [reflexivity|].
    eexists. split; [apply lookup_insert_eq|]. left. eauto. }
  unfold callback_body.
  destruct (truthy (query req !! "error")).
  { rewrite redirect_encoded. destruct (has_lone_surrogate _); [discriminate|].
    apply Herr. }
  destruct (query req !! "code") as [[code|l]|] eqn:Hcode;
    [|change "/?error=missing_code" with (error_page "missing_code");
      rewrite redirect_error_page; apply Herr ..].
  destruct (bool_decide (code = "")).
  { change "/?error=missing_code" with (error_page "missing_code").
    rewrite redirect_error_page. apply Herr. }
  unfold bind.
  destruct (getGoogleUserInfo code w) as [[gu|e] wa] eqn:Hg; [|discriminate].
  destruct (nonempty (g_email gu)); simpl.
  2: { change "/?error=no_email" with (error_page "no_email").
       rewrite redirect_error_page. apply Herr. }
  destruct (createUserSession _ _ _ wa) as [[tok|e] wb] eqn:Hs; [|discriminate].
  destruct (setSessionCookie tok wb) as [[[]|e] wc] eqn:Hk; [|discriminate].
  destruct (verifyStateToken _ wc) as [[st|e] wd] eqn:Hv; [|discriminate].
  unfold redirect. destruct (header_value_ok (redirect_target st)); [|discriminate].
  intros [= <-]. simpl. split; [reflexivity|].
  eexists. split; [apply lookup_insert_eq|].
  right. eexists code, gu, wa, tok, wb, wc, st, wd. auto 10.
Qed.

(** C6.  Whatever is thrown inside the [try] block of [handleCallback], by
    the provider, the network or the store, is caught, and when the message of
    the error is well-formed text the handler answers with a 302 redirect to
    the root error page carrying the encoded message.  When the message holds
    a surrogate without partner, [encodeURIComponent] throws inside the
    [catch]: the handler rejects with that [URIError] and sends no redirect.
    A run of [handleCallback] that returns has sent a 302, to the error page
    or to the target of a completed sign-in, and a run that rejects is of that
    one kind. *)
Theorem C6_callback_failures_redirect (req : Req) (w : World) :
  (forall e w1, callback_body req w = (Threw e, w1) ->
     has_lone_surrogate (errorMessage e) = false ->
     handleCallback req w
     = (Returned tt,
        set_res (redirected 302 (error_page (errorMessage e)) (res w1)) w1)) /\
  (forall e w1, callback_body req w = (Threw e, w1) ->
     has_lone_surrogate (errorMessage e) = true ->
     handleCallback req w = (Threw (JsError "URI malformed"), w1)) /\
  (forall w', handleCallback req w = (Returned tt, w') ->
     statusCode (res w') = 302 /\
     exists loc, headers (res w') !! "Location" = Some loc /\
       ((exists reason, loc = error_page reason) \/
        (exists code googleUser w1 sessionToken w2 w3 stateData w4,
           query req !! "code" = Some (QStr code) /\
           getGoogleUserInfo code w = (Returned googleUser, w1) /\
           createUserSession (g_id googleUser) (g_name googleUser)
             (g_email googleUser) w1 = (Returned sessionToken, w2) /\
           setSessionCookie sessionToken w2 = (Returned tt, w3) /\
           verifyStateToken (query req !! "state") w3 = (Returned stateData, w4) /\
           loc = redirect_target stateData))) /\
  (forall e w', handleCallback req w = (Threw e, w') ->
     e = JsError "URI malformed" /\
     exists e0, callback_body req w = (Threw e0, w') /\
                has_lone_surrogate (errorMessage e0) = true).
Proof.
  split_and!.
  - intros e w1 Hbody Hwf. rewrite (handleCallback_caught _ _ _ _ Hbody), Hwf.
    reflexivity.
  - intros e w1 Hbody Hwf. rewrite (handleCallback_caught _ _ _ _ Hbody), Hwf.
    reflexivity.
  - intros w'. destruct (callback_body req w) as [[[]|e] w1] eqn:Hbody.
    + unfold handleCallback, try_catch. rewrite Hbody. intros [= <-].
      exact (callback_body_returned _ _ _ Hbody).
    + rewrite (handleCallback_caught _ _ _ _ Hbody).
      destruct (has_lone_surrogate (errorMessage e)); [discriminate|].
      intros [= <-]. simpl. split; [reflexivity|].
      eexists. split; [apply lookup_insert_eq|]. left. eauto.
  - intros e w'. destruct (callback_body req w) as [[[]|e0] w1] eqn:Hbody.
    + unfold handleCallback, try_catch. rewrite Hbody. discriminate.
    + rewrite (handleCallback_caught _ _ _ _ Hbody).
      destruct (has_lone_surrogate (errorMessage e0)) eqn:Hwf; [|discriminate].
      intros [= <- <-]. eauto.
Qed.

End Callback.

(** C5.  With the library as the spec describes it: when the callback has no
    provider error and a code, the exchange succeeds and the identity has an
    empty or missing email, the handler answers with a 302 redirect to
    [/?error=no_email], and that response is the only change: no row of
    [users] or [sessions] is created or updated, and no cookie is set. *)
Theorem C5_no_email_no_user_no_session (cfg : AuthConfig) (req : Req)
    (w : World) (code : string) (googleUser : GoogleUser) :
  truthy (query req !! "error") = false ->
  query req !! "code" = Some (QStr code) -> code ≠ "" ->
  google w code = Returned googleUser ->
  nonempty (g_email googleUser) = false ->
  handleCallback (lib := spec_lib cfg) req w
  = (Returned tt, set_res (redirected 302 "/?error=no_email" (res w)) w) /\
  db (snd (handleCallback (lib := spec_lib cfg) req w)) = db w /\
  cookie (res (snd (handleCallback (lib := spec_lib cfg) req w))) = cookie (res w).
Proof.
  intros He Hc Hne Hg Hmail.
  assert (H : handleCallback (lib := spec_lib cfg) req w
    = (Returned tt, set_res (redirected 302 "/?error=no_email" (res w)) w)).
  { apply (handleCallback_no_email (lib := spec_lib cfg) req w w code googleUser);
      try assumption.
    simpl. unfold spec_getGoogleUserInfo. rewrite Hg. reflexivity. }
  rewrite H. auto.
Qed.

(** ** Status *)

(** C7.  [handleStatus] always returns and always answers 200, for every
    implementation of the library.  Without a connection string the body is
    the not-authenticated one with the hint that the database is not
    configured, and the library is not asked; when the lookup of the user
    throws, the body is the not-authenticated one with the message of the
    error as hint.  With the library as the spec describes it, a request
    without session cookie gets exactly [{isAuthenticated:false, user:null}]
    when the store is configured, and a store that cannot be reached during
    the lookup gives the not-authenticated body with the error of the driver
    as hint. *)
Theorem C7_status_always_200 (lib : AuthLib) (cfg : AuthConfig) (req : Req)
    (w : World) :
  (fst (handleStatus req w) = Returned tt /\
   statusCode (res (snd (handleStatus req w))) = 200) /\
  (nonempty (DATABASE_URL w) = false ->
   handleStatus req w
   = (Returned tt,
      set_res (json_sent 200 (unauthenticated (Some "Database not configured"))
                 (res w)) w)) /\
  (forall e w1, nonempty (DATABASE_URL w) = true ->
     getAuthenticatedUser req w = (Threw e, w1) ->
     handleStatus req w
     = (Returned tt,
        set_res (json_sent 200 (unauthenticated (Some (errorMessage e)))
                   (res w1)) w1)) /\
  (cookies req !! cookieName cfg = None ->
   nonempty (DATABASE_URL w) = true ->
   handleStatus (lib := spec_lib cfg) req w
   = (Returned tt, set_res (json_sent 200 (unauthenticated None) (res w)) w)) /\
  (forall token m rest, cookies req !! cookieName cfg = Some token ->
     token ≠ "" -> nonempty (DATABASE_URL w) = true ->
     outages w = Some m :: rest ->
     handleStatus (lib := spec_lib cfg) req w
     = (Returned tt,
        set_res (json_sent 200 (unauthenticated (Some m)) (res w)) (sent w))).
Proof.
  split; [|split; [|split; [|split]]].
  - destruct (handleStatus_200 req w) as (w1 & v & ->). split; reflexivity.
  - intros Hurl. unfold handleStatus, try_catch, bind, gets. rewrite Hurl.
    reflexivity.
  - intros e w1 Hurl Hget. unfold handleStatus, try_catch, bind, gets.
    rewrite Hurl. simpl. rewrite Hget. reflexivity.
  - intros Hc Hurl. unfold handleStatus, try_catch, bind, gets. rewrite Hurl.
    simpl. unfold spec_getAuthenticatedUser, spec_getSessionToken, bind, ret.
    rewrite Hc. reflexivity.
  - intros token m rest Hc Hne Hurl Hout.
    unfold handleStatus, try_catch, bind, gets. rewrite Hurl. simpl.
    unfold spec_getAuthenticatedUser, spec_getSessionToken, bind, ret.
    rewrite Hc, (bool_decide_eq_false_2 _ Hne).
    unfold getSessionByToken, bind, sql, sent. rewrite Hurl, Hout. reflexivity.
Qed.

(** ** Sign-out *)

Lemma store_up_false (w : World) :
  store_up w = false ->
  nonempty (DATABASE_URL w) = false \/
  exists m rest, nonempty (DATABASE_URL w) = true /\ outages w = Some m :: rest.
Proof.
  unfold store_up. destruct (nonempty (DATABASE_URL w)); [|auto].
  destruct (outages w) as [|[m|] rest]; try discriminate. intros _. eauto.
Qed.

Lemma filter_token_absent (tok : string) (ss : list SessionRow) :
  tok ∉ s_session_token <$> ss ->
  filter (fun s => s_session_token s ≠ tok) ss = ss.
Proof.
  induction ss as [|s ss IH]; [reflexivity|].
  rewrite fmap_cons, not_elem_of_cons. intros [Hs Hss].
  rewrite filter_cons, decide_True by congruence. rewrite (IH Hss). reflexivity.
Qed.

Lemma set_sessions_same (d : Database) : set_sessions (sessions d) d = d.
Proof. destruct d; reflexivity. Qed.

(** [deleteSession] of a token without row succeeds and deletes nothing. *)
Lemma deleteSession_absent (tok : string) (w : World) :
  store_up w = true -> tok ∉ s_session_token <$> sessions (db w) ->
  deleteSession tok w = (Returned tt, sent w).
Proof.
  intros Hup Hno. unfold deleteSession. rewrite (sql_up _ _ Hup).
  rewrite (filter_token_absent _ _ Hno), set_sessions_same.
  rewrite <- (db_sent w) at 1. rewrite set_db_same. reflexivity.
Qed.

(** After [deleteSession] no row has the token, whatever was there. *)
Lemma deleteSession_gone (tok : string) (w w' : World) :
  deleteSession tok w = (Returned tt, w') ->
  tok ∉ s_session_token <$> sessions (db w').
Proof.
  intros (_ & Hstmt & _)%sql_returned. injection Hstmt as <-. simpl.
  intros (s & Hs & Hin)%list_elem_of_fmap.
  apply list_elem_of_filter in Hin as [Hne _]. congruence.
Qed.

(** Whatever the library is: when the cookie holds a token and destroying
    its session throws, the [catch] clears the cookie and answers 500. *)
Lemma handleSignOut_destroy_throws {lib : AuthLib} (req : Req)
    (w w1 w2 w3 : World) (token : string) (e : exn) :
  getSessionToken req w = (Returned (Some token), w1) -> token ≠ "" ->
  destroySession token w1 = (Threw e, w2) ->
  clearSessionCookie w2 = (Returned tt, w3) ->
  handleSignOut req w
  = (Returned tt, set_res (json_sent 500 (internal_error e) (res w3)) w3).
Proof.
  intros Hget Hne Hdestroy Hclear. unfold handleSignOut, try_catch, bind.
  rewrite Hget, (bool_decide_eq_false_2 _ Hne), Hdestroy, Hclear. reflexivity.
Qed.

(** C8.  With the library as the spec describes it, [handleSignOut] always
    returns with the session cookie cleared.  A cookie whose token has no
    session row gives 200 with the success body, and the store keeps its
    rows.  The answer is 200 or 500, and it is 500 exactly when the cookie
    holds a non-empty token and the statement deleting its session cannot
    reach the store - in which case the cookie is cleared all the same. *)
Theorem C8_signout_clears_cookie (cfg : AuthConfig) (req : Req) (w : World) :
  let out := handleSignOut (lib := spec_lib cfg) req w in
  fst out = Returned tt /\
  cookie (res (snd out)) = Some (cleared_cookie cfg) /\
  (forall token, cookies req !! cookieName cfg = Some token ->
     token ∉ s_session_token <$> sessions (db w) -> store_up w = true ->
     statusCode (res (snd out)) = 200 /\
     body (res (snd out)) = Some signed_out /\
     db (snd out) = db w) /\
  (statusCode (res (snd out)) = 200 \/ statusCode (res (snd out)) = 500) /\
  (statusCode (res (snd out)) = 500 <->
   exists token, cookies req !! cookieName cfg = Some token /\ token ≠ "" /\
                 store_up w = false).
Proof.
  unfold handleSignOut, try_catch, bind. simpl.
  unfold spec_getSessionToken, ret at 1.
  destruct (cookies req !! cookieName cfg) as [token|] eqn:Hc.
  2: { simpl. split_and!; auto; try discriminate.
       split; [discriminate|]. intros (token & [=] & _). }
  destruct (decide (token = "")) as [He|He].
  { rewrite (bool_decide_eq_true_2 _ He). simpl.
    split_and!; auto; try discriminate.
    split; [discriminate|]. intros (token' & [= <-] & Hne & _). contradiction. }
  rewrite (bool_decide_eq_false_2 _ He). unfold spec_destroySession.
  destruct (store_up w) eqn:Hup.
  - unfold deleteSession. rewrite (sql_up _ _ Hup). simpl.
    split_and!; auto; try discriminate.
    + intros token' [= <-] Hno _. split_and!; try reflexivity.
      rewrite (filter_token_absent _ _ Hno). apply set_sessions_same.
    + split; [discriminate|]. intros (token' & _ & _ & [=]).
  - assert (Hthrow : exists e w', deleteSession token w = (Threw e, w') /\ db w' = db w).
    { unfold deleteSession, sql.
      destruct (store_up_false _ Hup) as [->|(m & rest & -> & ->)];
        eexists _, _; split; reflexivity. }
    destruct Hthrow as (e & w' & -> & Hdb). simpl.
    split_and!; auto; try discriminate.
    split; [|reflexivity]. intros _. exists token. auto.
Qed.

(** ** The state token *)

Section StateTokenFacts.

Import StateToken.

Lemma split_on_absent (sep : ascii) (s : string) :
  occurs sep s = false -> split_on sep s = None.
Proof.
  induction s as [|c s IH]; [reflexivity|]. simpl.
  intros [Hc Hs]%orb_false_iff. rewrite Hc, (IH Hs). reflexivity.
Qed.

Lemma split_on_first (sep : ascii) (a b : string) :
  occurs sep a = false ->
  split_on sep (a +:+ String sep b) = Some (a, b).
Proof.
  induction a as [|c a IH]; simpl.
  - intros _. rewrite bool_decide_eq_true_2 by reflexivity. reflexivity.
  - intros [Hc Ha]%orb_false_iff. rewrite Hc, (IH Ha). reflexivity.
Qed.

Lemma occurs_middle (sep : ascii) (a b : string) :
  occurs sep (a +:+ String sep b) = true.
Proof.
  induction a as [|c a IH]; simpl.
  - rewrite bool_decide_eq_true_2 by reflexivity. reflexivity.
  - rewrite IH. apply orb_true_r.
Qed.

Lemma append_flip_neq (pre post : string) (c c' : ascii) :
  c ≠ c' -> pre +:+ String c' post ≠ pre +:+ String c post.
Proof.
  intros Hc. induction pre as [|x pre IH]; simpl; intros H; injection H.
  - intros ->. exact (Hc eq_refl).
  - exact IH.
Qed.

(** Where the separator of a token [p.tag] lands once one character has been
    changed: the split fails, or the first part is intact and the second is
    not, or the second is intact and the first has one character changed, or
    the second part has a separator inside. *)
Lemma split_on_flipped (sep : ascii) (tag post : string) (c c' : ascii) :
  occurs sep tag = false -> c ≠ c' ->
  forall pre p,
    occurs sep p = false ->
    p +:+ String sep tag = pre +:+ String c post ->
    match split_on sep (pre +:+ String c' post) with
    | None => True
    | Some (p', tag') =>
        (p' = p /\ tag' ≠ tag) \/ (flipped p p' /\ tag' = tag) \/
        occurs sep tag' = true
    end.
Proof.
  intros Htag Hc. induction pre as [|x pre IH]; intros p Hp Heq.
  - destruct p as [|a p]; simpl in Heq; injection Heq as -> <-; simpl.
    + rewrite bool_decide_eq_false_2 by congruence.
      rewrite (split_on_absent _ _ Htag). exact I.
    + simpl in Hp. apply orb_false_iff in Hp as [_ Hp].
      destruct (decide (c' = sep)) as [->|Hne].
      * rewrite bool_decide_eq_true_2 by reflexivity.
        right. right. apply occurs_middle.
      * rewrite (bool_decide_eq_false_2 _ Hne), (split_on_first _ _ _ Hp).
        right. left. split; [|reflexivity].
        exists EmptyString, c, c', p. auto.
  - destruct p as [|a p]; simpl in Heq; injection Heq as -> Heq; simpl.
    + rewrite bool_decide_eq_true_2 by reflexivity.
      left. split; [reflexivity|]. rewrite Heq. apply append_flip_neq, Hc.
    + simpl in Hp. apply orb_false_iff in Hp as [Hx Hp]. rewrite Hx.
      specialize (IH p Hp Heq).
      destruct (split_on sep (pre +:+ String c' post)) as [[p' tag']|]; [|exact I].
      destruct IH as [[-> Ht]|[[Hp' ->]|Ho]]; [left|right; left|right; right].
      * split; [reflexivity|exact Ht].
      * split; [|reflexivity].
        destruct Hp' as (pre0 & c0 & c0' & post0 & -> & -> & Hc0).
        exists (String x pre0), c0, c0', post0. auto.
      * exact Ho.
Qed.

Lemma split_on_parts (sep : ascii) (s a b : string) :
  split_on sep s = Some (a, b) -> s = a +:+ String sep b.
Proof.
  revert a. induction s as [|c s IH]; intros a; simpl; [discriminate|].
  destruct (bool_decide (c = sep)) eqn:Hc.
  - apply bool_decide_eq_true in Hc. intros [= <- <-]. rewrite Hc. reflexivity.
  - destruct (split_on sep s) as [[a' b']|]; [|discriminate].
    intros [= <- <-]. simpl. rewrite (IH a' eq_refl). reflexivity.
Qed.

Variable k : Kit.
Hypothesis Hcodec : codec_ok k.

Lemma generate_parts (path : string) (t : Z) :
  generate k path t
  = encodePayload k path t
    +:+ String "." (sign k (secret k) (encodePayload k path t)).
Proof. reflexivity. Qed.

Lemma verify_generate (path : string) (t t' : Z) :
  verify k (generate k path t) t'
  = if bool_decide (t' < t + maxAge k) then Some path else None.
Proof.
  destruct Hcodec as [Hdec Henc _]. unfold verify.
  rewrite generate_parts, (split_on_first _ _ _ (Henc path t)).
  rewrite bool_decide_eq_true_2 by reflexivity. rewrite Hdec. reflexivity.
Qed.

(** A token that differs from a generated one in one character is refused,
    unless the change forges the signature: it left the signature alone and
    changed one character of the payload into a payload of that signature. *)
Lemma verify_flipped (path token' : string) (t t' : Z) :
  flipped (generate k path t) token' ->
  verify k token' t' = None \/
  exists payload',
    flipped (encodePayload k path t) payload' /\
    sign k (secret k) payload' = sign k (secret k) (encodePayload k path t) /\
    token' = payload' +:+ String "." (sign k (secret k) (encodePayload k path t)).
Proof.
  destruct Hcodec as [_ Henc Hdot].
  intros (pre & c & c' & post & Hgen & -> & Hc). unfold verify.
  rewrite generate_parts in Hgen.
  pose proof (split_on_flipped "." _ post c c' (Hdot (encodePayload k path t)) Hc
                pre _ (Henc path t) Hgen) as Hsplit.
  destruct (split_on "." (pre +:+ String c' post)) as [[p' tag']|] eqn:Hs;
    [|left; reflexivity].
  destruct (decide (tag' = sign k (secret k) p')) as [Htag|Htag].
  2: { left. rewrite (bool_decide_eq_false_2 _ Htag). reflexivity. }
  destruct Hsplit as [[-> Ht]|[[Hp Ht]|Ho]].
  - exfalso. exact (Ht Htag).
  - right. exists p'. split; [exact Hp|]. split; [congruence|].
    rewrite (split_on_parts _ _ _ _ Hs), Ht. reflexivity.
  - rewrite Htag, Hdot in Ho. discriminate.
Qed.

Lemma verify_flipped_detected (path token' : string) (t t' : Z) :
  detects_flips k ->
  flipped (generate k path t) token' -> verify k token' t' = None.
Proof.
  intros Hdet Hflip.
  destruct (verify_flipped path token' t t' Hflip)
    as [H|(payload' & Hp & Hsig & _)]; [exact H|].
  exfalso. exact (Hdet _ _ Hp (eq_sym Hsig)).
Qed.

Lemma verify_no_separator (token : string) (t' : Z) :
  occurs "." token = false -> verify k token t' = None.
Proof. intros H. unfold verify. rewrite (split_on_absent _ _ H). reflexivity. Qed.

End StateTokenFacts.

(** *** The reference instance *)

Section ReferenceKit.

Import StateToken.

Lemma occurs_append (c : ascii) (a b : string) :
  occurs c (a +:+ b) = occurs c a || occurs c b.
Proof.
  induction a as [|x a IH]; [reflexivity|]. simpl. rewrite IH. apply orb_assoc.
Qed.

Lemma unhex_digit_hex_digit (n : N) : unhex_digit (hex_digit n) ≠ None.
Proof.
  destruct n as [|p]; [discriminate|].
  repeat (destruct p as [p|p|]; try (vm_compute; discriminate)).
Qed.

Lemma hexs_alphabet (c : ascii) (s : string) :
  unhex_digit c = None -> occurs c (hexs s) = false.
Proof.
  intros Hc. induction s as [|x s IH]; [reflexivity|]. simpl. rewrite IH.
  assert (Hd : forall n, bool_decide (hex_digit n = c) = false).
  { intros n. apply bool_decide_eq_false_2. intros <-.
    exact (unhex_digit_hex_digit n Hc). }
  rewrite !Hd. reflexivity.
Qed.

Lemma unhexs_hexs (s : string) : unhexs (hexs s) = Some s.
Proof.
  induction s as [|c s IH]; [reflexivity|].
  change (hexs (String c s))
    with (String (hex_digit (N_of_ascii c / 16))
            (String (hex_digit (N_of_ascii c mod 16)) (hexs s))).
  cbn [unhexs]. rewrite IH.
  destruct c as [[] [] [] [] [] [] [] []]; reflexivity.
Qed.

Lemma hexs_inj (a b : string) : hexs a = hexs b -> a = b.
Proof.
  intros H. apply (f_equal unhexs) in H. rewrite !unhexs_hexs in H. congruence.
Qed.

Lemma undecimal_decimal (t : Z) : undecimal (decimal t) = Some t.
Proof. unfold undecimal, decimal. rewrite NilEmpty.isi, DecimalZ.of_to. reflexivity. Qed.

Lemma append_assoc_s (a b c : string) : (a +:+ b) +:+ c = a +:+ (b +:+ c).
Proof.
  induction a as [|x a IH]; [reflexivity|].
  change (String x ((a +:+ b) +:+ c) = String x (a +:+ (b +:+ c))).
  rewrite IH. reflexivity.
Qed.

Lemma checksum_append (a b : string) :
  checksum (a +:+ b) = (checksum a + checksum b)%N.
Proof. induction a as [|c a IH]; simpl; [reflexivity|]. rewrite IH. lia. Qed.

(** Changing one character changes the checksum modulo 256. *)
Lemma checksum_flipped (m m' : string) :
  flipped m m' -> (checksum m mod 256)%N ≠ (checksum m' mod 256)%N.
Proof.
  intros (pre & c & c' & post & -> & -> & Hc).
  rewrite !checksum_append. simpl.
  pose proof (N_ascii_bounded c) as Hb. pose proof (N_ascii_bounded c') as Hb'.
  assert (Hn : N_of_ascii c ≠ N_of_ascii c').
  { intros H. apply Hc. rewrite <- (ascii_N_embedding c), H.
    apply ascii_N_embedding. }
  set (x := (checksum pre + (N_of_ascii c + checksum post))%N).
  set (y := (checksum pre + (N_of_ascii c' + checksum post))%N).
  intros Heq.
  pose proof (N.div_mod x 256 ltac:(lia)) as Hx.
  pose proof (N.div_mod y 256 ltac:(lia)) as Hy.
  rewrite Heq in Hx. subst x y. lia.
Qed.

Lemma reference_kit_codec_ok (key : string) (age : Z) :
  codec_ok (reference_kit key age).
Proof.
  constructor; simpl.
  - intros p t.
    change (hexs p +:+ ":" +:+ hexs (decimal t))
      with (hexs p +:+ String ":" (hexs (decimal t))).
    rewrite (split_on_first ":" _ _ (hexs_alphabet ":" p eq_refl)).
    rewrite !unhexs_hexs, undecimal_decimal. reflexivity.
  - intros p t. rewrite !occurs_append, !(hexs_alphabet "." _ eq_refl).
    reflexivity.
  - intros m.
    exact (hexs_alphabet "."
             (String (ascii_of_N (checksum (key +:+ m) mod 256)) EmptyString)
             eq_refl).
Qed.

Lemma reference_kit_detects_flips (key : string) (age : Z) :
  detects_flips (reference_kit key age).
Proof.
  intros m m' Hflip. unfold reference_kit. cbn [sign secret].
  intros H%hexs_inj. injection H as H.
  apply (f_equal N_of_ascii) in H.
  rewrite !N_ascii_embedding in H by (apply N.mod_lt; lia).
  revert H. apply checksum_flipped.
  destruct Hflip as (pre & c & c' & post & -> & -> & Hc).
  exists (key +:+ pre), c, c', post. rewrite !append_assoc_s. auto.
Qed.

End ReferenceKit.

Lemma spec_verifyStateToken_run (cfg : AuthConfig) (token : string) (w : World) :
  spec_verifyStateToken cfg (Some (QStr token)) w
  = (Returned (StateToken.verify (stateKit cfg) token (clock w)), w).
Proof. reflexivity. Qed.


(** ** The statements at the sample states *)

Lemma demo_world_ok : db_ok (db demo_world).
Proof.
  constructor; simpl.
  - apply NoDup_singleton.
  - apply NoDup_singleton.
  - apply Forall_singleton. simpl. lia.
  - apply NoDup_nil_2.
  - apply Forall_nil_2.
Qed.

(** Two upserts of one external id on the sample store leave one row. *)
Lemma C2_createUser_upsert_idempotent_witness :
  db_ok (db demo_world) /\ store_up demo_world = true /\
  exists r1 w1 r2 w2,
    createUser "g-1" "Ann" (Some "ann@example.org") demo_world = (Returned r1, w1) /\
    createUser "g-1" "Anna" (Some "anna@example.org") w1 = (Returned r2, w2) /\
    filter (has_uuid "g-1") (users (db w2)) = [r2] /\
    u_name r2 = "Anna" /\ u_email r2 = Some "anna@example.org".
Proof.
  split; [exact demo_world_ok|]. split; [reflexivity|].
  destruct (C2_createUser_upsert_idempotent "g-1" "Ann" "Anna"
              (Some "ann@example.org") (Some "anna@example.org") demo_world
              demo_world_ok eq_refl)
    as (r1 & w1 & H1 & Hnext).
  assert (Hup : store_up w1 = true).
  { apply (f_equal snd) in H1. simpl in H1. rewrite <- H1. reflexivity. }
  destruct (Hnext w1 eq_refl Hup)
    as (r2 & w2 & H2 & Hone & _ & Hname & Hmail & _).
  exists r1, w1, r2, w2. auto.
Defined.


(** An [error] parameter that is there but empty does not stop the callback:
    the code is exchanged, a user and a session are created, and the browser
    is sent on. *)
Lemma C4_empty_error_parameter_counterexample :
  let req := demo_req "GET" [("action", QStr "callback"); ("error", QStr "");
                             ("code", QStr "good")] [] in
  let w' := snd (handleCallback (lib := demo_lib) req demo_world) in
  query req !! "error" = Some (QStr "") /\
  headers (res w') !! "Location" = Some "/upload" /\
  u_uuid <$> users (db w') = ["g-0"; "g-1"] /\
  s_session_token <$> sessions (db w') = ["tok-0"].
Proof. vm_compute. auto. Qed.

Lemma C4_provider_error_short_circuits_witness :
  let req := demo_req "GET" [("action", QStr "callback");
                             ("error", QStr "access_denied");
                             ("code", QStr "good")] [] in
  handleCallback (lib := demo_lib) req demo_world
  = (Returned tt,
     set_res (redirected 302 "/?error=access_denied" fresh_res) demo_world).
Proof.
  intros req.
  exact (proj1 (C4_provider_error_short_circuits (lib := demo_lib) req demo_world)
           (QStr "access_denied") eq_refl ltac:(discriminate)).
Defined.

Lemma C5_no_email_no_user_no_session_witness :
  let req := demo_req "GET" [("action", QStr "callback");
                             ("code", QStr "noemail")] [] in
  headers (res (snd (handleCallback (lib := demo_lib) req demo_world)))
    !! "Location" = Some "/?error=no_email" /\
  db (snd (handleCallback (lib := demo_lib) req demo_world)) = db demo_world.
Proof.
  intros req.
  destruct (C5_no_email_no_user_no_session demo_cfg req demo_world "noemail"
              {| g_id := "g-2"; g_name := "Bob"; g_email := None |}
              eq_refl eq_refl ltac:(discriminate) eq_refl eq_refl)
    as (Hrun & Hdb & _).
  split; [|exact Hdb]. unfold demo_lib. rewrite Hrun. reflexivity.
Defined.

(** A code the provider rejects ends in the error page; when the message of
    the rejection holds a surrogate without partner, the callback rejects
    instead, and so does [handler], with no response sent. *)
Lemma C6_callback_failures_redirect_witness :
  let req := demo_req "GET" [("action", QStr "callback");
                             ("code", QStr "stale")] [] in
  handleCallback (lib := demo_lib) req demo_world
  = (Returned tt,
     set_res (redirected 302 "/?error=invalid_grant" fresh_res) demo_world) /\
  handleCallback (lib := demo_lib) req demo_surrogate_world
  = (Threw (JsError "URI malformed"), demo_surrogate_world) /\
  fst (handler (lib := demo_lib) req demo_surrogate_world)
  = Threw (JsError "URI malformed") /\
  finished (res (snd (handler (lib := demo_lib) req demo_surrogate_world)))
  = false.
Proof.
  intros req.
  destruct (C6_callback_failures_redirect (lib := demo_lib) req demo_world)
    as (Hcaught & _).
  destruct (C6_callback_failures_redirect (lib := demo_lib) req
              demo_surrogate_world) as (_ & Hrejects & _).
  split; [exact (Hcaught (JsError "invalid_grant") demo_world eq_refl eq_refl)|].
  split; [exact (Hrejects (JsError ("invalid_grant: " +:+ lone_surrogate))
                   demo_surrogate_world eq_refl eq_refl)|].
  split; reflexivity.
Defined.

Lemma C7_status_always_200_witness :
  handleStatus (lib := demo_lib) (demo_req "GET" [] []) demo_world
  = (Returned tt,
     set_res (json_sent 200 (unauthenticated None) fresh_res) demo_world).
Proof.
  destruct (C7_status_always_200 demo_lib demo_cfg (demo_req "GET" [] [])
              demo_world) as (_ & _ & _ & Hnone & _).
  exact (Hnone eq_refl eq_refl).
Defined.

(** The store is down when the session is to be deleted: the answer is 500,
    with the cookie cleared - the step that clears it did run. *)
Lemma C8_outage_gives_500_counterexample :
  let req := demo_req "POST" [("action", QStr "signout")]
               [("session", "tok-0")] in
  let w' := snd (handleSignOut (lib := demo_lib) req demo_outage_world) in
  statusCode (res w') = 500 /\
  cookie (res w') = Some (cleared_cookie demo_cfg) /\
  spec_clearSessionCookie demo_cfg demo_outage_world
  = (Returned tt, with_cookie (cleared_cookie demo_cfg) demo_outage_world).
Proof. vm_compute. auto. Qed.

(** A cookie whose session is not in the store: 200, success, cookie
    cleared. *)
Lemma C8_signout_clears_cookie_witness :
  let req := demo_req "POST" [("action", QStr "signout")]
               [("session", "tok-9")] in
  let w' := snd (handleSignOut (lib := demo_lib) req demo_world) in
  statusCode (res w') = 200 /\ body (res w') = Some signed_out /\
  cookie (res w') = Some (cleared_cookie demo_cfg) /\
  db w' = db demo_world.
Proof.
  intros req w'.
  destruct (C8_signout_clears_cookie demo_cfg req demo_world)
    as (_ & Hcookie & Habsent & _).
  destruct (Habsent "tok-9" eq_refl ltac:(simpl; apply not_elem_of_nil) eq_refl)
    as (Hstatus & Hbody & Hdb).
  auto.
Defined.

(** A preflight request is answered 200 whatever its [action]. *)
Lemma C9_options_unknown_action_counterexample :
  let req := demo_req "OPTIONS" [("action", QStr "bogus")] [] in
  query req !! "action" = Some (QStr "bogus") /\
  statusCode (response (lib := demo_lib) req demo_world) = 200.
Proof. vm_compute. auto. Qed.

(** An empty [action] is not one of the four names either, and is answered
    as [status]. *)
Lemma C9_empty_action_is_status :
  let req := demo_req "GET" [("action", QStr "")] [] in
  statusCode (response (lib := demo_lib) req demo_world) = 200.
Proof. vm_compute. reflexivity. Qed.

Lemma C9_unknown_action_400_wrong_method_405_witness :
  statusCode (response (lib := demo_lib)
                (demo_req "GET" [("action", QStr "bogus")] []) demo_world) = 400 /\
  statusCode (response (lib := demo_lib)
                (demo_req "POST" [("action", QStr "callback")] []) demo_world) = 405 /\
  statusCode (response (lib := demo_lib)
                (demo_req "OPTIONS" [("action", QStr "bogus")] []) demo_world) = 200.
Proof.
  split; [|split].
  - destruct (C9_unknown_action_400_wrong_method_405 (lib := demo_lib)
                (demo_req "GET" [("action", QStr "bogus")] []) demo_world)
      as (_ & H400 & _).
    unfold response.
    rewrite (H400 ltac:(discriminate) (QStr "bogus") eq_refl ltac:(discriminate)
               ltac:(discriminate) ltac:(discriminate) ltac:(discriminate)
               ltac:(discriminate)).
    reflexivity.
  - destruct (C9_unknown_action_400_wrong_method_405 (lib := demo_lib)
                (demo_req "POST" [("action", QStr "callback")] []) demo_world)
      as (_ & _ & H405).
    unfold response.
    rewrite (H405 ltac:(discriminate) "callback" "GET" eq_refl eq_refl
               ltac:(discriminate)).
    reflexivity.
  - destruct (C9_unknown_action_400_wrong_method_405 (lib := demo_lib)
                (demo_req "OPTIONS" [("action", QStr "bogus")] []) demo_world)
      as (Hopt & _).
    unfold response. rewrite (Hopt eq_refl). reflexivity.
Defined.

Lemma C10_missing_action_is_status_witness :
  handler (lib := demo_lib) (demo_req "GET" [] []) demo_world
  = handleStatus (lib := demo_lib) (demo_req "GET" [] [])
      (set_res (cors fresh_res) demo_world).
Proof.
  destruct (C10_missing_action_is_status (lib := demo_lib)
              (demo_req "GET" [] []) demo_world ltac:(discriminate)
              (or_introl eq_refl)) as (_ & Hrun & _).
  exact Hrun.
Defined.

(** ** Further properties of app/lib/db.ts: users and sessions *)

Lemma head_take_1 {A} (l : list A) : head (take 1 l) = head l.
Proof. destruct l; reflexivity. Qed.

Lemma filter_key_absent {A B} (f : A -> B) (b : B)
    `{forall y, Decision (f y = b)} (l : list A) :
  b ∉ f <$> l -> filter (fun y => f y = b) l = [].
Proof.
  induction l as [|x l IH]; [reflexivity|].
  rewrite fmap_cons, not_elem_of_cons. intros [Hx Hl].
  rewrite filter_cons, decide_False by congruence. auto.
Qed.

Lemma filter_key_unique {A B} (f : A -> B) (l : list A) (x : A)
    `{forall y, Decision (f y = f x)} :
  NoDup (f <$> l) -> x ∈ l -> filter (fun y => f y = f x) l = [x].
Proof.
  induction l as [|y l IH]; [intros _ Hx; inversion Hx|].
  rewrite fmap_cons, NoDup_cons. intros [Hy Hl] Hin. rewrite filter_cons.
  apply elem_of_cons in Hin as [Heq|Hin].
  - rewrite decide_True by (rewrite Heq; reflexivity). rewrite <- Heq in Hy.
    rewrite (filter_key_absent f (f x) l Hy). rewrite Heq. reflexivity.
  - rewrite decide_False.
    + exact (IH Hl Hin).
    + intros Heq. apply Hy. rewrite Heq. apply list_elem_of_fmap. eauto.
Qed.

Lemma find_bool_decide_head {A} (P : A -> Prop) `{forall x, Decision (P x)}
    (l : list A) :
  find (fun x => bool_decide (P x)) l = head (filter P l).
Proof.
  induction l as [|x l IH]; [reflexivity|]. simpl. rewrite filter_cons.
  destruct (decide (P x)) as [HP|HP].
  - rewrite (bool_decide_eq_true_2 _ HP). reflexivity.
  - rewrite (bool_decide_eq_false_2 _ HP). exact IH.
Qed.

Lemma getUserByUuid_up (uuid : string) (w : World) :
  store_up w = true ->
  getUserByUuid uuid w
  = (Returned (head (filter (fun u => u_uuid u = uuid) (users (db w)))), sent w).
Proof.
  intros Hup. unfold getUserByUuid, bind. rewrite (sql_up _ _ Hup).
  rewrite <- (db_sent w) at 2. rewrite set_db_same. unfold ret.
  rewrite head_take_1. reflexivity.
Qed.

Lemma getUserById_up (id : N) (w : World) :
  store_up w = true ->
  getUserById id w
  = (Returned (head (filter (fun u => u_id u = id) (users (db w)))), sent w).
Proof.
  intros Hup. unfold getUserById, bind. rewrite (sql_up _ _ Hup).
  rewrite <- (db_sent w) at 2. rewrite set_db_same. unfold ret.
  rewrite head_take_1. reflexivity.
Qed.

Lemma createUser_returned (uuid username : string) (email : option string)
    (w w1 : World) (row : UserRow) :
  createUser uuid username email w = (Returned row, w1) ->
  upsert_user uuid username (or_null email) (clock w) (db w) = inr (row, db w1) /\
  w1 = set_db (db w1) (sent w).
Proof.
  unfold createUser, bind, ensureDatabase.
  destruct (nonempty (DATABASE_URL w)); [|discriminate].
  intros (_ & Hstmt & Hw)%sql_returned. auto.
Qed.

Lemma upsert_user_returned (ext username : string) (email : option string)
    (now : Z) (d d' : Database) (row : UserRow) :
  db_ok d -> upsert_user ext username email now d = inr (row, d') ->
  filter (has_uuid ext) (users d') = [row] /\
  u_uuid row = ext /\ u_name row = username /\ u_email row = email /\
  db_ok d' /\ sessions d' = sessions d.
Proof.
  intros Hok Hup.
  destruct (upsert_user_one_row ext username email now d Hok)
    as (r & d0 & H0 & Hf & Hu & Hn & He & Hok').
  rewrite Hup in H0. injection H0 as <- <-. split_and!; try assumption.
  revert Hup. unfold upsert_user. destruct (find _ _); intros [= _ <-]; reflexivity.
Qed.

Lemma filter_singleton_elem {A} (P : A -> Prop) `{forall x, Decision (P x)}
    (l : list A) (x : A) :
  filter P l = [x] -> x ∈ l /\ P x.
Proof.
  intros Hf. assert (Hin : x ∈ filter P l) by (rewrite Hf; left).
  apply list_elem_of_filter in Hin. tauto.
Qed.

(** The users loop of the join: the first user with the id of the session. *)
Lemma join_users_head (s : SessionRow) (b : bool) (us : list UserRow) :
  head (u ← us;
        if bool_decide (s_user_id s = u_id u) && b then [join_row s u] else [])
  = if b then join_row s <$> find (fun u => bool_decide (u_id u = s_user_id s)) us
    else None.
Proof.
  induction us as [|u us IH]; [destruct b; reflexivity|].
  rewrite bind_cons. simpl find.
  destruct (decide (u_id u = s_user_id s)) as [Heq|Hne].
  - rewrite (bool_decide_eq_true_2 _ Heq),
      (bool_decide_eq_true_2 (s_user_id s = u_id u)) by congruence.
    destruct b; [reflexivity|]. simpl. exact IH.
  - rewrite (bool_decide_eq_false_2 _ Hne),
      (bool_decide_eq_false_2 (s_user_id s = u_id u)) by congruence.
    simpl. exact IH.
Qed.

(** With unique tokens the nested loop of [getSessionByToken] does what the
    two lookups do. *)
Lemma select_session_lookup (tok : string) (now : Z) (d : Database) :
  NoDup (s_session_token <$> sessions d) ->
  head (select_session tok now d) = lookup_session tok now d.
Proof.
  unfold select_session, lookup_session. rewrite head_take_1.
  generalize (users d) as us. intros us.
  induction (sessions d) as [|s ss IH]; [reflexivity|].
  rewrite fmap_cons, NoDup_cons. intros [Hs Hss].
  rewrite bind_cons. simpl find.
  destruct (decide (s_session_token s = tok)) as [Heq|Hne].
  - rewrite (bool_decide_eq_true_2 _ Heq). rewrite Heq in Hs.
    rewrite (join_unmatched tok now us ss Hs), app_nil_r.
    rewrite <- (join_users_head s (bool_decide (now < s_expires_at s)) us).
    f_equal. apply list_bind_ext; [|reflexivity]. intros u.
    rewrite andb_true_r. reflexivity.
  - assert (Hnil : (u ← us;
              if bool_decide (s_user_id s = u_id u)
                 && bool_decide (s_session_token s = tok)
                 && bool_decide (now < s_expires_at s)
              then [join_row s u] else []) = []).
    { clear -Hne. induction us as [|u us IHu]; [reflexivity|].
      rewrite bind_cons, IHu, (bool_decide_eq_false_2 _ Hne), andb_false_r.
      reflexivity. }
    rewrite Hnil, app_nil_l, (bool_decide_eq_false_2 _ Hne). exact (IH Hss).
Qed.

(** X1.  On a store whose session tokens are unique, [getSessionByToken]
    returns what two point lookups give: the session row of the token, null
    if there is none or if the current instant is not before its expiry,
    joined with the user row of its [user_id], null if that user is missing. *)
Theorem X1_getSessionByToken_is_point_lookup (tok : string) (w : World) :
  db_ok (db w) -> store_up w = true ->
  getSessionByToken tok w
  = (Returned (lookup_session tok (clock w) (db w)), sent w).
Proof.
  intros Hok Hup. rewrite (getSessionByToken_up _ _ Hup).
  rewrite (select_session_lookup _ _ _ (ok_token_unique _ Hok)). reflexivity.
Qed.

Lemma X1_getSessionByToken_is_point_lookup_witness :
  getSessionByToken "tok-0" demo_session_world
  = (Returned (Some (join_row demo_session
       {| u_id := 1; u_uuid := "g-0"; u_name := "Zoe"; u_email := None;
          u_created_at := 5; u_updated_at := 5 |})),
     sent demo_session_world).
Proof.
  assert (Hok : db_ok (db demo_session_world)).
  { apply (createSession_ok 1 "tok-0" 2000 demo_world _ demo_session);
      [exact demo_world_ok|reflexivity]. }
  rewrite (X1_getSessionByToken_is_point_lookup "tok-0" demo_session_world
             Hok eq_refl).
  reflexivity.
Defined.

Lemma lookup_session_of (now : Z) (d : Database) (s : SessionRow) (u : UserRow) :
  db_ok d -> s ∈ sessions d -> u ∈ users d -> u_id u = s_user_id s ->
  lookup_session (s_session_token s) now d
  = if bool_decide (now < s_expires_at s) then Some (join_row s u) else None.
Proof.
  intros Hok Hs Hu Hid. unfold lookup_session.
  rewrite (find_bool_decide_head (fun y => s_session_token y = s_session_token s)).
  rewrite (filter_key_unique s_session_token _ s (ok_token_unique _ Hok) Hs).
  simpl. destruct (bool_decide (now < s_expires_at s)); [|reflexivity].
  rewrite <- Hid.
  rewrite (find_bool_decide_head (fun y => u_id y = u_id u)).
  rewrite (filter_key_unique u_id _ u (ok_user_id_unique _ Hok) Hu).
  reflexivity.
Qed.

Lemma getSessionByToken_of (w : World) (s : SessionRow) (u : UserRow) :
  db_ok (db w) -> store_up w = true ->
  s ∈ sessions (db w) -> u ∈ users (db w) -> u_id u = s_user_id s ->
  getSessionByToken (s_session_token s) w
  = (Returned (if bool_decide (clock w < s_expires_at s)
               then Some (join_row s u) else None), sent w).
Proof.
  intros Hok Hup Hs Hu Hid. rewrite (getSessionByToken_up _ _ Hup).
  rewrite (select_session_lookup _ _ _ (ok_token_unique _ Hok)).
  rewrite (lookup_session_of _ _ s u Hok Hs Hu Hid). reflexivity.
Qed.

(** C1.  A session returned by [createSession] with expiry [expiresAt] has the
    token and the expiry given and an owning user.  In any state holding the
    store as [createSession] left it, [getSessionByToken] on its token returns
    the session row together with the external id, the name and the email of
    that user exactly when the current instant is strictly before
    [expiresAt], and null at or after it.  The same holds later on, in every
    store that satisfies its constraints and still has the session, with the
    row of the owner as it is then.  A token with no row gives the same null,
    reached through the same state, so the caller cannot tell the two
    apart. *)
Theorem C1_session_valid_until_expiry (userId : N) (tok : string)
    (expiresAt : Z) (w w1 : World) (row : SessionRow) :
  createSession userId tok expiresAt w = (Returned row, w1) ->
  s_session_token row = tok /\ s_expires_at row = expiresAt /\
  s_user_id row = userId /\ row ∈ sessions (db w1) /\
  (exists owner, owner ∈ users (db w1) /\ u_id owner = userId /\
     forall w2, db w2 = db w1 -> store_up w2 = true ->
       getSessionByToken tok w2 =
         (Returned (if bool_decide (clock w2 < expiresAt)
                    then Some {| su_session := row; su_uuid := u_uuid owner;
                                 su_username := u_name owner;
                                 su_email := u_email owner |}
                    else None), sent w2)) /\
  (forall w2 owner, db_ok (db w2) -> store_up w2 = true ->
     row ∈ sessions (db w2) -> owner ∈ users (db w2) -> u_id owner = userId ->
     getSessionByToken tok w2 =
       (Returned (if bool_decide (clock w2 < expiresAt)
                  then Some {| su_session := row; su_uuid := u_uuid owner;
                               su_username := u_name owner;
                               su_email := u_email owner |}
                  else None), sent w2)) /\
  (forall w2 tok', store_up w2 = true ->
     tok' ∉ s_session_token <$> sessions (db w2) ->
     getSessionByToken tok' w2 = (Returned None, sent w2)).
Proof.
  intros Hc.
  apply createSession_returned in Hc as (_ & Hfk & Hfresh & Hrow & Hus & Hss & _).
  assert (Htok : s_session_token row = tok) by (rewrite Hrow; reflexivity).
  assert (Hexp : s_expires_at row = expiresAt) by (rewrite Hrow; reflexivity).
  assert (Huid : s_user_id row = userId) by (rewrite Hrow; reflexivity).
  split; [exact Htok|]. split; [exact Hexp|]. split; [exact Huid|].
  split; [rewrite Hss; apply elem_of_app; right; apply list_elem_of_singleton;
          reflexivity|].
  split; [|split].
  - destruct (join_owner userId (join_row row) _ Hfk) as (owner & Hin & Hid & Hsel).
    exists owner. split; [rewrite Hus; exact Hin|]. split; [exact Hid|].
    intros w2 Hdb Hup. rewrite (getSessionByToken_up _ _ Hup).
    unfold select_session. rewrite Hdb, Hss, Hus.
    rewrite bind_app, (join_unmatched _ _ _ _ Hfresh), app_nil_l.
    rewrite bind_cons. simpl ([] ≫= _). rewrite app_nil_r.
    assert (Hf : forall u : UserRow,
      (if bool_decide (s_user_id row = u_id u)
          && bool_decide (s_session_token row = tok)
          && bool_decide (clock w2 < s_expires_at row)
       then [join_row row u] else [])
      = (if bool_decide (userId = u_id u) && bool_decide (clock w2 < expiresAt)
         then [join_row row u] else [])).
    { intros u. rewrite Hrow. simpl.
      rewrite (bool_decide_eq_true_2 (tok = tok) eq_refl), andb_true_r.
      reflexivity. }
    rewrite (list_bind_ext _ _ _ _ Hf eq_refl), Hsel.
    destruct (bool_decide (clock w2 < expiresAt)); reflexivity.
  - intros w2 owner Hok Hup Hs Hu Hid. rewrite <- Htok, <- Hexp.
    rewrite (getSessionByToken_of w2 row owner Hok Hup Hs Hu);
      [reflexivity|congruence].
  - intros w2 tok' Hup Hno. rewrite (getSessionByToken_up _ _ Hup).
    unfold select_session. rewrite (join_unmatched _ _ _ _ Hno). reflexivity.
Qed.

(** On the sample store: the session of Zoe resolves to her until its expiry,
    and still does, under her new name, once her profile has been updated. *)
Lemma C1_session_valid_until_expiry_witness :
  createSession 1 "tok-0" 2000 demo_world
    = (Returned demo_session, demo_session_world) /\
  fst (getSessionByToken "tok-0" (set_clock 1999 demo_session_world))
  = Returned (Some {| su_session := demo_session; su_uuid := "g-0";
                      su_username := "Zoe"; su_email := None |}) /\
  fst (getSessionByToken "tok-0" (set_clock 2000 demo_session_world))
  = Returned None /\
  fst (getSessionByToken "tok-0"
         (snd (createUser "g-0" "Zoe B." (Some "zoe@example.org")
                 (set_clock 1500 demo_session_world))))
  = Returned (Some {| su_session := demo_session; su_uuid := "g-0";
                      su_username := "Zoe B.";
                      su_email := Some "zoe@example.org" |}).
Proof.
  split; [reflexivity|].
  destruct (C1_session_valid_until_expiry 1 "tok-0" 2000 demo_world
              demo_session_world demo_session eq_refl)
    as (_ & _ & _ & _ & (owner & Hin & Hid & Hvalid) & Hlater & _).
  assert (Howner : owner = {| u_id := 1; u_uuid := "g-0"; u_name := "Zoe";
                              u_email := None; u_created_at := 5;
                              u_updated_at := 5 |}).
  { vm_compute in Hin. apply list_elem_of_singleton in Hin. exact Hin. }
  subst owner. split; [|split].
  - rewrite (Hvalid (set_clock 1999 demo_session_world) eq_refl eq_refl).
    reflexivity.
  - rewrite (Hvalid (set_clock 2000 demo_session_world) eq_refl eq_refl).
    reflexivity.
  - rewrite (Hlater _ {| u_id := 1; u_uuid := "g-0"; u_name := "Zoe B.";
                         u_email := Some "zoe@example.org"; u_created_at := 5;
                         u_updated_at := 1500 |});
      [reflexivity| |reflexivity| | |reflexivity].
    + vm_compute. constructor; vm_compute; repeat constructor;
        set_solver.
    + vm_compute. apply list_elem_of_singleton. reflexivity.
    + vm_compute. apply list_elem_of_singleton. reflexivity.
Defined.

(** X2.  On a reachable store that satisfies its constraints, every user row
    is what [getUserByUuid] returns for its external id and what
    [getUserById] returns for its internal id; for an external id or an
    internal id that no row has, they return null. *)
Theorem X2_user_lookups_by_key (w : World) :
  db_ok (db w) -> store_up w = true ->
  (forall u, u ∈ users (db w) ->
     getUserByUuid (u_uuid u) w = (Returned (Some u), sent w) /\
     getUserById (u_id u) w = (Returned (Some u), sent w)) /\
  (forall uuid, uuid ∉ u_uuid <$> users (db w) ->
     getUserByUuid uuid w = (Returned None, sent w)) /\
  (forall id, id ∉ u_id <$> users (db w) ->
     getUserById id w = (Returned None, sent w)).
Proof.
  intros Hok Hup. split_and!.
  - intros u Hu. rewrite (getUserByUuid_up _ _ Hup), (getUserById_up _ _ Hup).
    rewrite (filter_key_unique u_uuid _ u (ok_uuid_unique _ Hok) Hu).
    rewrite (filter_key_unique u_id _ u (ok_user_id_unique _ Hok) Hu).
    split; reflexivity.
  - intros uuid Hno. rewrite (getUserByUuid_up _ _ Hup).
    rewrite (filter_key_absent u_uuid uuid _ Hno). reflexivity.
  - intros id Hno. rewrite (getUserById_up _ _ Hup).
    rewrite (filter_key_absent u_id id _ Hno). reflexivity.
Qed.

Lemma X2_user_lookups_by_key_witness :
  getUserByUuid "g-0" demo_world
  = (Returned (Some {| u_id := 1; u_uuid := "g-0"; u_name := "Zoe";
                       u_email := None; u_created_at := 5; u_updated_at := 5 |}),
     sent demo_world) /\
  getUserById 7 demo_world = (Returned None, sent demo_world).
Proof.
  destruct (X2_user_lookups_by_key demo_world demo_world_ok eq_refl)
    as (Hrow & _ & Hid).
  split.
  - apply (Hrow {| u_id := 1; u_uuid := "g-0"; u_name := "Zoe";
                   u_email := None; u_created_at := 5; u_updated_at := 5 |}).
    simpl. left.
  - apply Hid. simpl. intros [=]%list_elem_of_singleton.
Defined.

(** X3.  The row [createUser] returns is the row both lookups find
    afterwards: [getUserByUuid] by the external id given, [getUserById] by the
    id of the returned row; it carries the name given and the email given, an
    empty email as null. *)
Theorem X3_createUser_then_lookup (uuid username : string)
    (email : option string) (w w1 : World) (row : UserRow) :
  db_ok (db w) ->
  createUser uuid username email w = (Returned row, w1) ->
  u_uuid row = uuid /\ u_name row = username /\ u_email row = or_null email /\
  forall w2, db w2 = db w1 -> store_up w2 = true ->
    getUserByUuid uuid w2 = (Returned (Some row), sent w2) /\
    getUserById (u_id row) w2 = (Returned (Some row), sent w2).
Proof.
  intros Hok (Hstmt & _)%createUser_returned.
  destruct (upsert_user_returned _ _ _ _ _ _ _ Hok Hstmt)
    as (Hf & Hu & Hn & He & Hok1 & _).
  split_and!; try assumption.
  intros w2 Hdb Hup.
  apply filter_singleton_elem in Hf as [Hin _].
  rewrite (getUserByUuid_up _ _ Hup), (getUserById_up _ _ Hup), Hdb, <- Hu.
  rewrite (filter_key_unique u_uuid _ row (ok_uuid_unique _ Hok1) Hin).
  rewrite (filter_key_unique u_id _ row (ok_user_id_unique _ Hok1) Hin).
  split; reflexivity.
Qed.

Lemma X3_createUser_then_lookup_witness :
  let w1 := snd (createUser "g-1" "Ann" (Some "") demo_world) in
  let row := {| u_id := 2; u_uuid := "g-1"; u_name := "Ann"; u_email := None;
                u_created_at := 1000; u_updated_at := 1000 |} in
  getUserByUuid "g-1" w1 = (Returned (Some row), sent w1) /\
  getUserById 2 w1 = (Returned (Some row), sent w1).
Proof.
  intros w1 row.
  destruct (X3_createUser_then_lookup "g-1" "Ann" (Some "") demo_world w1 row
              demo_world_ok eq_refl) as (_ & _ & _ & Hfind).
  exact (Hfind w1 eq_refl eq_refl).
Defined.

(** X4.  A session created for the user [createUser] returned resolves to
    that user: until its expiry [getSessionByToken] returns the session with
    the external id, the name and the email of that [createUser] call, and
    null from its expiry on. *)
Theorem X4_session_of_upserted_user (uuid username tok : string)
    (email : option string) (expiresAt : Z) (w w1 w1' w2 : World)
    (user : UserRow) (s : SessionRow) :
  db_ok (db w) ->
  createUser uuid username email w = (Returned user, w1) ->
  db w1' = db w1 ->
  createSession (u_id user) tok expiresAt w1' = (Returned s, w2) ->
  forall w3, db w3 = db w2 -> store_up w3 = true ->
    getSessionByToken tok w3
    = (Returned (if bool_decide (clock w3 < expiresAt)
                 then Some {| su_session := s; su_uuid := uuid;
                              su_username := username;
                              su_email := or_null email |}
                 else None), sent w3).
Proof.
  intros Hok (Hstmt & _)%createUser_returned Hdb1 Hcs w3 Hdb3 Hup.
  destruct (upsert_user_returned _ _ _ _ _ _ _ Hok Hstmt)
    as (Hf & Hu & Hn & He & Hok1 & _).
  apply filter_singleton_elem in Hf as [Hin _].
  rewrite <- Hdb1 in Hok1, Hin.
  pose proof (createSession_ok _ _ _ _ _ _ Hok1 Hcs) as Hok2.
  apply createSession_returned in Hcs as (_ & _ & _ & Hrow & Hus & Hss & _).
  assert (Htok : s_session_token s = tok) by (rewrite Hrow; reflexivity).
  assert (Hexp : s_expires_at s = expiresAt) by (rewrite Hrow; reflexivity).
  assert (Hid : u_id user = s_user_id s) by (rewrite Hrow; reflexivity).
  rewrite <- Hdb3 in Hok2, Hus, Hss.
  rewrite <- Htok, <- Hexp.
  rewrite (getSessionByToken_of w3 s user Hok2 Hup).
  - unfold join_row. rewrite Hu, Hn, He. reflexivity.
  - rewrite Hss. apply elem_of_app. right. left.
  - rewrite Hus. exact Hin.
  - exact Hid.
Qed.

Lemma X4_session_of_upserted_user_witness :
  let w1 := snd (createUser "g-1" "Ann" (Some "ann@example.org") demo_world) in
  let w2 := snd (createSession 2 "tok-1" 3000 w1) in
  exists s,
    getSessionByToken "tok-1" w2
    = (Returned (Some {| su_session := s; su_uuid := "g-1";
                         su_username := "Ann";
                         su_email := Some "ann@example.org" |}), sent w2).
Proof.
  intros w1 w2.
  exists {| s_id := 1; s_user_id := 2; s_session_token := "tok-1";
            s_expires_at := 3000; s_created_at := 1000 |}.
  exact (X4_session_of_upserted_user "g-1" "Ann" "tok-1"
           (Some "ann@example.org") 3000 demo_world w1 w1 w2
           {| u_id := 2; u_uuid := "g-1"; u_name := "Ann";
              u_email := Some "ann@example.org"; u_created_at := 1000;
              u_updated_at := 1000 |}
           _ demo_world_ok eq_refl eq_refl eq_refl w2 eq_refl eq_refl).
Defined.

(** X5.  The join of [getSessionByToken] reads the user row as it is now:
    once [createUser] has been called again for the owner of a session, the
    session resolves to the new name and email, with the same external id and
    the same session row. *)
Theorem X5_profile_update_visible_in_sessions (w w1 : World) (s : SessionRow)
    (u u2 : UserRow) (username : string) (email : option string) :
  db_ok (db w) -> s ∈ sessions (db w) -> u ∈ users (db w) ->
  u_id u = s_user_id s ->
  createUser (u_uuid u) username email w = (Returned u2, w1) ->
  forall w2, db w2 = db w1 -> store_up w2 = true ->
    getSessionByToken (s_session_token s) w2
    = (Returned (if bool_decide (clock w2 < s_expires_at s)
                 then Some {| su_session := s; su_uuid := u_uuid u;
                              su_username := username;
                              su_email := or_null email |}
                 else None), sent w2).
Proof.
  intros Hok Hs Hu Hid (Hstmt & _)%createUser_returned w2 Hdb Hup.
  destruct (upsert_user_returned _ _ _ _ _ _ _ Hok Hstmt)
    as (Hf & Huu & Hn & He & Hok1 & Hss).
  apply filter_singleton_elem in Hf as [Hin _].
  assert (Hid2 : u_id u2 = u_id u).
  { pose proof (filter_key_unique u_uuid (users (db w)) u
                  (H := has_uuid_dec (u_uuid u)) (ok_uuid_unique _ Hok) Hu) as Hone.
    rewrite (upsert_user_conflict _ _ _ _ _ u Hone) in Hstmt.
    injection Hstmt as <- _. reflexivity. }
  rewrite <- Hdb in Hok1, Hin, Hss.
  rewrite (getSessionByToken_of w2 s u2 Hok1 Hup).
  - unfold join_row. rewrite Huu, Hn, He. reflexivity.
  - rewrite Hss. exact Hs.
  - exact Hin.
  - congruence.
Qed.

Lemma X5_profile_update_visible_in_sessions_witness :
  let w1 := snd (createUser "g-0" "Zoe B." (Some "zoe@example.org")
                   demo_session_world) in
  getSessionByToken "tok-0" w1
  = (Returned (Some {| su_session := demo_session; su_uuid := "g-0";
                       su_username := "Zoe B.";
                       su_email := Some "zoe@example.org" |}), sent w1).
Proof.
  intros w1.
  assert (Hok : db_ok (db demo_session_world)).
  { apply (createSession_ok 1 "tok-0" 2000 demo_world _ demo_session);
      [exact demo_world_ok|reflexivity]. }
  exact (X5_profile_update_visible_in_sessions demo_session_world w1
           demo_session
           {| u_id := 1; u_uuid := "g-0"; u_name := "Zoe"; u_email := None;
              u_created_at := 5; u_updated_at := 5 |}
           {| u_id := 1; u_uuid := "g-0"; u_name := "Zoe B.";
              u_email := Some "zoe@example.org"; u_created_at := 5;
              u_updated_at := 1000 |}
           "Zoe B." (Some "zoe@example.org") Hok
           ltac:(simpl; left) ltac:(simpl; left) eq_refl eq_refl
           w1 eq_refl eq_refl).
Defined.

Lemma bind_filter_irrelevant {A B} (P : A -> Prop) `{forall x, Decision (P x)}
    (f : A -> list B) (l : list A) :
  (forall x, x ∈ l -> ¬ P x -> f x = []) -> filter P l ≫= f = l ≫= f.
Proof.
  induction l as [|x l IH]; [reflexivity|]. intros Hf.
  assert (Hl : forall y, y ∈ l -> ¬ P y -> f y = [])
    by (intros y Hy; apply Hf; right; exact Hy).
  rewrite filter_cons, bind_cons. destruct (decide (P x)) as [HP|HP].
  - rewrite bind_cons, (IH Hl). reflexivity.
  - rewrite (Hf x ltac:(left) HP), (IH Hl). reflexivity.
Qed.

Lemma join_row_unmatched (tok : string) (now : Z) (us : list UserRow)
    (s : SessionRow) :
  s_session_token s ≠ tok ->
  (u ← us;
   if bool_decide (s_user_id s = u_id u)
      && bool_decide (s_session_token s = tok)
      && bool_decide (now < s_expires_at s)
   then [join_row s u] else []) = [].
Proof.
  intros Hne. induction us as [|u us IH]; [reflexivity|].
  rewrite bind_cons, IH, (bool_decide_eq_false_2 _ Hne), andb_false_r.
  reflexivity.
Qed.

Lemma join_row_expired (tok : string) (now : Z) (us : list UserRow)
    (s : SessionRow) :
  ¬ (now < s_expires_at s) ->
  (u ← us;
   if bool_decide (s_user_id s = u_id u)
      && bool_decide (s_session_token s = tok)
      && bool_decide (now < s_expires_at s)
   then [join_row s u] else []) = [].
Proof.
  intros Hne. induction us as [|u us IH]; [reflexivity|].
  rewrite bind_cons, IH, (bool_decide_eq_false_2 _ Hne), andb_false_r.
  reflexivity.
Qed.

Lemma deleteSession_returned (tok : string) (w w1 : World) :
  deleteSession tok w = (Returned tt, w1) ->
  db w1 = set_sessions
            (filter (fun s => s_session_token s ≠ tok) (sessions (db w))) (db w).
Proof. intros (_ & Hstmt & _)%sql_returned. injection Hstmt as <-. reflexivity. Qed.

(** X6.  Once [deleteSession] has returned, [getSessionByToken] of its token
    gives null at every instant, whether or not there was a row; the users
    are as before, and for every other token the answer is the one the store
    gave before the deletion. *)
Theorem X6_deleteSession_removes_only_its_token (tok : string) (w w1 : World) :
  deleteSession tok w = (Returned tt, w1) ->
  users (db w1) = users (db w) /\
  (forall w2, db w2 = db w1 -> store_up w2 = true ->
     getSessionByToken tok w2 = (Returned None, sent w2)) /\
  (forall tok' w2, tok' ≠ tok -> db w2 = db w1 -> store_up w2 = true ->
     getSessionByToken tok' w2
     = (Returned (head (select_session tok' (clock w2) (db w))), sent w2)).
Proof.
  intros Hdel. pose proof (deleteSession_gone _ _ _ Hdel) as Hgone.
  apply deleteSession_returned in Hdel as Hdb. split_and!.
  - rewrite Hdb. reflexivity.
  - intros w2 Hdb2 Hup. rewrite (getSessionByToken_up _ _ Hup), Hdb2.
    unfold select_session. rewrite (join_unmatched _ _ _ _ Hgone). reflexivity.
  - intros tok' w2 Hne Hdb2 Hup.
    rewrite (getSessionByToken_up _ _ Hup), Hdb2, Hdb.
    unfold select_session. simpl.
    rewrite bind_filter_irrelevant; [reflexivity|]. intros s _ Hs.
    apply join_row_unmatched. intros Heq. apply Hs. congruence.
Qed.

Lemma X6_deleteSession_removes_only_its_token_witness :
  let w1 := snd (deleteSession "tok-0" demo_session_world) in
  getSessionByToken "tok-0" w1 = (Returned None, sent w1) /\
  users (db w1) = users (db demo_session_world).
Proof.
  intros w1.
  destruct (X6_deleteSession_removes_only_its_token "tok-0"
              demo_session_world w1 eq_refl) as (Hus & Hgone & _).
  split; [exact (Hgone w1 eq_refl eq_refl)|exact Hus].
Defined.

Lemma cleanupExpiredSessions_returned (w w1 : World) :
  cleanupExpiredSessions w = (Returned tt, w1) ->
  db w1 = set_sessions
            (filter (fun s => ¬ (s_expires_at s < clock w)) (sessions (db w)))
            (db w).
Proof. intros (_ & Hstmt & _)%sql_returned. injection Hstmt as <-. reflexivity. Qed.

Lemma lookup_session_expired (now : Z) (d : Database) (s : SessionRow) :
  NoDup (s_session_token <$> sessions d) -> s ∈ sessions d ->
  s_expires_at s <= now ->
  lookup_session (s_session_token s) now d = None.
Proof.
  intros Hnd Hs Hexp. unfold lookup_session.
  rewrite (find_bool_decide_head (fun y => s_session_token y = s_session_token s)).
  rewrite (filter_key_unique s_session_token _ s Hnd Hs). simpl.
  rewrite bool_decide_eq_false_2 by lia. reflexivity.
Qed.

(** X7.  [cleanupExpiredSessions] deletes the sessions whose expiry is
    strictly before the current instant and no other row.  No caller of
    [getSessionByToken] can notice it: from the instant of the clean-up on,
    every token gets the answer the store would have given without it.  A
    session that expires exactly at that instant is kept, although
    [getSessionByToken] does not return it any more. *)
Theorem X7_cleanupExpiredSessions_is_unobservable (w w1 : World) :
  cleanupExpiredSessions w = (Returned tt, w1) ->
  users (db w1) = users (db w) /\
  (forall s, s ∈ sessions (db w1) <->
             s ∈ sessions (db w) /\ clock w <= s_expires_at s) /\
  (forall tok w2, db w2 = db w1 -> clock w <= clock w2 -> store_up w2 = true ->
     getSessionByToken tok w2
     = (Returned (head (select_session tok (clock w2) (db w))), sent w2)) /\
  (forall s, s ∈ sessions (db w) -> s_expires_at s = clock w ->
     s ∈ sessions (db w1) /\
     (NoDup (s_session_token <$> sessions (db w)) -> store_up w = true ->
      getSessionByToken (s_session_token s) w = (Returned None, sent w))).
Proof.
  intros Hdb%cleanupExpiredSessions_returned. split_and!.
  - rewrite Hdb. reflexivity.
  - intros s. rewrite Hdb. simpl. rewrite list_elem_of_filter. split.
    + intros [Hk Hin]. split; [exact Hin|lia].
    + intros [Hin Hk]. split; [lia|exact Hin].
  - intros tok w2 Hdb2 Hclock Hup.
    rewrite (getSessionByToken_up _ _ Hup), Hdb2, Hdb.
    unfold select_session. simpl.
    rewrite bind_filter_irrelevant; [reflexivity|]. intros s _ Hs.
    apply join_row_expired. lia.
  - intros s Hin Hexp. split.
    + rewrite Hdb. simpl. apply list_elem_of_filter. split; [lia|exact Hin].
    + intros Hnd Hup. rewrite (getSessionByToken_up _ _ Hup).
      rewrite (select_session_lookup _ _ _ Hnd).
      rewrite (lookup_session_expired _ _ s Hnd Hin) by lia. reflexivity.
Qed.

Lemma X7_cleanupExpiredSessions_is_unobservable_witness :
  let w := set_clock 2000 demo_session_world in
  let w1 := snd (cleanupExpiredSessions w) in
  sessions (db w1) = [demo_session] /\
  getSessionByToken "tok-0" w1 = (Returned None, sent w1).
Proof.
  intros w w1.
  destruct (X7_cleanupExpiredSessions_is_unobservable w w1 eq_refl)
    as (_ & _ & Hsame & _).
  split; [reflexivity|].
  rewrite (Hsame "tok-0" w1 eq_refl ltac:(simpl; lia) eq_refl). reflexivity.
Defined.

(** X8.  [createSession] adds its row and changes nothing else: the users
    are as before and every other token gets the answer it got before, so a
    user keeps the sessions already held - the store puts no limit on the
    sessions of a user. *)
Theorem X8_createSession_keeps_other_sessions (userId : N) (tok : string)
    (expiresAt : Z) (w w1 : World) (s : SessionRow) :
  createSession userId tok expiresAt w = (Returned s, w1) ->
  users (db w1) = users (db w) /\
  (forall tok' w2, tok' ≠ tok -> db w2 = db w1 -> store_up w2 = true ->
     getSessionByToken tok' w2
     = (Returned (head (select_session tok' (clock w2) (db w))), sent w2)).
Proof.
  intros (_ & _ & _ & Hrow & Hus & Hss & _)%createSession_returned.
  split; [exact Hus|].
  intros tok' w2 Hne Hdb2 Hup. rewrite (getSessionByToken_up _ _ Hup), Hdb2.
  unfold select_session. rewrite Hss, Hus, bind_app, bind_cons.
  rewrite (join_row_unmatched tok' (clock w2) (users (db w)) s)
    by (rewrite Hrow; simpl; congruence).
  simpl. rewrite !app_nil_r. reflexivity.
Qed.

Lemma X8_createSession_keeps_other_sessions_witness :
  let w1 := snd (createSession 1 "tok-1" 5000 demo_session_world) in
  exists row, getSessionByToken "tok-0" w1 = (Returned (Some row), sent w1) /\
              su_session row = demo_session.
Proof.
  intros w1.
  destruct (X8_createSession_keeps_other_sessions 1 "tok-1" 5000
              demo_session_world w1
              {| s_id := 2; s_user_id := 1; s_session_token := "tok-1";
                 s_expires_at := 5000; s_created_at := 1000 |} eq_refl)
    as (_ & Hkeep).
  eexists. rewrite (Hkeep "tok-0" w1 ltac:(discriminate) eq_refl eq_refl).
  split; reflexivity.
Defined.

Lemma sql_db_cases {A} (stmt : Z -> Database -> exn + A * Database) (w : World) :
  db (snd (sql stmt w)) = db w \/
  exists a, stmt (clock w) (db w) = inr (a, db (snd (sql stmt w))).
Proof.
  unfold sql. destruct (nonempty (DATABASE_URL w)); [|left; reflexivity].
  destruct (outages w) as [|[m|] rest]; try (left; reflexivity);
    destruct (stmt (clock w) (db w)) as [e|[a d]] eqn:Hs;
    try (left; reflexivity); right; exists a; reflexivity.
Qed.

Lemma db_ok_filter_sessions (P : SessionRow -> Prop)
    `{forall s, Decision (P s)} (d : Database) :
  db_ok d -> db_ok (set_sessions (filter P (sessions d)) d).
Proof.
  intros [Huu Hid Hseq Htok Hfk]. constructor; simpl; try assumption.
  - apply (sublist_NoDup _ (s_session_token <$> sessions d)); [exact Htok|].
    apply fmap_sublist, sublist_filter.
  - apply Forall_forall. intros s [_ Hs]%list_elem_of_filter.
    rewrite Forall_forall in Hfk. exact (Hfk s Hs).
Qed.

(** X9.  The constraints of the store - unique external ids, unique internal
    ids below the sequence, unique session tokens, every session owned by an
    existing user - are kept by [createUser], [createSession], [deleteSession]
    and [cleanupExpiredSessions], whether they return or throw; and none of
    them removes a user or changes the internal id of one. *)
Theorem X9_store_constraints_are_kept (w : World) :
  db_ok (db w) ->
  (forall uuid username email,
     db_ok (db (snd (createUser uuid username email w))) /\
     u_id <$> users (db w)
       `prefix_of` u_id <$> users (db (snd (createUser uuid username email w)))) /\
  (forall userId tok expiresAt,
     db_ok (db (snd (createSession userId tok expiresAt w))) /\
     users (db (snd (createSession userId tok expiresAt w))) = users (db w)) /\
  (forall tok,
     db_ok (db (snd (deleteSession tok w))) /\
     users (db (snd (deleteSession tok w))) = users (db w)) /\
  (db_ok (db (snd (cleanupExpiredSessions w))) /\
   users (db (snd (cleanupExpiredSessions w))) = users (db w)).
Proof.
  intros Hok. split; [|split; [|split]].
  - intros uuid username email. unfold createUser, bind, ensureDatabase.
    destruct (nonempty (DATABASE_URL w)); [|split; [exact Hok|reflexivity]].
    destruct (sql_db_cases (upsert_user uuid username (or_null email)) w)
      as [->|[row Hstmt]]; [split; [exact Hok|reflexivity]|].
    destruct (upsert_user_returned _ _ _ _ _ _ _ Hok Hstmt)
      as (_ & _ & _ & _ & Hok1 & _).
    split; [exact Hok1|].
    revert Hstmt. unfold upsert_user.
    destruct (find _ _); intros [= _ <-]; simpl.
    + rewrite refresh_id. reflexivity.
    + rewrite fmap_app. apply prefix_app_r. reflexivity.
  - intros userId tok expiresAt. unfold createSession.
    destruct (sql_db_cases (insert_session userId tok expiresAt) w)
      as [->|[row Hstmt]]; [split; [exact Hok|reflexivity]|].
    revert Hstmt. unfold insert_session.
    destruct (bool_decide (userId ∈ _)) eqn:Hfk; simpl; [|discriminate].
    destruct (bool_decide (tok ∈ _)) eqn:Htok; simpl; [discriminate|].
    apply bool_decide_eq_true in Hfk. apply bool_decide_eq_false in Htok.
    intros [= _ <-]. split; [|reflexivity].
    destruct Hok as [Huu Hid Hseq Htk Hf]. constructor; simpl; try assumption.
    + rewrite fmap_app. apply NoDup_app. split; [exact Htk|].
      split; [|apply NoDup_singleton].
      intros x Hx ->%list_elem_of_singleton. exact (Htok Hx).
    + apply Forall_app. split; [exact Hf|]. apply Forall_singleton. exact Hfk.
  - intros tok. unfold deleteSession.
    destruct (sql_db_cases (fun (_ : Z) d =>
                inr (tt, set_sessions
                           (filter (fun s => s_session_token s ≠ tok) (sessions d))
                           d)) w) as [->|[[] Hstmt]];
      [split; [exact Hok|reflexivity]|].
    injection Hstmt as <-. split; [|reflexivity].
    exact (db_ok_filter_sessions _ _ Hok).
  - unfold cleanupExpiredSessions.
    destruct (sql_db_cases (fun now d =>
                inr (tt, set_sessions
                           (filter (fun s => ¬ (s_expires_at s < now)) (sessions d))
                           d)) w) as [->|[[] Hstmt]];
      [split; [exact Hok|reflexivity]|].
    injection Hstmt as <-. split; [|reflexivity].
    exact (db_ok_filter_sessions _ _ Hok).
Qed.

Lemma X9_store_constraints_are_kept_witness :
  db_ok (db (snd (createSession 1 "tok-0" 2000 demo_world))) /\
  db_ok (db (snd (createSession 9 "tok-0" 2000 demo_world))).
Proof.
  destruct (X9_store_constraints_are_kept demo_world demo_world_ok)
    as (_ & Hcs & _).
  split; [exact (proj1 (Hcs 1%N "tok-0" 2000))|exact (proj1 (Hcs 9%N "tok-0" 2000))].
Defined.

(** ** Further properties of api/auth.ts *)

Section EndpointFacts.

Context {lib : AuthLib}.

(** The value [handleSignIn] passes on as post-login path. *)
Lemma handleSignIn_cases (req : Req) (w : World) :
  exists w1,
    (exists url, handleSignIn req w
                 = (Returned tt, set_res (redirected 302 url (res w1)) w1)) \/
    (exists e, handleSignIn req w
               = (Returned tt, set_res (json_sent 500 (internal_error e) (res w1)) w1)).
Proof.
  unfold handleSignIn, try_catch, bind.
  destruct (generateStateToken _ w) as [[state|e] w1];
    [|exists w1; right; exists e; reflexivity].
  destruct (getGoogleAuthUrl state w1) as [[url|e] w2];
    [|exists w2; right; exists e; reflexivity].
  unfold redirect. destruct (header_value_ok url).
  - exists w2. left. exists url. reflexivity.
  - exists w2. right. eexists. reflexivity.
Qed.

Lemma handleCallback_cases (req : Req) (w : World) :
  (exists w1 loc,
     handleCallback req w
     = (Returned tt, set_res (redirected 302 loc (res w1)) w1)) \/
  (exists e0 w1,
     callback_body req w = (Threw e0, w1) /\
     has_lone_surrogate (errorMessage e0) = true /\
     handleCallback req w = (Threw (JsError "URI malformed"), w1)).
Proof.
  destruct (callback_body req w) as [[[]|e] w1] eqn:Hbody.
  2: { rewrite (handleCallback_caught _ _ _ _ Hbody).
       destruct (has_lone_surrogate (errorMessage e)) eqn:Hwf; [right|left]; eauto. }
  left. unfold handleCallback, try_catch. rewrite Hbody. revert Hbody.
  assert (Hred : forall url w0, redirect 302 url w0 = (Returned tt, w1) ->
            exists w2 loc, (Returned tt, w1)
                           = (Returned tt, set_res (redirected 302 loc (res w2)) w2)).
  { intros url w0. unfold redirect. destruct (header_value_ok url); [|discriminate].
    intros [= <-]. eauto. }
  unfold callback_body. destruct (truthy (query req !! "error")).
  { rewrite redirect_encoded. destruct (has_lone_surrogate _); [discriminate|].
    intros [= <-]. eauto. }
  destruct (query req !! "code") as [[code|l]|]; [|apply Hred..].
  destruct (bool_decide (code = "")); [apply Hred|]. unfold bind.
  destruct (getGoogleUserInfo code w) as [[gu|e] wa]; [|discriminate].
  destruct (negb (nonempty (g_email gu))); [apply Hred|].
  destruct (createUserSession _ _ _ wa) as [[tok|e] wb]; [|discriminate].
  destruct (setSessionCookie tok wb) as [[[]|e] wc]; [|discriminate].
  destruct (verifyStateToken _ wc) as [[st|e] wd]; [|discriminate].
  apply Hred.
Qed.

Lemma handleSignOut_cases (req : Req) (w : World) :
  (exists w1, handleSignOut req w
              = (Returned tt, set_res (json_sent 200 signed_out (res w1)) w1)) \/
  (exists w1 e, handleSignOut req w
                = (Returned tt,
                   set_res (json_sent 500 (internal_error e) (res w1)) w1)) \/
  (exists e w1 w', handleSignOut req w = (Threw e, w') /\
                   clearSessionCookie w1 = (Threw e, w')).
Proof.
  unfold handleSignOut, try_catch, bind.
  assert (Hcatch : forall e0 w0,
    (exists w1 e, (let (o, w') := clearSessionCookie w0 in
                   match o with
                   | Returned _ => status_json 500 (internal_error e0) w'
                   | Threw e1 => (Threw e1, w')
                   end)
                  = (Returned tt,
                     set_res (json_sent 500 (internal_error e) (res w1)) w1)) \/
    (exists e w1 w', (let (o, w') := clearSessionCookie w0 in
                      match o with
                      | Returned _ => status_json 500 (internal_error e0) w'
                      | Threw e1 => (Threw e1, w')
                      end) = (Threw e, w') /\
                     clearSessionCookie w1 = (Threw e, w'))).
  { intros e0 w0. destruct (clearSessionCookie w0) as [[[]|e1] w'] eqn:Hc.
    - left. eexists _, _. reflexivity.
    - right. exists e1, w0, w'. auto. }
  destruct (getSessionToken req w) as [[tok|e] w1]; [|right; apply Hcatch].
  destruct (match tok with
            | Some token => if bool_decide (token = "") then ret tt
                            else destroySession token
            | None => ret tt
            end w1) as [[[]|e] w2]; [|right; apply Hcatch].
  destruct (clearSessionCookie w2) as [[[]|e] w3]; [|right; apply Hcatch].
  left. exists w3. reflexivity.
Qed.

Lemma route_returns (req : Req) (w : World) :
  (exists h, route req w = (Returned (h req), w) /\
     ((h = handleSignIn /\ action_of req = QStr "signin") \/
      (h = handleSignOut /\ action_of req = QStr "signout" /\
       method req = Some "POST") \/
      (h = handleStatus /\ action_of req = QStr "status") \/
      (h = handleCallback /\ action_of req = QStr "callback" /\
       method req = Some "GET"))) \/
  (exists code v, (code = 400 \/ code = 405) /\
     route req w = (Returned (ret tt), set_res (json_sent code v (res w)) w)).
Proof.
  unfold route. destruct (action_of req) as [a|l];
    [|right; eexists 400, _; split; [auto|reflexivity]].
  repeat case_bool_decide; subst;
    try (right; eexists 400, _; split; [auto|reflexivity]);
    rewrite guarded_run; case_bool_decide;
    try (right; eexists 405, _; split; [auto|reflexivity]);
    left; eexists; (split; [reflexivity|]); auto 10.
Qed.

(** X10.  Whatever the library does, if [handler] returns, a response has
    been sent and its status is 200, 302, 400, 405 or 500.  The promise it
    returns can reject in two ways only, both inside the [catch] of an action:
    for a [POST] sign-out, when [clearSessionCookie] throws there, and for a
    [GET] callback, when the message of the caught error holds a surrogate
    without partner and [encodeURIComponent] throws its [URIError] there.  An
    [OPTIONS] request gets 200 with the CORS headers before anything else is
    looked at: no action is routed and nothing but the response changes. *)
Theorem X10_handler_always_answers (req : Req) (w : World) :
  (method req = Some "OPTIONS" ->
   handler req w = (Returned tt, set_res (ended 200 (cors (res w))) w)) /\
  (forall w', handler req w = (Returned tt, w') ->
     finished (res w') = true /\
     statusCode (res w') ∈ [200; 302; 400; 405; 500]) /\
  (forall e w', handler req w = (Threw e, w') ->
     (action_of req = QStr "signout" /\ method req = Some "POST" /\
      exists w1, clearSessionCookie w1 = (Threw e, w')) \/
     (action_of req = QStr "callback" /\ method req = Some "GET" /\
      e = JsError "URI malformed" /\
      exists e0,
        callback_body req (set_res (cors (res w)) w) = (Threw e0, w') /\
        has_lone_surrogate (errorMessage e0) = true)).
Proof.
  rewrite handler_run. split_and!.
  - intros Hm. rewrite (bool_decide_eq_true_2 _ Hm). reflexivity.
  - intros w'. case_bool_decide.
    { intros [= <-]. simpl. split; [reflexivity|set_solver]. }
    destruct (route_returns req (set_res (cors (res w)) w))
      as [(h & -> & Hh)|(code & v & Hcode & ->)].
    + destruct Hh as [[-> _]|[[-> _]|[[-> _]|[-> _]]]].
      * destruct (handleSignIn_cases req (set_res (cors (res w)) w))
          as (w1 & [(url & ->)|(e & ->)]);
          intros [= <-]; simpl; (split; [reflexivity|set_solver]).
      * destruct (handleSignOut_cases req (set_res (cors (res w)) w))
          as [(w1 & ->)|[(w1 & e & ->)|(e & w1 & w2 & -> & _)]];
          intros [= <-]; simpl; (split; [reflexivity|set_solver]).
      * destruct (handleStatus_200 req (set_res (cors (res w)) w)) as (w1 & v & ->).
        intros [= <-]. simpl. split; [reflexivity|set_solver].
      * destruct (handleCallback_cases req (set_res (cors (res w)) w))
          as [(w1 & loc & ->)|(e0 & w1 & _ & _ & ->)]; [|discriminate].
        intros [= <-]. simpl. split; [reflexivity|set_solver].
    + intros [= <-]. simpl. split; [reflexivity|].
      destruct Hcode as [-> | ->]; set_solver.
  - intros e w'. case_bool_decide; [discriminate|].
    destruct (route_returns req (set_res (cors (res w)) w))
      as [(h & -> & Hh)|(code & v & Hcode & ->)]; [|discriminate].
    destruct Hh as [[-> _]|[[-> [Ha Hm]]|[[-> _]|[-> [Ha Hm]]]]].
    + destruct (handleSignIn_cases req (set_res (cors (res w)) w))
        as (w1 & [(url & ->)|(e' & ->)]); discriminate.
    + destruct (handleSignOut_cases req (set_res (cors (res w)) w))
        as [(w1 & ->)|[(w1 & e' & ->)|(e' & w1 & w2 & -> & Hclear)]];
        try discriminate.
      intros [= <- <-]. left. eauto.
    + destruct (handleStatus_200 req (set_res (cors (res w)) w)) as (w1 & v & ->).
      discriminate.
    + destruct (handleCallback_cases req (set_res (cors (res w)) w))
        as [(w1 & loc & ->)|(e0 & w1 & Hbody & Hwf & ->)]; [discriminate|].
      intros [= <- <-]. right. eauto 10.
Qed.

End EndpointFacts.

Lemma X10_handler_always_answers_witness :
  handler (lib := demo_lib) (demo_req "OPTIONS" [("action", QStr "signout")] [])
    demo_world
  = (Returned tt, set_res (ended 200 (cors fresh_res)) demo_world) /\
  (let req := demo_req "GET" [("action", QStr "callback");
                              ("code", QStr "stale")] [] in
   fst (handler (lib := demo_lib) req demo_surrogate_world)
   = Threw (JsError "URI malformed") /\
   action_of req = QStr "callback").
Proof.
  destruct (X10_handler_always_answers (lib := demo_lib)
              (demo_req "OPTIONS" [("action", QStr "signout")] []) demo_world)
    as (Hopt & _).
  split; [exact (Hopt eq_refl)|]. intros req.
  assert (Hrun : handler (lib := demo_lib) req demo_surrogate_world
                 = (Threw (JsError "URI malformed"),
                    set_res (cors fresh_res) demo_surrogate_world))
    by (vm_compute; reflexivity).
  split; [rewrite Hrun; reflexivity|vm_compute; reflexivity].
Defined.

Section SignInAndCallback.

Context {lib : AuthLib}.

(** X11.  [handleSignIn] always returns.  The path it hands to
    [generateStateToken] is the [next] parameter, and ["/"] when that is
    missing or empty.  It answers 302 to the authorization URL exactly when
    the state token was generated, the URL was built and the URL is a valid
    header value; when either library call throws, or the URL is not a valid
    header value, it answers 500 with the message of the error. *)
Theorem X11_handleSignIn_outcomes (req : Req) (w : World) :
  (query req !! "next" = None \/ query req !! "next" = Some (QStr "") ->
   next_path req = QStr "/") /\
  (forall state w1 url w2,
     generateStateToken (next_path req) w = (Returned state, w1) ->
     getGoogleAuthUrl state w1 = (Returned url, w2) ->
     handleSignIn req w
     = (Returned tt,
        set_res (if header_value_ok url then redirected 302 url (res w2)
                 else json_sent 500 (internal_error (invalid_header "Location"))
                        (res w2)) w2)) /\
  (forall e w1,
     generateStateToken (next_path req) w = (Threw e, w1) ->
     handleSignIn req w
     = (Returned tt, set_res (json_sent 500 (internal_error e) (res w1)) w1)) /\
  (forall state w1 e w2,
     generateStateToken (next_path req) w = (Returned state, w1) ->
     getGoogleAuthUrl state w1 = (Threw e, w2) ->
     handleSignIn req w
     = (Returned tt, set_res (json_sent 500 (internal_error e) (res w2)) w2)) /\
  internal_error (invalid_header "Location")
  = JObj [("error", JStr "Internal server error");
          ("message",
           JStr ("Invalid character in header content ["
                 +:+ String "034" ("Location" +:+ String "034" "]")))].
Proof.
  split_and!; [| | | |reflexivity].
  - unfold next_path. intros [-> | ->]; reflexivity.
  - intros state w1 url w2 Hg Hu. unfold handleSignIn, try_catch, bind.
    fold (next_path req). rewrite Hg, Hu. unfold redirect.
    destruct (header_value_ok url); reflexivity.
  - intros e w1 Hg. unfold handleSignIn, try_catch, bind.
    fold (next_path req). rewrite Hg. reflexivity.
  - intros state w1 e w2 Hg Hu. unfold handleSignIn, try_catch, bind.
    fold (next_path req). rewrite Hg, Hu. reflexivity.
Qed.

(** X12.  A callback without provider error and without a usable code - the
    [code] parameter missing, empty, or given more than once - is redirected
    to [/?error=missing_code], and nothing else happens: the library is not
    called, for any library. *)
Theorem X12_callback_without_code (req : Req) (w : World) :
  truthy (query req !! "error") = false ->
  (forall code, query req !! "code" = Some (QStr code) -> code = "") ->
  handleCallback req w
  = (Returned tt, set_res (redirected 302 "/?error=missing_code" (res w)) w).
Proof.
  intros He Hc. unfold handleCallback, try_catch, callback_body. rewrite He.
  destruct (query req !! "code") as [[code|l]|]; try reflexivity.
  rewrite (bool_decide_eq_true_2 _ (Hc code eq_refl)). reflexivity.
Qed.

(** X13.  When every step of the callback goes through - the exchange gives
    an identity with an email, the session is created, the cookie set and the
    state checked - the browser is sent to the path of the state, and to
    [/upload] when the state gave none or an empty one.  The target is only
    checked when the redirect is written: a path that is not a valid header
    value ends in the error page, after the session has been created and the
    cookie set. *)
Theorem X13_callback_success_target (req : Req) (w w1 w2 w3 w4 : World)
    (code sessionToken : string) (googleUser : GoogleUser)
    (stateData : option string) :
  truthy (query req !! "error") = false ->
  query req !! "code" = Some (QStr code) -> code ≠ "" ->
  getGoogleUserInfo code w = (Returned googleUser, w1) ->
  nonempty (g_email googleUser) = true ->
  createUserSession (g_id googleUser) (g_name googleUser) (g_email googleUser) w1
    = (Returned sessionToken, w2) ->
  setSessionCookie sessionToken w2 = (Returned tt, w3) ->
  verifyStateToken (query req !! "state") w3 = (Returned stateData, w4) ->
  handleCallback req w
  = (Returned tt,
     set_res (redirected 302
                (if header_value_ok (redirect_target stateData)
                 then redirect_target stateData
                 else "/?error=Invalid%20character%20in%20header%20content"
                      +:+ "%20%5B%22Location%22%5D")
                (res w4)) w4) /\
  (stateData = None \/ stateData = Some "" -> redirect_target stateData = "/upload") /\
  (forall p, stateData = Some p -> p ≠ "" -> redirect_target stateData = p).
Proof.
  intros He Hc Hne Hg Hmail Hs Hk Hv. split_and!.
  - unfold handleCallback, try_catch, callback_body, bind.
    rewrite He, Hc, (bool_decide_eq_false_2 _ Hne), Hg, Hmail.
    change (negb true) with false. cbv beta iota.
    rewrite Hs, Hk, Hv. unfold redirect at 1.
    destruct (header_value_ok (redirect_target stateData)); [reflexivity|].
    destruct invalid_location_message as (_ & Hwf & Hpage).
    pose proof (redirect_encoded (errorMessage (invalid_header "Location")) w4)
      as Hred.
    unfold bind in Hred. rewrite Hred, Hwf, Hpage. reflexivity.
  - intros [-> | ->]; reflexivity.
  - intros p -> Hp. unfold redirect_target.
    rewrite (bool_decide_eq_false_2 _ Hp). reflexivity.
Qed.

End SignInAndCallback.

Lemma X11_handleSignIn_outcomes_witness :
  handleSignIn (lib := demo_lib) (demo_req "GET" [("action", QStr "signin")] [])
    demo_world
  = (Returned tt,
     set_res (redirected 302
                (authEndpoint demo_cfg +:+ "&state="
                 +:+ percent_encode
                       (StateToken.generate (stateKit demo_cfg) "/" 1000))
                fresh_res) demo_world).
Proof.
  destruct (X11_handleSignIn_outcomes (lib := demo_lib)
              (demo_req "GET" [("action", QStr "signin")] []) demo_world)
    as (_ & Hok & _).
  rewrite (Hok _ demo_world _ demo_world eq_refl eq_refl). reflexivity.
Defined.

Lemma X12_callback_without_code_witness :
  handleCallback (lib := demo_lib)
    (demo_req "GET" [("action", QStr "callback");
                     ("code", QArr ["good"; "good"])] []) demo_world
  = (Returned tt,
     set_res (redirected 302 "/?error=missing_code" fresh_res) demo_world).
Proof.
  apply (X12_callback_without_code (lib := demo_lib)); [reflexivity|].
  intros code. vm_compute. discriminate.
Defined.

Lemma X13_callback_success_target_witness :
  let req := demo_req "GET" [("action", QStr "callback"); ("code", QStr "good");
                             ("state", QStr "garbled")] [] in
  headers (res (snd (handleCallback (lib := demo_lib) req demo_world)))
    !! "Location" = Some "/upload".
Proof.
  intros req.
  pose (w1 := demo_world).
  pose (w2 := snd (spec_createUserSession demo_cfg "g-1" "Ann"
                     (Some "ann@example.org") w1)).
  pose (w3 := snd (spec_setSessionCookie demo_cfg "tok-0" w2)).
  destruct (X13_callback_success_target (lib := demo_lib) req demo_world
              w1 w2 w3 w3 "good" "tok-0"
              {| g_id := "g-1"; g_name := "Ann";
                 g_email := Some "ann@example.org" |} None
              eq_refl eq_refl ltac:(discriminate) eq_refl eq_refl eq_refl
              eq_refl eq_refl) as (Hrun & _).
  rewrite Hrun. reflexivity.
Defined.

(** ** Further properties of app/lib/db.ts: trial tracking *)

Lemma run_statement_up {A}
    (stmt : Z -> Database * Tables -> exn + A * (Database * Tables)) (s : Store) :
  store_up (world s) = true ->
  run_statement stmt s =
    match stmt (clock (world s)) (db (world s), tables s) with
    | inl e => (Threw e, sentS s)
    | inr (a, (d, t)) =>
        (Returned a, {| world := set_db d (sent (world s)); tables := t |})
    end.
Proof.
  unfold store_up, run_statement, sentS, sent.
  intros [_ Hout]%andb_true_iff.
  destruct (outages (world s)) as [|[m|] rest]; try discriminate; reflexivity.
Qed.

Lemma store_sent_same (s : Store) :
  {| world := set_db (db (world s)) (sent (world s)); tables := tables s |}
  = sentS s.
Proof. unfold sentS. rewrite <- (db_sent (world s)) at 1. rewrite set_db_same. reflexivity. Qed.

Lemma select_trial_rows (userId : N) (now : Z) (d : Database) (t : Tables) :
  select_trial userId now (d, t)
  = inr (match filter (fun u => u_id u = userId) (users d) with
         | [] => []
         | u :: _ => [(u_id u, trial_uses t (u_id u), max_trial_uses t (u_id u))]
         end, (d, t)).
Proof.
  unfold select_trial. simpl.
  destruct (filter _ (users d)) as [|u l]; reflexivity.
Qed.

Lemma filter_id_head (userId : N) (us : list UserRow) :
  match filter (fun u => u_id u = userId) us with
  | [] => userId ∉ u_id <$> us
  | u :: _ => u_id u = userId /\ u ∈ us
  end.
Proof.
  destruct (filter _ us) as [|u l] eqn:Hf.
  - intros (u & -> & Hin)%list_elem_of_fmap.
    assert (Hm : u ∈ filter (fun y => u_id y = u_id u) us)
      by (apply list_elem_of_filter; auto).
    rewrite Hf in Hm. inversion Hm.
  - assert (Hm : u ∈ filter (fun y => u_id y = userId) us) by (rewrite Hf; left).
    apply list_elem_of_filter in Hm. exact Hm.
Qed.

Lemma getTrialUsage_up (userId : N) (s : Store) :
  store_up (world s) = true ->
  getTrialUsage userId s
  = (Returned (if bool_decide (userId ∈ u_id <$> users (db (world s)))
               then usage_of_row (trial_uses (tables s) userId)
                      (max_trial_uses (tables s) userId)
               else trial_defaults), sentS s).
Proof.
  intros Hup. unfold getTrialUsage, try_catchS, bindS, neon.
  pose proof Hup as [Hurl _]%andb_true_iff. rewrite Hurl.
  rewrite (run_statement_up _ _ Hup), select_trial_rows, store_sent_same.
  pose proof (filter_id_head userId (users (db (world s)))) as Hhead.
  destruct (filter _ (users (db (world s)))) as [|u l].
  - rewrite (bool_decide_eq_false_2 _ Hhead). reflexivity.
  - destruct Hhead as [Hid Hin]. rewrite Hid.
    rewrite bool_decide_eq_true_2; [reflexivity|].
    apply list_elem_of_fmap. eauto.
Qed.

Lemma getTrialUsage_down (userId : N) (s : Store) :
  store_up (world s) = false ->
  exists s', getTrialUsage userId s = (Returned trial_defaults, s') /\
             tables s' = tables s /\ db (world s') = db (world s).
Proof.
  intros Hdown. unfold getTrialUsage, try_catchS, bindS, neon.
  destruct (store_up_false _ Hdown) as [Hurl|(m & rest & Hurl & Hout)];
    rewrite Hurl.
  - eexists. split; [reflexivity|]. split; reflexivity.
  - unfold run_statement. rewrite Hout. eexists. split; [reflexivity|].
    split; reflexivity.
Qed.

(** X14.  [getTrialUsage] never throws and never writes.  When the store can
    be reached and the user exists, it reports the two counters of the row:
    a NULL or zero [trial_uses] reads as 0, a NULL or zero [max_trial_uses]
    as 3, and what remains is their difference, never below 0.  When the user
    does not exist, or the connection string is missing, or the statement
    fails, it reports the defaults: 0 used, 3 remaining, 3 at most. *)
Theorem X14_getTrialUsage_never_throws (userId : N) (s : Store) :
  (exists usage s', getTrialUsage userId s = (Returned usage, s') /\
     tables s' = tables s /\ db (world s') = db (world s) /\
     0 <= tu_remaining usage /\
     tu_remaining usage = Z.max 0 (tu_max usage - tu_used usage) /\
     tu_max usage ≠ 0) /\
  (store_up (world s) = true -> userId ∈ u_id <$> users (db (world s)) ->
   fst (getTrialUsage userId s)
   = Returned (usage_of_row (trial_uses (tables s) userId)
                 (max_trial_uses (tables s) userId))) /\
  (store_up (world s) = false \/ userId ∉ u_id <$> users (db (world s)) ->
   fst (getTrialUsage userId s) = Returned trial_defaults).
Proof.
  assert (Hvals : forall a b,
    0 <= tu_remaining (usage_of_row a b) /\
    tu_remaining (usage_of_row a b)
      = Z.max 0 (tu_max (usage_of_row a b) - tu_used (usage_of_row a b)) /\
    tu_max (usage_of_row a b) ≠ 0).
  { intros a b. unfold usage_of_row. simpl. split_and!; [lia|reflexivity|].
    unfold parseInt_or. destruct b as [n|]; [|discriminate].
    case_bool_decide; [discriminate|assumption]. }
  split_and!.
  - destruct (store_up (world s)) eqn:Hup.
    + rewrite (getTrialUsage_up _ _ Hup). eexists _, _. split; [reflexivity|].
      split; [reflexivity|]. split; [reflexivity|].
      case_bool_decide; [apply Hvals|]. simpl. split_and!; [lia|reflexivity|lia].
    + destruct (getTrialUsage_down userId s Hup) as (s' & -> & Ht & Hd).
      eexists _, _. split; [reflexivity|]. split; [exact Ht|]. split; [exact Hd|].
      simpl. split_and!; [lia|reflexivity|lia].
  - intros Hup Hin. rewrite (getTrialUsage_up _ _ Hup).
    rewrite (bool_decide_eq_true_2 _ Hin). reflexivity.
  - intros [Hdown|Hno].
    + destruct (getTrialUsage_down userId s Hdown) as (s' & -> & _). reflexivity.
    + destruct (store_up (world s)) eqn:Hup.
      * rewrite (getTrialUsage_up _ _ Hup), (bool_decide_eq_false_2 _ Hno).
        reflexivity.
      * destruct (getTrialUsage_down userId s Hup) as (s' & -> & _). reflexivity.
Qed.

Lemma X14_getTrialUsage_never_throws_witness :
  fst (getTrialUsage 1 demo_store)
  = Returned {| tu_used := 2; tu_remaining := 1; tu_max := 3 |} /\
  fst (getTrialUsage 8 demo_store) = Returned trial_defaults.
Proof.
  destruct (X14_getTrialUsage_never_throws 1 demo_store) as (_ & Hrow & _).
  destruct (X14_getTrialUsage_never_throws 8 demo_store) as (_ & _ & Hdef).
  split.
  - rewrite (Hrow eq_refl ltac:(simpl; left)). reflexivity.
  - apply Hdef. right. simpl. intros [=]%list_elem_of_singleton.
Defined.

(** X15.  [canUseFreeTrial] never throws and fails open: it answers [true]
    when the store cannot be reached and when the user does not exist;
    otherwise it answers [true] exactly when the uses read from the row are
    fewer than the maximum read from the row. *)
Theorem X15_canUseFreeTrial_fails_open (userId : N) (s : Store) :
  (exists b s', canUseFreeTrial userId s = (Returned b, s')) /\
  (store_up (world s) = false \/ userId ∉ u_id <$> users (db (world s)) ->
   fst (canUseFreeTrial userId s) = Returned true) /\
  (store_up (world s) = true -> userId ∈ u_id <$> users (db (world s)) ->
   fst (canUseFreeTrial userId s)
   = Returned (bool_decide
                 (parseInt_or (trial_uses (tables s) userId) 0
                  < parseInt_or (max_trial_uses (tables s) userId) 3))).
Proof.
  unfold canUseFreeTrial, bindS. split_and!.
  - destruct (store_up (world s)) eqn:Hup.
    + rewrite (getTrialUsage_up _ _ Hup). eexists _, _. reflexivity.
    + destruct (getTrialUsage_down userId s Hup) as (s' & -> & _).
      eexists _, _. reflexivity.
  - intros [Hdown|Hno].
    + destruct (getTrialUsage_down userId s Hdown) as (s' & -> & _). reflexivity.
    + destruct (store_up (world s)) eqn:Hup.
      * rewrite (getTrialUsage_up _ _ Hup), (bool_decide_eq_false_2 _ Hno).
        reflexivity.
      * destruct (getTrialUsage_down userId s Hup) as (s' & -> & _). reflexivity.
  - intros Hup Hin. rewrite (getTrialUsage_up _ _ Hup).
    rewrite (bool_decide_eq_true_2 _ Hin). simpl. f_equal.
    apply bool_decide_ext. lia.
Qed.

Lemma X15_canUseFreeTrial_fails_open_witness :
  fst (canUseFreeTrial 1
         {| world := set_outages [Some "timeout"] demo_world;
            tables := tables demo_store |}) = Returned true /\
  fst (canUseFreeTrial 1 demo_store) = Returned true.
Proof.
  split.
  - destruct (X15_canUseFreeTrial_fails_open 1
                {| world := set_outages [Some "timeout"] demo_world;
                   tables := tables demo_store |}) as (_ & Hopen & _).
    apply Hopen. left. reflexivity.
  - destruct (X15_canUseFreeTrial_fails_open 1 demo_store) as (_ & _ & Hrow).
    rewrite (Hrow eq_refl ltac:(simpl; left)). reflexivity.
Defined.

Section TrialColumnFacts.

Variable trial_uses_max : Z.

Lemma update_trial_run (userId : N) (n now : Z) (d : Database) (t : Tables) :
  n <= trial_uses_max ->
  userId ∈ u_id <$> users d ->
  exists d' t',
    update_trial trial_uses_max userId n now (d, t) = inr (tt, (d', t')) /\
    u_id <$> users d' = u_id <$> users d /\ sessions d' = sessions d /\
    trial_uses t' userId = Some n /\
    (forall i, i ≠ userId -> trial_uses t' i = trial_uses t i) /\
    max_trial_uses t' = max_trial_uses t /\
    kv_store t' = kv_store t /\ resumes t' = resumes t.
Proof.
  intros Hn Hin. unfold update_trial.
  rewrite bool_decide_eq_false_2 by lia. rewrite (bool_decide_eq_true_2 _ Hin).
  eexists _, _. split; [reflexivity|]. simpl. split_and!; try reflexivity.
  - rewrite <- list_fmap_compose. apply list_fmap_ext. intros i u _. simpl.
    destruct (bool_decide (u_id u = userId)); reflexivity.
  - rewrite bool_decide_eq_true_2 by reflexivity. reflexivity.
  - intros i Hi. rewrite (bool_decide_eq_false_2 _ Hi). reflexivity.
Qed.

Lemma update_trial_out_of_range (userId : N) (n now : Z)
    (dt : Database * Tables) :
  trial_uses_max < n ->
  update_trial trial_uses_max userId n now dt
  = inl (JsError "integer out of range").
Proof.
  intros Hn. unfold update_trial. destruct dt as [d t].
  rewrite (bool_decide_eq_true_2 _ Hn). reflexivity.
Qed.

Local Arguments update_trial : simpl never.

(** What [incrementTrialUsage] does in each situation. *)
Lemma incrementTrialUsage_cases (userId : N) (s : Store) :
  let n := parseInt_or (trial_uses (tables s) userId) 0 in
  let m := parseInt_or (max_trial_uses (tables s) userId) 3 in
  if store_up (world s) && bool_decide (userId ∈ u_id <$> users (db (world s)))
     && store_up (sent (world s)) && bool_decide (n + 1 <= trial_uses_max)
  then
    exists d' t',
      update_trial trial_uses_max userId (n + 1) (clock (world s))
        (db (world s), tables s)
        = inr (tt, (d', t')) /\
      incrementTrialUsage trial_uses_max userId s
      = (Returned {| ts_success := true; ts_used := n + 1;
                     ts_remaining := Z.max 0 (m - (n + 1)); ts_max := m |},
         {| world := set_db d' (sent (sent (world s))); tables := t' |})
  else
    exists s', incrementTrialUsage trial_uses_max userId s
               = (Returned trial_failure, s') /\
               tables s' = tables s /\ db (world s') = db (world s).
Proof.
  intros n m. unfold incrementTrialUsage, try_catchS, bindS, neon.
  destruct (store_up (world s)) eqn:Hup; simpl.
  2: { destruct (store_up_false _ Hup) as [Hurl|(e & rest & Hurl & Hout)];
         rewrite Hurl.
       - eexists. split; [reflexivity|]. split; reflexivity.
       - unfold run_statement at 1. rewrite Hout. eexists.
         split; [reflexivity|]. split; reflexivity. }
  pose proof Hup as [Hurl _]%andb_true_iff. rewrite Hurl.
  rewrite (run_statement_up _ _ Hup), select_trial_rows, store_sent_same.
  pose proof (filter_id_head userId (users (db (world s)))) as Hhead.
  destruct (filter _ (users (db (world s)))) as [|u l].
  { rewrite (bool_decide_eq_false_2 _ Hhead). simpl. eexists.
    split; [reflexivity|]. split; reflexivity. }
  destruct Hhead as [Hid Hin].
  assert (Hmem : userId ∈ u_id <$> users (db (world s)))
    by (rewrite <- Hid; apply list_elem_of_fmap; eauto).
  rewrite (bool_decide_eq_true_2 _ Hmem), Hid. simpl.
  destruct (store_up (sent (world s))) eqn:Hup2.
  - rewrite (run_statement_up _ (sentS s) Hup2). simpl. fold n.
    case_bool_decide as Hrange.
    + destruct (update_trial_run userId (n + 1) (clock (world s)) _ (tables s)
                  Hrange Hmem) as (d' & t' & Hupd & _).
      rewrite Hupd. exists d', t'. split; reflexivity.
    + rewrite update_trial_out_of_range by lia. eexists.
      split; [reflexivity|]. split; [reflexivity|]. simpl. apply db_sent.
  - assert (Hout : exists e rest, outages (sent (world s)) = Some e :: rest).
    { destruct (store_up_false _ Hup2) as [Hu|(e & rest & _ & Ho)]; [|eauto].
      simpl in Hu. congruence. }
    destruct Hout as (e & rest & Hout). unfold run_statement.
    simpl in Hout |- *. rewrite Hout. eexists. split; [reflexivity|].
    split; reflexivity.
Qed.



End TrialColumnFacts.



(** ** Further properties of app/lib/db.ts: the key-value store *)

Lemma sqlS_up {A}
    (stmt : Z -> Database * Tables -> exn + A * (Database * Tables)) (s : Store) :
  store_up (world s) = true ->
  sqlS stmt s =
    match stmt (clock (world s)) (db (world s), tables s) with
    | inl e => (Threw e, sentS s)
    | inr (a, (d, t)) =>
        (Returned a, {| world := set_db d (sent (world s)); tables := t |})
    end.
Proof.
  intros Hup. unfold sqlS. pose proof Hup as [-> _]%andb_true_iff.
  apply (run_statement_up _ _ Hup).
Qed.

Lemma sqlS_down {A}
    (stmt : Z -> Database * Tables -> exn + A * (Database * Tables)) (s : Store) :
  store_up (world s) = false ->
  exists e s', sqlS stmt s = (Threw e, s') /\
               tables s' = tables s /\ db (world s') = db (world s).
Proof.
  intros Hdown. unfold sqlS, run_statement.
  destruct (store_up_false _ Hdown) as [->|(m & rest & -> & ->)];
    eexists _, _; split; try reflexivity; split; reflexivity.
Qed.

Lemma kvGet_up (key : string) (reader : option string) (s : Store) :
  store_up (world s) = true ->
  kvGet key reader s
  = (Returned (or_null (head (kv_value <$>
        filter (fun r => kv_key r = key /\ owned_by reader r)
          (kv_store (tables s))))), sentS s).
Proof.
  intros Hup. unfold kvGet, bindS. rewrite (sqlS_up _ _ Hup). simpl.
  rewrite store_sent_same, head_take_1. reflexivity.
Qed.

Lemma kvSet_up (key value : string) (writer : option string) (s : Store) :
  store_up (world s) = true ->
  kvSet key value writer s
  = (Returned true,
     {| world := sent (world s);
        tables := upsert_kv key value writer (tables s) |}).
Proof.
  intros Hup. unfold kvSet, bindS. rewrite (sqlS_up _ _ Hup). simpl.
  rewrite <- (db_sent (world s)) at 1. rewrite set_db_same. reflexivity.
Qed.

(** With unique keys the rows a read selects are the row of the key, if the
    reader owns it. *)
Lemma kv_select (reader : option string) (l : list KvRow) (r : KvRow) :
  NoDup (kv_key <$> l) -> r ∈ l ->
  filter (fun x => kv_key x = kv_key r /\ owned_by reader x) l
  = if bool_decide (owned_by reader r) then [r] else [].
Proof.
  induction l as [|y l IH]; [intros _ Hx; inversion Hx|].
  rewrite fmap_cons, NoDup_cons. intros [Hy Hl] Hin. rewrite filter_cons.
  assert (Habs : forall k, k ∉ kv_key <$> l ->
            filter (fun x => kv_key x = k /\ owned_by reader x) l = []).
  { clear. intros k. induction l as [|x l IH]; [reflexivity|].
    rewrite fmap_cons, not_elem_of_cons. intros [Hx Hl].
    rewrite filter_cons, decide_False by (intros [? _]; congruence). auto. }
  apply elem_of_cons in Hin as [<-|Hin].
  - rewrite (Habs _ Hy). destruct (decide (owned_by reader r)) as [Ho|Ho].
    + rewrite decide_True by auto. rewrite (bool_decide_eq_true_2 _ Ho). reflexivity.
    + rewrite decide_False by tauto. rewrite (bool_decide_eq_false_2 _ Ho).
      reflexivity.
  - rewrite decide_False.
    + exact (IH Hl Hin).
    + intros [Heq _]. apply Hy. rewrite Heq. apply list_elem_of_fmap. eauto.
Qed.

Lemma kv_select_absent (reader : option string) (key : string) (l : list KvRow) :
  key ∉ kv_key <$> l ->
  filter (fun x => kv_key x = key /\ owned_by reader x) l = [].
Proof.
  induction l as [|x l IH]; [reflexivity|].
  rewrite fmap_cons, not_elem_of_cons. intros [Hx Hl].
  rewrite filter_cons, decide_False by (intros [? _]; congruence). auto.
Qed.

(** After [upsert_kv] the key has one row: the value is the new one, the
    owner is the old owner if the key was there and the writer if not. *)
Lemma upsert_kv_row (key value : string) (writer : option string) (t : Tables) :
  kv_ok t ->
  let owner := match find (fun r => bool_decide (kv_key r = key)) (kv_store t) with
               | Some old => kv_user_id old
               | None => or_null writer
               end in
  kv_ok (upsert_kv key value writer t) /\
  {| kv_key := key; kv_value := value; kv_user_id := owner |}
    ∈ kv_store (upsert_kv key value writer t) /\
  resumes (upsert_kv key value writer t) = resumes t /\
  trial_uses (upsert_kv key value writer t) = trial_uses t /\
  max_trial_uses (upsert_kv key value writer t) = max_trial_uses t.
Proof.
  intros Hok. unfold upsert_kv, kv_ok in *.
  rewrite (find_bool_decide_head (fun r => kv_key r = key)).
  destruct (filter (fun r => kv_key r = key) (kv_store t)) as [|old rest] eqn:Hf;
    simpl.
  - assert (Hno : key ∉ kv_key <$> kv_store t).
    { intros (r & -> & Hin)%list_elem_of_fmap.
      assert (Hm : r ∈ filter (fun y => kv_key y = kv_key r) (kv_store t))
        by (apply list_elem_of_filter; auto).
      rewrite Hf in Hm. inversion Hm. }
    split_and!; try reflexivity.
    + rewrite fmap_app. apply NoDup_app. split; [exact Hok|].
      split; [|apply NoDup_singleton].
      intros x Hx ->%list_elem_of_singleton. exact (Hno Hx).
    + apply elem_of_app. right. left.
  - assert (Hold : old ∈ kv_store t /\ kv_key old = key).
    { assert (Hm : old ∈ filter (fun y => kv_key y = key) (kv_store t))
        by (rewrite Hf; left).
      apply list_elem_of_filter in Hm. tauto. }
    destruct Hold as [Hin Hkey]. split_and!; try reflexivity.
    + rewrite <- list_fmap_compose.
      erewrite list_fmap_ext; [exact Hok|]. intros i r _. simpl.
      destruct (bool_decide (kv_key r = key)); reflexivity.
    + apply list_elem_of_fmap. exists old. split; [|exact Hin].
      rewrite (bool_decide_eq_true_2 _ Hkey), Hkey. reflexivity.
Qed.

(** X18.  On a reachable store with unique keys [kvSet] returns [true] and
    leaves one row for the key, holding the new value.  A conflict on the key
    updates the value only: the row keeps the owner it had, so the previous
    owner reads the new value and a writer who is not the owner cannot read
    back what was written.  For a new key the row belongs to the writer, who
    reads the value back - as null if the value is the empty string. *)
Theorem X18_kvSet_then_kvGet (key value : string) (writer : option string)
    (s : Store) :
  kv_ok (tables s) -> store_up (world s) = true ->
  let owner := match find (fun r => bool_decide (kv_key r = key))
                       (kv_store (tables s)) with
               | Some old => kv_user_id old
               | None => or_null writer
               end in
  let row := {| kv_key := key; kv_value := value; kv_user_id := owner |} in
  exists s1,
    kvSet key value writer s = (Returned true, s1) /\
    kv_ok (tables s1) /\ row ∈ kv_store (tables s1) /\
    db (world s1) = db (world s) /\
    (forall reader s2, tables s2 = tables s1 -> store_up (world s2) = true ->
       fst (kvGet key reader s2)
       = Returned (if bool_decide (owned_by reader row)
                   then or_null (Some value) else None)) /\
    (key ∉ kv_key <$> kv_store (tables s) ->
     forall s2, tables s2 = tables s1 -> store_up (world s2) = true ->
       fst (kvGet key writer s2) = Returned (or_null (Some value))).
Proof.
  intros Hok Hup owner row. rewrite (kvSet_up _ _ _ _ Hup).
  destruct (upsert_kv_row key value writer (tables s) Hok)
    as (Hok1 & Hin & _). fold owner in Hin. fold row in Hin.
  eexists. split; [reflexivity|]. simpl. split_and!; try assumption.
  - reflexivity.
  - intros reader s2 Ht Hup2. rewrite (kvGet_up _ _ _ Hup2), Ht. simpl.
    pose proof (kv_select reader _ row Hok1 Hin) as Hsel.
    change (kv_key row) with key in Hsel. rewrite Hsel.
    destruct (bool_decide (owned_by reader row)); reflexivity.
  - intros Hfresh s2 Ht Hup2. rewrite (kvGet_up _ _ _ Hup2), Ht. simpl.
    pose proof (kv_select writer _ row Hok1 Hin) as Hsel.
    change (kv_key row) with key in Hsel. rewrite Hsel.
    rewrite bool_decide_eq_true_2; [reflexivity|].
    subst row owner. rewrite (find_bool_decide_head (fun r => kv_key r = key)).
    rewrite (filter_key_absent kv_key key _ Hfresh). simpl.
    unfold owned_by, or_null. simpl. destruct (nonempty writer); reflexivity.
Qed.

Lemma X18_kvSet_then_kvGet_witness :
  let s1 := snd (kvSet "theme" "light" (Some "u-2") demo_store) in
  fst (kvGet "theme" (Some "u-2") s1) = Returned None /\
  fst (kvGet "theme" (Some "u-1") s1) = Returned (Some "light").
Proof.
  intros s1.
  assert (Hok : kv_ok (tables demo_store)) by (apply NoDup_singleton).
  destruct (X18_kvSet_then_kvGet "theme" "light" (Some "u-2") demo_store Hok
              eq_refl) as (s1' & Hrun & _ & _ & _ & Hread & _).
  assert (Hs : s1' = s1) by (unfold s1; rewrite Hrun; reflexivity). subst s1'.
  split.
  - rewrite (Hread (Some "u-2") s1 eq_refl eq_refl). reflexivity.
  - rewrite (Hread (Some "u-1") s1 eq_refl eq_refl). reflexivity.
Defined.

Lemma filter_disjoint {A} (P Q : A -> Prop) `{forall x, Decision (P x)}
    `{forall x, Decision (Q x)} (l : list A) :
  (forall x, P x -> Q x -> False) -> filter P (filter Q l) = [].
Proof.
  intros Hd. induction l as [|x l IH]; [reflexivity|].
  rewrite filter_cons. destruct (decide (Q x)) as [HQ|HQ]; [|exact IH].
  rewrite filter_cons, decide_False by (intros HP; exact (Hd x HP HQ)). exact IH.
Qed.

Lemma filter_all {A} (P : A -> Prop) `{forall x, Decision (P x)} (l : list A) :
  (forall x, x ∈ l -> P x) -> filter P l = l.
Proof.
  induction l as [|x l IH]; [reflexivity|]. intros Hall.
  rewrite filter_cons, decide_True by (apply Hall; left).
  rewrite IH; [reflexivity|]. intros y Hy. apply Hall. right. exact Hy.
Qed.

Lemma kv_ok_filter (P : KvRow -> Prop) `{forall r, Decision (P r)} (t : Tables) :
  kv_ok t -> kv_ok (set_kv_store (filter P (kv_store t)) t).
Proof.
  unfold kv_ok. simpl. intros Hok.
  apply (sublist_NoDup _ (kv_key <$> kv_store t)); [exact Hok|].
  apply fmap_sublist, sublist_filter.
Qed.

Lemma kvDelete_up (key : string) (owner : option string) (s : Store) :
  store_up (world s) = true ->
  kvDelete key owner s
  = (Returned true,
     {| world := sent (world s);
        tables := set_kv_store
                    (filter (fun r => ¬ (kv_key r = key /\ owned_by owner r))
                       (kv_store (tables s))) (tables s) |}).
Proof.
  intros Hup. unfold kvDelete, bindS. rewrite (sqlS_up _ _ Hup). simpl.
  rewrite <- (db_sent (world s)) at 1. rewrite set_db_same. reflexivity.
Qed.

Lemma kvFlush_up (owner : option string) (s : Store) :
  store_up (world s) = true ->
  kvFlush owner s
  = (Returned true,
     {| world := sent (world s);
        tables := set_kv_store
                    (filter (fun r => ¬ owned_by owner r) (kv_store (tables s)))
                    (tables s) |}).
Proof.
  intros Hup. unfold kvFlush, bindS. rewrite (sqlS_up _ _ Hup). simpl.
  rewrite <- (db_sent (world s)) at 1. rewrite set_db_same. reflexivity.
Qed.

(** X19.  On a reachable store [kvDelete] returns [true] whether or not it
    deleted anything.  It removes the rows of the key that belong to the
    given owner and no other row: afterwards that owner reads null for the
    key, and when the key belongs to someone else, or does not exist, the
    table is left as it was.  Users and sessions are not touched and the keys
    stay unique. *)
Theorem X19_kvDelete_removes_own_row_only (key : string)
    (owner : option string) (s : Store) :
  store_up (world s) = true ->
  exists s1,
    kvDelete key owner s = (Returned true, s1) /\
    db (world s1) = db (world s) /\
    (forall s2, tables s2 = tables s1 -> store_up (world s2) = true ->
       fst (kvGet key owner s2) = Returned None) /\
    (forall r, r ∈ kv_store (tables s1) <->
               r ∈ kv_store (tables s) /\ ¬ (kv_key r = key /\ owned_by owner r)) /\
    ((forall r, r ∈ kv_store (tables s) -> kv_key r = key -> ¬ owned_by owner r) ->
     kv_store (tables s1) = kv_store (tables s)) /\
    (kv_ok (tables s) -> kv_ok (tables s1)).
Proof.
  intros Hup. rewrite (kvDelete_up _ _ _ Hup). eexists. split; [reflexivity|].
  simpl. split_and!.
  - reflexivity.
  - intros s2 Ht Hup2. rewrite (kvGet_up _ _ _ Hup2), Ht. simpl.
    rewrite filter_disjoint; [reflexivity|]. intros x HP HQ. exact (HQ HP).
  - intros r. rewrite list_elem_of_filter. tauto.
  - intros Hother. apply filter_all. intros r Hr [Hk Ho].
    exact (Hother r Hr Hk Ho).
  - intros Hok. exact (kv_ok_filter _ _ Hok).
Qed.

Lemma X19_kvDelete_removes_own_row_only_witness :
  let s1 := snd (kvDelete "theme" (Some "u-2") demo_store) in
  fst (kvDelete "theme" (Some "u-2") demo_store) = Returned true /\
  kv_store (tables s1) = kv_store (tables demo_store).
Proof.
  intros s1.
  destruct (X19_kvDelete_removes_own_row_only "theme" (Some "u-2") demo_store
              eq_refl) as (s1' & Hrun & _ & _ & _ & Hsame & _).
  assert (Hs : s1' = s1) by (unfold s1; rewrite Hrun; reflexivity). subst s1'.
  split; [rewrite Hrun; reflexivity|].
  apply Hsame. intros r [= ->]%list_elem_of_singleton _. vm_compute. discriminate.
Defined.

(** X20.  On a reachable store [kvFlush] returns [true] and removes exactly
    the rows of the given owner - the rows without owner when no user id is
    given, and also when the user id is the empty string.  Afterwards that
    owner reads null for every key; the rows of the others are still there,
    users and sessions are not touched and the keys stay unique. *)
Theorem X20_kvFlush_removes_owner_rows (owner : option string) (s : Store) :
  store_up (world s) = true ->
  exists s1,
    kvFlush owner s = (Returned true, s1) /\
    db (world s1) = db (world s) /\
    (forall key s2, tables s2 = tables s1 -> store_up (world s2) = true ->
       fst (kvGet key owner s2) = Returned None) /\
    (forall r, r ∈ kv_store (tables s1) <->
               r ∈ kv_store (tables s) /\ ¬ owned_by owner r) /\
    (kv_ok (tables s) -> kv_ok (tables s1)) /\
    kvFlush (Some "") s = kvFlush None s.
Proof.
  intros Hup. rewrite (kvFlush_up _ _ Hup). eexists. split; [reflexivity|].
  simpl. split_and!.
  - reflexivity.
  - intros key s2 Ht Hup2. rewrite (kvGet_up _ _ _ Hup2), Ht. simpl.
    rewrite filter_disjoint; [reflexivity|]. intros x [_ HP] HQ. exact (HQ HP).
  - intros r. rewrite list_elem_of_filter. tauto.
  - intros Hok. exact (kv_ok_filter _ _ Hok).
  - reflexivity.
Qed.

Lemma X20_kvFlush_removes_owner_rows_witness :
  let s1 := snd (kvFlush (Some "u-1") demo_store) in
  kv_store (tables s1) = [] /\
  fst (kvGet "theme" (Some "u-1") s1) = Returned None.
Proof.
  intros s1.
  destruct (X20_kvFlush_removes_owner_rows (Some "u-1") demo_store eq_refl)
    as (s1' & Hrun & _ & Hnull & _).
  assert (Hs : s1' = s1) by (unfold s1; rewrite Hrun; reflexivity). subst s1'.
  split; [reflexivity|]. exact (Hnull "theme" s1 eq_refl eq_refl).
Defined.

(** ** Further properties of app/lib/db.ts: resumes *)

Lemma sqlS_returned {A}
    (stmt : Z -> Database * Tables -> exn + A * (Database * Tables))
    (s s' : Store) (a : A) :
  sqlS stmt s = (Returned a, s') ->
  stmt (clock (world s)) (db (world s), tables s)
  = inr (a, (db (world s'), tables s')).
Proof.
  unfold sqlS, run_statement.
  destruct (nonempty (DATABASE_URL (world s))); [|discriminate].
  destruct (outages (world s)) as [|[m|] rest]; try discriminate;
    destruct (stmt _ _) as [e|[a' [d t]]]; try discriminate;
    intros [= <- <-]; reflexivity.
Qed.

Lemma getResumeById_up (id : N) (s : Store) :
  store_up (world s) = true ->
  getResumeById id s
  = (Returned (head (filter (fun r => r_id r = id) (resumes (tables s)))),
     sentS s).
Proof.
  intros Hup. unfold getResumeById, bindS. rewrite (sqlS_up _ _ Hup). simpl.
  rewrite store_sent_same, head_take_1. reflexivity.
Qed.

(** X21.  The row [createResume] returns has a new id, the owner and file
    names given, and an optional field as null when it was missing or falsy:
    a file size of 0 is stored as null, like an empty MIME type or URL.
    [getResumeById] of its id then returns that row, and [deleteResume] of
    that id - which asks for no owner - makes [getResumeById] return null. *)
Theorem X21_createResume_then_lookup (data : ResumeData) (s s1 : Store)
    (row : ResumeRow) :
  resumes_ok (tables s) ->
  createResume data s = (Returned row, s1) ->
  (r_id row ∉ r_id <$> resumes (tables s)) /\
  r_user_id row = userId data /\ r_file_name row = fileName data /\
  r_file_path row = filePath data /\
  r_file_size row = num_or_null (fileSize data) /\
  r_mime_type row = or_null (mimeType data) /\
  r_gcs_url row = or_null (gcsUrl data) /\
  resumes_ok (tables s1) /\
  (forall s2, tables s2 = tables s1 -> store_up (world s2) = true ->
     fst (getResumeById (r_id row) s2) = Returned (Some row) /\
     forall s3, tables s3 = tables (snd (deleteResume (r_id row) s2)) ->
       store_up (world s3) = true ->
       fst (getResumeById (r_id row) s3) = Returned None).
Proof.
  intros [Hnd Hseq] Hrun. apply sqlS_returned in Hrun. unfold insert_resume in Hrun.
  injection Hrun as <- _ <-. simpl.
  assert (Hfresh : resumes_seq (tables s) ∉ r_id <$> resumes (tables s)).
  { intros (r & Hr & Hin)%list_elem_of_fmap.
    rewrite Forall_forall in Hseq. specialize (Hseq r Hin). lia. }
  split_and!; try reflexivity; try assumption.
  - split; simpl.
    + rewrite fmap_app. apply NoDup_app. split; [exact Hnd|].
      split; [|apply NoDup_singleton].
      intros x Hx ->%list_elem_of_singleton. exact (Hfresh Hx).
    + apply Forall_app. split.
      * eapply Forall_impl; [exact Hseq|]. simpl. intros; lia.
      * apply Forall_singleton. simpl. lia.
  - intros s2 Ht Hup. split.
    + rewrite (getResumeById_up _ _ Hup), Ht. simpl.
      rewrite filter_app, (filter_key_absent r_id _ _ Hfresh), filter_cons.
      rewrite decide_True by reflexivity. reflexivity.
    + intros s3 Ht3 Hup3. rewrite (getResumeById_up _ _ Hup3), Ht3.
      unfold deleteResume. rewrite (sqlS_up _ _ Hup). simpl.
      rewrite filter_disjoint; [reflexivity|]. intros x HP HQ. exact (HQ HP).
Qed.

Lemma X21_createResume_then_lookup_witness :
  let data := {| userId := "u-1"; fileName := "cv.pdf"; filePath := "u-1/cv.pdf";
                 fileSize := Some 0; mimeType := Some "application/pdf";
                 gcsUrl := None |} in
  let row := {| r_id := 1; r_user_id := "u-1"; r_file_name := "cv.pdf";
                r_file_path := "u-1/cv.pdf"; r_file_size := None;
                r_mime_type := Some "application/pdf"; r_gcs_url := None;
                r_analysis_data := None; r_ats_score := None;
                r_created_at := 1000 |} in
  createResume data demo_store = (Returned row, snd (createResume data demo_store)) /\
  fst (getResumeById 1 (snd (createResume data demo_store))) = Returned (Some row).
Proof.
  intros data row. split; [reflexivity|].
  assert (Hok : resumes_ok (tables demo_store)).
  { split; [apply NoDup_nil_2|apply Forall_nil_2]. }
  destruct (X21_createResume_then_lookup data demo_store
              (snd (createResume data demo_store)) row Hok eq_refl)
    as (_ & _ & _ & _ & _ & _ & _ & _ & Hfind).
  exact (proj1 (Hfind _ eq_refl eq_refl)).
Defined.

Lemma updateResumeAnalysis_up (id : N) (a : json) (score : option Z) (s : Store) :
  store_up (world s) = true ->
  updateResumeAnalysis id a score s
  = (Returned (analysed a score
                 <$> head (filter (fun r => r_id r = id) (resumes (tables s)))),
     {| world := sent (world s);
        tables := set_resumes
                    ((fun r => if bool_decide (r_id r = id)
                               then analysed a score r else r)
                       <$> resumes (tables s)) (tables s) |}).
Proof.
  intros Hup. unfold updateResumeAnalysis, bindS. rewrite (sqlS_up _ _ Hup).
  simpl. rewrite <- (db_sent (world s)) at 1. rewrite set_db_same.
  unfold retS. destruct (filter _ (resumes (tables s))); reflexivity.
Qed.

(** X22.  On a reachable store [updateResumeAnalysis] of an id that no resume
    has returns nothing ([undefined]) and changes no row; no error is thrown.
    For the id of a resume it returns the row with [analysis_data] set to the
    analysis given and [ats_score] to the score given - a score of 0, like a
    missing one, is stored as null - and with every other column as it was;
    that row is in the table afterwards, [getResumeById] returns it, and the
    other rows are unchanged. *)
Theorem X22_updateResumeAnalysis_outcomes (id : N) (analysisData : json)
    (atsScore : option Z) (s : Store) :
  resumes_ok (tables s) -> store_up (world s) = true ->
  exists s1,
    (id ∉ r_id <$> resumes (tables s) ->
     updateResumeAnalysis id analysisData atsScore s = (Returned None, s1) /\
     resumes (tables s1) = resumes (tables s)) /\
    (forall r, r ∈ resumes (tables s) -> r_id r = id ->
       let r' := {| r_id := r_id r; r_user_id := r_user_id r;
                    r_file_name := r_file_name r; r_file_path := r_file_path r;
                    r_file_size := r_file_size r; r_mime_type := r_mime_type r;
                    r_gcs_url := r_gcs_url r;
                    r_analysis_data := Some analysisData;
                    r_ats_score := match atsScore with
                                   | Some 0 | None => None
                                   | Some score => Some score
                                   end;
                    r_created_at := r_created_at r |} in
       updateResumeAnalysis id analysisData atsScore s = (Returned (Some r'), s1) /\
       r' ∈ resumes (tables s1) /\
       (forall s2, tables s2 = tables s1 -> store_up (world s2) = true ->
          fst (getResumeById id s2) = Returned (Some r')) /\
       (forall x, x ∈ resumes (tables s) -> r_id x ≠ id ->
          x ∈ resumes (tables s1)) /\
       (forall x, x ∈ resumes (tables s1) -> x = r' \/ x ∈ resumes (tables s))).
Proof.
  intros [Hnd Hseq] Hup. rewrite (updateResumeAnalysis_up _ _ _ _ Hup).
  eexists. split.
  - intros Hno. rewrite (filter_key_absent r_id id _ Hno). simpl.
    split; [reflexivity|].
    erewrite list_fmap_ext; [apply list_fmap_id|]. intros i r Hr. simpl.
    rewrite bool_decide_eq_false_2; [reflexivity|].
    intros Heq. apply Hno. rewrite <- Heq. apply list_elem_of_fmap.
    exists r. split; [reflexivity|]. eapply list_elem_of_lookup_2. exact Hr.
  - intros r Hin Hid r'. subst id.
    assert (Hr' : r' = analysed analysisData atsScore r).
    { subst r'. unfold analysed, num_or_null.
      destruct atsScore as [[|p|p]|]; reflexivity. }
    rewrite Hr'. clear Hr' r'.
    rewrite (filter_key_unique r_id _ r Hnd Hin). simpl.
    assert (Hin' : analysed analysisData atsScore r
                   ∈ (fun x => if bool_decide (r_id x = r_id r)
                               then analysed analysisData atsScore x else x)
                     <$> resumes (tables s)).
    { apply list_elem_of_fmap. exists r. split; [|exact Hin].
      rewrite bool_decide_eq_true_2 by reflexivity. reflexivity. }
    split; [reflexivity|]. split; [exact Hin'|]. split; [|split].
    + intros s2 Ht Hup2. rewrite (getResumeById_up _ _ Hup2), Ht. simpl.
      assert (Hnd' : NoDup (r_id <$> ((fun x => if bool_decide (r_id x = r_id r)
                                 then analysed analysisData atsScore x else x)
                       <$> resumes (tables s)))).
      { rewrite <- list_fmap_compose.
        erewrite list_fmap_ext; [exact Hnd|]. intros i x _. simpl.
        destruct (bool_decide (r_id x = r_id r)); reflexivity. }
      pose proof (filter_key_unique r_id _ _ Hnd' Hin') as Hone.
      simpl in Hone. rewrite Hone. reflexivity.
    + intros x Hx Hne. apply list_elem_of_fmap. exists x.
      split; [|exact Hx]. rewrite (bool_decide_eq_false_2 _ Hne). reflexivity.
    + intros x (y & -> & Hy)%list_elem_of_fmap. case_bool_decide as Hid.
      * left. f_equal.
        assert (Hy' : filter (fun z => r_id z = r_id r) (resumes (tables s)) = [y]).
        { rewrite <- Hid. apply (filter_key_unique r_id _ y Hnd Hy). }
        rewrite (filter_key_unique r_id _ r Hnd Hin) in Hy'. congruence.
      * right. exact Hy.
Qed.

(** A score of 0 for the resume of the sample store: the row comes back with
    the analysis and without score. *)
Lemma X22_updateResumeAnalysis_outcomes_witness :
  let data := {| userId := "u-1"; fileName := "cv.pdf"; filePath := "u-1/cv.pdf";
                 fileSize := Some 1024; mimeType := Some "application/pdf";
                 gcsUrl := None |} in
  let s := snd (createResume data demo_store) in
  fst (updateResumeAnalysis 1 (JObj [("summary", JStr "ok")]) (Some 0) s)
  = Returned (Some {| r_id := 1; r_user_id := "u-1"; r_file_name := "cv.pdf";
                      r_file_path := "u-1/cv.pdf"; r_file_size := Some 1024;
                      r_mime_type := Some "application/pdf"; r_gcs_url := None;
                      r_analysis_data := Some (JObj [("summary", JStr "ok")]);
                      r_ats_score := None; r_created_at := 1000 |}) /\
  fst (updateResumeAnalysis 4 JNull (Some 80) s) = Returned None.
Proof.
  intros data s.
  assert (Hok : resumes_ok (tables s)).
  { split; [vm_compute; apply NoDup_singleton|].
    apply Forall_singleton. reflexivity. }
  split.
  - destruct (X22_updateResumeAnalysis_outcomes 1 (JObj [("summary", JStr "ok")])
                (Some 0) s Hok eq_refl) as (s1 & _ & Hrow).
    destruct (Hrow {| r_id := 1; r_user_id := "u-1"; r_file_name := "cv.pdf";
                      r_file_path := "u-1/cv.pdf"; r_file_size := Some 1024;
                      r_mime_type := Some "application/pdf"; r_gcs_url := None;
                      r_analysis_data := None; r_ats_score := None;
                      r_created_at := 1000 |}
                ltac:(vm_compute; apply list_elem_of_singleton; reflexivity)
                eq_refl) as (-> & _).
    reflexivity.
  - destruct (X22_updateResumeAnalysis_outcomes 4 JNull (Some 80) s Hok eq_refl)
      as (s1 & Hnone & _).
    destruct (Hnone ltac:(vm_compute; intros H%list_elem_of_singleton;
                          discriminate H)) as [-> _].
    reflexivity.
Defined.

Lemma newer_first_total : Total newer_first.
Proof. intros a b. unfold newer_first. lia. Qed.

Lemma newer_first_trans : Transitive newer_first.
Proof. intros a b c. unfold newer_first. lia. Qed.

(** X23.  On a reachable store [getResumesByUserId] throws for a negative
    limit and changes nothing.  Otherwise - the limit being 50 when none is
    given - it returns resumes of the given owner only, newest first, as many
    as the owner has but no more than the limit; the resumes of the owner
    left out are not newer than any one returned. *)
Theorem X23_getResumesByUserId_newest_first (owner : string)
    (limit : option Z) (s : Store) :
  store_up (world s) = true ->
  let n := default 50 limit in
  let owned := filter (fun r => r_user_id r = owner) (resumes (tables s)) in
  (n < 0 ->
   exists e, getResumesByUserId owner limit s = (Threw e, sentS s)) /\
  (0 <= n ->
   exists rows rest,
     getResumesByUserId owner limit s = (Returned rows, sentS s) /\
     rows ++ rest ≡ₚ owned /\
     StronglySorted newer_first (rows ++ rest) /\
     length rows = Nat.min (Z.to_nat n) (length owned) /\
     (forall r, r ∈ rows -> r ∈ resumes (tables s) /\ r_user_id r = owner)).
Proof.
  intros Hup n owned. unfold getResumesByUserId. rewrite (sqlS_up _ _ Hup).
  unfold select_resumes. fold n. simpl. split.
  - intros Hneg. rewrite (bool_decide_eq_true_2 _ Hneg). eauto.
  - intros Hpos. rewrite bool_decide_eq_false_2 by lia. fold owned.
    rewrite store_sent_same.
    exists (take (Z.to_nat n) (merge_sort newer_first owned)),
           (drop (Z.to_nat n) (merge_sort newer_first owned)).
    split; [reflexivity|]. rewrite take_drop.
    pose proof (merge_sort_Permutation newer_first owned) as Hperm.
    split_and!.
    + exact Hperm.
    + apply (@StronglySorted_merge_sort _ newer_first _ newer_first_trans
               newer_first_total).
    + rewrite length_take, (Permutation_length Hperm). reflexivity.
    + intros r Hr%subseteq_take. rewrite Hperm in Hr.
      apply list_elem_of_filter in Hr. tauto.
Qed.

(** A negative limit on the sample store; and, with two resumes of one owner,
    a limit of 1 gives the later one. *)
Lemma X23_getResumesByUserId_newest_first_witness :
  (exists e, getResumesByUserId "u-1" (Some (-1)) demo_store
             = (Threw e, sentS demo_store)) /\
  (let cv (name : string) :=
     {| userId := "u-1"; fileName := name; filePath := "u-1/" +:+ name;
        fileSize := None; mimeType := None; gcsUrl := None |} in
   let s1 := snd (createResume (cv "old.pdf") demo_store) in
   let s2 := snd (createResume (cv "new.pdf")
                    {| world := set_clock 2000 (world s1); tables := tables s1 |}) in
   exists rows, fst (getResumesByUserId "u-1" (Some 1) s2) = Returned rows /\
                r_file_name <$> rows = ["new.pdf"]).
Proof.
  split.
  - destruct (X23_getResumesByUserId_newest_first "u-1" (Some (-1)) demo_store
                eq_refl) as [Hneg _].
    apply Hneg. simpl. lia.
  - intros cv s1 s2.
    destruct (X23_getResumesByUserId_newest_first "u-1" (Some 1) s2 eq_refl)
      as [_ Hrows].
    destruct (Hrows ltac:(simpl; lia)) as (rows & rest & Hrun & _).
    exists rows. rewrite Hrun. split; [reflexivity|].
    vm_compute in Hrun. injection Hrun as <-. reflexivity.
Defined.

(** ** Failures of the store *)

Lemma sqlS_down_any (s : Store) :
  store_up (world s) = false ->
  exists e s', tables s' = tables s /\ db (world s') = db (world s) /\
    forall A (stmt : Z -> Database * Tables -> exn + A * (Database * Tables)),
      sqlS stmt s = (Threw e, s').
Proof.
  intros Hdown.
  destruct (store_up_false _ Hdown) as [Hurl|(m & rest & Hurl & Hout)].
  - exists (JsError "sql is not a function"), s.
    split; [reflexivity|]. split; [reflexivity|].
    intros A stmt. unfold sqlS. rewrite Hurl. reflexivity.
  - exists (JsError m), (sentS s).
    split; [reflexivity|]. split; [apply db_sent|].
    intros A stmt. unfold sqlS, run_statement, sentS, sent.
    rewrite Hurl, Hout. reflexivity.
Qed.

(** X24.  When the store cannot be reached - no connection string, or an
    outage at the next statement - the key-value and resume functions and
    [initializeDatabase] all throw the error of the store: none of them
    returns [false] or [null] in its place, none changes a table, and
    [getResumesByUserId] throws that error also for a negative limit. *)
Theorem X24_store_failure_is_thrown (s : Store) :
  store_up (world s) = false ->
  exists e s',
    tables s' = tables s /\ db (world s') = db (world s) /\
    (forall key u, kvGet key u s = (Threw e, s')) /\
    (forall key value u, kvSet key value u s = (Threw e, s')) /\
    (forall key u, kvDelete key u s = (Threw e, s')) /\
    (forall u, kvFlush u s = (Threw e, s')) /\
    (forall data, createResume data s = (Threw e, s')) /\
    (forall id, getResumeById id s = (Threw e, s')) /\
    (forall owner limit, getResumesByUserId owner limit s = (Threw e, s')) /\
    (forall id a score, updateResumeAnalysis id a score s = (Threw e, s')) /\
    (forall id, deleteResume id s = (Threw e, s')) /\
    initializeDatabase s = (Threw e, s').
Proof.
  intros Hdown.
  destruct (sqlS_down_any s Hdown) as (e & s' & Ht & Hd & Hsql).
  exists e, s'. split; [exact Ht|]. split; [exact Hd|].
  split_and!; intros;
    unfold kvGet, kvSet, kvDelete, kvFlush, createResume, getResumeById,
      getResumesByUserId, updateResumeAnalysis, deleteResume,
      initializeDatabase, try_catchS, bindS;
    rewrite Hsql; reflexivity.
Qed.

Lemma X24_store_failure_is_thrown_witness :
  let s := {| world := demo_outage_world; tables := tables demo_store |} in
  exists e s', tables s' = tables s /\
    kvGet "theme" (Some "u-1") s = (Threw e, s') /\
    initializeDatabase s = (Threw e, s').
Proof.
  intros s.
  destruct (X24_store_failure_is_thrown s eq_refl)
    as (e & s' & Ht & _ & Hget & _ & _ & _ & _ & _ & _ & _ & _ & Hinit).
  exists e, s'. split; [exact Ht|]. split; [apply Hget|exact Hinit].
Defined.
